(** * Handwrite OCR plugin: batch processor, extraction client, template renderer

    A shallow embedding of the TypeScript sources

    - [FileProcessor] ([processFile], [processBatch], [createNote],
      [mergeTagsWithDefaults]),
    - [GeminiClient] ([buildPrompt], [parseJSONResponse],
      [extractStructuredTextFromImage], [extractStructuredTextFromPDF]),
    - [TemplateRenderer] ([renderTemplate], [generateFilename],
      [createTemplateData]),

    followed by the properties of the specification that concern them.

    Conventions.  A JavaScript string is a [string]: a sequence of code
    units, here restricted to the range 0..255.  Indices are [Z], with [-1]
    for "not found", as in the source.  A thrown value is data
    ([JsThrown]); a function that may throw returns a [Completion]. *)

From Stdlib Require Import ZArith Ascii String List Bool Lia.
From stdpp Require Import base option list gmap strings.

Set Warnings "-register-all".

Local Open Scope string_scope.
Local Open Scope Z_scope.

(** ** JavaScript strings *)

Module JsString.

Definition len (s : string) : Z := Z.of_nat (String.length s).

Definition code (c : ascii) : nat := nat_of_ascii c.

(** White space of [String.prototype.trim] and of the regular-expression
    class [\s], within the code-unit range of the model. *)
Definition isSpace (c : ascii) : bool :=
  let n := code c in
  ((n =? 9) || (n =? 10) || (n =? 11) || (n =? 12) || (n =? 13)
   || (n =? 32) || (n =? 160))%nat.

(** The regular-expression class [\w]. *)
Definition isWord (c : ascii) : bool :=
  let n := code c in
  (((48 <=? n) && (n <=? 57)) || ((65 <=? n) && (n <=? 90))
   || ((97 <=? n) && (n <=? 122)) || (n =? 95))%nat.

Definition isDigit (c : ascii) : bool :=
  let n := code c in ((48 <=? n) && (n <=? 57))%nat.

Fixpoint drop (n : nat) (s : string) : string :=
  match n, s with
  | O, _ => s
  | S n', String _ s' => drop n' s'
  | S _, EmptyString => EmptyString
  end.

Fixpoint take (n : nat) (s : string) : string :=
  match n, s with
  | O, _ => EmptyString
  | S n', String c s' => String c (take n' s')
  | S _, EmptyString => EmptyString
  end.

Fixpoint startsWith (p s : string) : bool :=
  match p, s with
  | EmptyString, _ => true
  | String a p', String b s' => if Ascii.eqb a b then startsWith p' s' else false
  | String _ _, EmptyString => false
  end.

(** Offset of the first occurrence of [needle] in [s]. *)
Fixpoint find (needle s : string) : option nat :=
  if startsWith needle s then Some O
  else match s with
       | EmptyString => None
       | String _ s' => S <$> find needle s'
       end.

(** Offset of the last occurrence of [needle] in [s]. *)
Fixpoint findLast (needle s : string) : option nat :=
  match s with
  | EmptyString => if startsWith needle EmptyString then Some O else None
  | String _ s' =>
      match findLast needle s' with
      | Some i => Some (S i)
      | None => if startsWith needle s then Some O else None
      end
  end.

Definition clamp (i : Z) (s : string) : nat := Z.to_nat (Z.min (Z.max i 0) (len s)).

(** [s.indexOf(needle, from)] *)
Definition indexOfFrom (needle s : string) (from : Z) : Z :=
  let k := clamp from s in
  match find needle (drop k s) with
  | Some i => Z.of_nat (k + i)
  | None => -1
  end.

(** [s.indexOf(needle)] *)
Definition indexOf (needle s : string) : Z := indexOfFrom needle s 0.

(** [s.lastIndexOf(needle)] *)
Definition lastIndexOf (needle s : string) : Z :=
  match findLast needle s with
  | Some i => Z.of_nat i
  | None => -1
  end.

(** [s.includes(needle)] *)
Definition includes (needle s : string) : bool :=
  match find needle s with Some _ => true | None => false end.

(** [s.substring(a, b)]: both ends are clamped to the string and swapped
    when out of order. *)
Definition substring (s : string) (a b : Z) : string :=
  let a' := clamp a s in
  let b' := clamp b s in
  let lo := Nat.min a' b' in
  let hi := Nat.max a' b' in
  take (hi - lo) (drop lo s).

Fixpoint trimStart (s : string) : string :=
  match s with
  | EmptyString => EmptyString
  | String c s' => if isSpace c then trimStart s' else s
  end.

Fixpoint trimEnd (s : string) : string :=
  match s with
  | EmptyString => EmptyString
  | String c s' =>
      match trimEnd s' with
      | EmptyString => if isSpace c then EmptyString else String c EmptyString
      | t => String c t
      end
  end.

(** [s.trim()] *)
Definition trim (s : string) : string := trimEnd (trimStart s).

Definition lowerChar (c : ascii) : ascii :=
  let n := code c in
  if (((65 <=? n) && (n <=? 90))
      || ((192 <=? n) && (n <=? 222) && negb (n =? 215)))%nat
  then ascii_of_nat (n + 32) else c.

(** [s.toLowerCase()] *)
Fixpoint toLowerCase (s : string) : string :=
  match s with
  | EmptyString => EmptyString
  | String c s' => String (lowerChar c) (toLowerCase s')
  end.

Fixpoint mem (c : ascii) (s : string) : bool :=
  match s with
  | EmptyString => false
  | String d s' => if Ascii.eqb c d then true else mem c s'
  end.

Fixpoint all (p : ascii -> bool) (s : string) : bool :=
  match s with
  | EmptyString => true
  | String c s' => p c && all p s'
  end.

(** [parts.join(sep)] *)
Fixpoint join (sep : string) (parts : list string) : string :=
  match parts with
  | [] => EmptyString
  | [p] => p
  | p :: rest => p +:+ sep +:+ join sep rest
  end.

(** A JavaScript string is falsy exactly when it is empty. *)
Definition truthy (s : string) : bool :=
  match s with EmptyString => false | String _ _ => true end.

End JsString.

(** ** JavaScript values, thrown values, completions *)

(** The values [JSON.parse] produces; they are the [any] of the source.  A
    number is kept as its literal. *)
Inductive JsValue : Type :=
| JNull
| JBool (b : bool)
| JNumber (literal : string)
| JString (s : string)
| JArray (items : list JsValue)
| JObject (fields : list (string * JsValue)).

(** What a [throw] carries: an [Error] instance with its [name] and
    [message], or some other value.  Another value is given by its
    string rendering and by what a template literal shows for its
    [message] property: the text [undefined] for a value that has none
    (a string, a number, an object without it), the property as a string
    for an object that has one, and nothing for [null] and [undefined],
    on which reading a property throws. *)
Inductive JsThrown : Type :=
| ThrownError (name message : string)
| ThrownOther (rendering : string) (message : option string).

Inductive Completion (A : Type) : Type :=
| Normal (a : A)
| Throw (e : JsThrown).
Arguments Normal {A} a.
Arguments Throw {A} e.

Definition bindC {A B : Type} (c : Completion A) (k : A -> Completion B) : Completion B :=
  match c with
  | Normal a => k a
  | Throw e => Throw e
  end.

Notation "x <-! c ;; k" := (bindC c (fun x => k))
  (at level 100, c at next level, right associativity).

(** [try { c } catch (error) { h error }] *)
Definition tryCatch {A : Type} (c : Completion A) (h : JsThrown -> Completion A) : Completion A :=
  match c with
  | Normal a => Normal a
  | Throw e => h e
  end.

Module Js.

Definition quote : ascii := ascii_of_nat 34.
Definition backslash : ascii := ascii_of_nat 92.
Definition newline : string := String (ascii_of_nat 10) EmptyString.

(** [new Error(message)] *)
Definition newError (message : string) : JsThrown := ThrownError "Error" message.

(** [error instanceof Error] *)
Definition instanceofError (e : JsThrown) : bool :=
  match e with ThrownError _ _ => true | ThrownOther _ _ => false end.

(** [String(error)], which is what a template literal applies:
    [Error.prototype.toString] for an [Error]. *)
Definition throwToString (e : JsThrown) : string :=
  match e with
  | ThrownError name message =>
      match name, message with
      | _, EmptyString => name
      | EmptyString, _ => message
      | _, _ => name +:+ ": " +:+ message
      end
  | ThrownOther rendering _ => rendering
  end.

(** [o[key]] on own properties. *)
Fixpoint get (key : string) (fields : list (string * JsValue)) : option JsValue :=
  match fields with
  | [] => None
  | (k, v) :: rest => if String.eqb k key then Some v else get key rest
  end.

(** [o[key] = v]: an existing property keeps its place. *)
Fixpoint set (key : string) (v : JsValue) (fields : list (string * JsValue))
  : list (string * JsValue) :=
  match fields with
  | [] => [(key, v)]
  | (k, w) :: rest =>
      if String.eqb k key then (k, v) :: rest else (k, w) :: set key v rest
  end.

(** [{...a, ...b}] *)
Definition spread (a b : list (string * JsValue)) : list (string * JsValue) :=
  fold_left (fun acc kv => set (fst kv) (snd kv) acc) b a.

(** [String(v)].  Inside an array [null] prints as the empty string, as
    [Array.prototype.join] has it. *)
Fixpoint toString (v : JsValue) : string :=
  match v with
  | JNull => "null"
  | JBool true => "true"
  | JBool false => "false"
  | JNumber literal => literal
  | JString s => s
  | JArray items =>
      JsString.join ","
        (List.map (fun item => match item with JNull => EmptyString | _ => toString item end)
                  items)
  | JObject _ => "[object Object]"
  end.

(** Truthiness of a value; a number literal is falsy when it denotes zero. *)
Definition truthy (v : JsValue) : bool :=
  match v with
  | JNull => false
  | JBool b => b
  | JNumber literal =>
      negb (JsString.all (fun c => JsString.mem c "-0.") 
              (JsString.take (match JsString.find "e" (JsString.toLowerCase literal) with
                              | Some i => i | None => String.length literal end) literal))
  | JString s => JsString.truthy s
  | JArray _ => true
  | JObject _ => true
  end.

End Js.

(** ** [JSON.parse]

    A recursive-descent reader of the JSON grammar.  A [\u] escape above
    [00FF] lies outside the code-unit range of the model and reads as [?];
    whether a text is accepted does not depend on it. *)

Module JSON.

Definition isWs (c : ascii) : bool :=
  let n := JsString.code c in ((n =? 9) || (n =? 10) || (n =? 13) || (n =? 32))%nat.

Fixpoint skipWs (s : string) : string :=
  match s with
  | EmptyString => EmptyString
  | String c s' => if isWs c then skipWs s' else s
  end.

Fixpoint spanDigits (s : string) : string * string :=
  match s with
  | EmptyString => (EmptyString, EmptyString)
  | String c s' =>
      if JsString.isDigit c
      then let '(d, r) := spanDigits s' in (String c d, r)
      else (EmptyString, s)
  end.

Definition hexDigit (c : ascii) : option nat :=
  let n := JsString.code c in
  if ((48 <=? n) && (n <=? 57))%nat then Some (n - 48)%nat
  else if ((65 <=? n) && (n <=? 70))%nat then Some (n - 55)%nat
  else if ((97 <=? n) && (n <=? 102))%nat then Some (n - 87)%nat
  else None.

Definition hex4 (a b c d : ascii) : option ascii :=
  match hexDigit a, hexDigit b, hexDigit c, hexDigit d with
  | Some x, Some y, Some z, Some w =>
      Some (if ((x =? 0) && (y =? 0))%nat then ascii_of_nat (16 * z + w) else "?"%char)
  | _, _, _, _ => None
  end.

Definition simpleEscape (c : ascii) : option ascii :=
  if Ascii.eqb c Js.quote then Some Js.quote
  else if Ascii.eqb c Js.backslash then Some Js.backslash
  else if Ascii.eqb c "/" then Some "/"%char
  else if Ascii.eqb c "b" then Some (ascii_of_nat 8)
  else if Ascii.eqb c "f" then Some (ascii_of_nat 12)
  else if Ascii.eqb c "n" then Some (ascii_of_nat 10)
  else if Ascii.eqb c "r" then Some (ascii_of_nat 13)
  else if Ascii.eqb c "t" then Some (ascii_of_nat 9)
  else None.

(** The characters of a string literal after its opening quote, up to and
    including the closing one. *)
Fixpoint lexString (s : string) : option (string * string) :=
  match s with
  | EmptyString => None
  | String c r =>
      if Ascii.eqb c Js.quote then Some (EmptyString, r)
      else if Ascii.eqb c Js.backslash then
        match r with
        | String e r' =>
            match simpleEscape e with
            | Some ch =>
                match lexString r' with
                | Some (str, rest) => Some (String ch str, rest)
                | None => None
                end
            | None =>
                if Ascii.eqb e "u" then
                  match r' with
                  | String h1 (String h2 (String h3 (String h4 r''))) =>
                      match hex4 h1 h2 h3 h4, lexString r'' with
                      | Some ch, Some (str, rest) => Some (String ch str, rest)
                      | _, _ => None
                      end
                  | _ => None
                  end
                else None
            end
        | EmptyString => None
        end
      else if (JsString.code c <? 32)%nat then None
      else match lexString r with
           | Some (str, rest) => Some (String c str, rest)
           | None => None
           end
  end.

Definition lexNumber (s : string) : option (string * string) :=
  let '(sign, s1) :=
    match s with
    | String "-" r => ("-", r)
    | _ => (EmptyString, s)
    end in
  let '(int, s2) := spanDigits s1 in
  let intOk :=
    match int with
    | EmptyString => false
    | String "0" (String _ _) => false
    | _ => true
    end in
  if negb intOk then None else
  let frac :=
    match s2 with
    | String "." r =>
        let '(d, r') := spanDigits r in
        match d with
        | EmptyString => None
        | _ => Some ("." +:+ d, r')
        end
    | _ => Some (EmptyString, s2)
    end in
  match frac with
  | None => None
  | Some (fr, s3) =>
      let expo :=
        match s3 with
        | String e r =>
            if Ascii.eqb e "e" || Ascii.eqb e "E" then
              let '(sg, r1) :=
                match r with
                | String "+" r1 => ("+", r1)
                | String "-" r1 => ("-", r1)
                | _ => (EmptyString, r)
                end in
              let '(d, r2) := spanDigits r1 in
              match d with
              | EmptyString => None
              | _ => Some (String e sg +:+ d, r2)
              end
            else Some (EmptyString, s3)
        | EmptyString => Some (EmptyString, s3)
        end in
      match expo with
      | None => None
      | Some (ex, s4) => Some (sign +:+ int +:+ fr +:+ ex, s4)
      end
  end.

Fixpoint parseValue (fuel : nat) (s : string) {struct fuel} : option (JsValue * string) :=
  match fuel with
  | O => None
  | S fuel' =>
      match skipWs s with
      | EmptyString => None
      | String c r =>
          if Ascii.eqb c "{" then
            match skipWs r with
            | String "}" r' => Some (JObject [], r')
            | _ => parseMembers fuel' r []
            end
          else if Ascii.eqb c "[" then
            match skipWs r with
            | String "]" r' => Some (JArray [], r')
            | _ => parseElements fuel' r []
            end
          else if Ascii.eqb c Js.quote then
            match lexString r with
            | Some (str, r') => Some (JString str, r')
            | None => None
            end
          else if JsString.startsWith "true" (String c r) then Some (JBool true, JsString.drop 4 (String c r))
          else if JsString.startsWith "false" (String c r) then Some (JBool false, JsString.drop 5 (String c r))
          else if JsString.startsWith "null" (String c r) then Some (JNull, JsString.drop 4 (String c r))
          else match lexNumber (String c r) with
               | Some (literal, r') => Some (JNumber literal, r')
               | None => None
               end
      end
  end
with parseElements (fuel : nat) (s : string) (acc : list JsValue) {struct fuel}
  : option (JsValue * string) :=
  match fuel with
  | O => None
  | S fuel' =>
      match parseValue fuel' s with
      | Some (v, r) =>
          match skipWs r with
          | String "," r' => parseElements fuel' r' (acc ++ [v])%list
          | String "]" r' => Some (JArray (acc ++ [v])%list, r')
          | _ => None
          end
      | None => None
      end
  end
with parseMembers (fuel : nat) (s : string) (acc : list (string * JsValue)) {struct fuel}
  : option (JsValue * string) :=
  match fuel with
  | O => None
  | S fuel' =>
      match skipWs s with
      | String c r =>
          if Ascii.eqb c Js.quote then
            match lexString r with
            | Some (key, r1) =>
                match skipWs r1 with
                | String ":" r2 =>
                    match parseValue fuel' r2 with
                    | Some (v, r3) =>
                        match skipWs r3 with
                        | String "," r4 => parseMembers fuel' r4 (Js.set key v acc)
                        | String "}" r4 => Some (JObject (Js.set key v acc), r4)
                        | _ => None
                        end
                    | None => None
                    end
                | _ => None
                end
            | None => None
            end
          else None
      | EmptyString => None
      end
  end.

(** The message of the [SyntaxError] is the engine's own; a fixed text
    stands for it. *)
Definition syntaxError : JsThrown := ThrownError "SyntaxError" "Unexpected token in JSON".

(** [JSON.parse(text)].  The fuel is more than a descent can use: of two
    nested calls at least one has read a character. *)
Definition parse (text : string) : Completion JsValue :=
  match parseValue (2 * String.length text + 2) text with
  | Some (v, rest) =>
      match skipWs rest with
      | EmptyString => Normal v
      | String _ _ => Throw syntaxError
      end
  | None => Throw syntaxError
  end.

End JSON.

(** ** Number printing *)

Module JsNumber.

Definition digitChar (d : Z) : ascii :=
  if d <? 10 then ascii_of_nat (Z.to_nat (48 + d)) else ascii_of_nat (Z.to_nat (87 + d)).

Fixpoint digits (fuel : nat) (radix n : Z) (acc : string) : string :=
  match fuel with
  | O => acc
  | S fuel' =>
      let acc' := String (digitChar (n mod radix)) acc in
      if n / radix =? 0 then acc' else digits fuel' radix (n / radix) acc'
  end.

(** [n.toString(radix)] for an integer [n]. *)
Definition toStringRadix (radix n : Z) : string :=
  let body := digits (S (Z.to_nat (Z.log2 (Z.abs n)))) radix (Z.abs n) EmptyString in
  if n <? 0 then String "-" body else body.

(** [String(n)] for an integer [n]. *)
Definition toString (n : Z) : string := toStringRadix 10 n.

End JsNumber.

(** ** The extraction client ([GeminiClient]) *)

Inductive VariableType : Type := TString | TArray | TNumber.

Record ExtractableVariable : Type := {
  name : string;
  type : VariableType;
  description : string
}.

Record StructuredResponse : Type := {
  content : JsValue;
  extractedVariables : list (string * JsValue)
}.

(** What [generateContent] is called with: the model, the prompt, and the
    media part (the source wraps the bytes in base64). *)
Record GenerateRequest : Type := {
  reqModel : string;
  reqPrompt : string;
  reqMimeType : string;
  reqData : list ascii
}.

Module GeminiClient.

Definition typeName (t : VariableType) : string :=
  match t with TString => "string" | TArray => "array" | TNumber => "number" end.

Definition example (t : VariableType) : string :=
  match t with
  | TArray => "[]"
  | TNumber => "0"
  | TString => String Js.quote (String Js.quote EmptyString)
  end.

Definition quoted (s : string) : string :=
  String Js.quote s +:+ String Js.quote EmptyString.

Fixpoint variableLines (vars : list ExtractableVariable) : string :=
  match vars with
  | [] => EmptyString
  | v :: rest =>
      "- " +:+ name v +:+ " (" +:+ typeName (type v) +:+ "): " +:+ description v
      +:+ Js.newline +:+ variableLines rest
  end.

Fixpoint exampleLines (vars : list ExtractableVariable) : string :=
  match vars with
  | [] => EmptyString
  | v :: rest =>
      "  " +:+ quoted (name v) +:+ ": " +:+ example (type v)
      +:+ match rest with
          | [] => EmptyString
          | _ => "," +:+ Js.newline
          end
      +:+ exampleLines rest
  end.

Definition buildPrompt (basePrompt : string) (extractableVars : list ExtractableVariable)
  : string :=
  let prompt := basePrompt in
  let prompt :=
    match extractableVars with
    | [] => prompt
    | _ => prompt +:+ Js.newline +:+ Js.newline
           +:+ "Additionally, extract the following variables:" +:+ Js.newline
           +:+ variableLines extractableVars
    end in
  let prompt :=
    prompt +:+ Js.newline +:+ Js.newline
    +:+ "Return the response in valid JSON format with the following structure:"
    +:+ Js.newline in
  let prompt := prompt +:+ "{" +:+ Js.newline in
  let prompt := prompt +:+ "  " +:+ quoted "content" +:+ ": " +:+ quoted "the transcribed text" in
  let prompt :=
    match extractableVars with
    | [] => prompt
    | _ => prompt +:+ "," +:+ Js.newline +:+ exampleLines extractableVars
    end in
  prompt +:+ Js.newline +:+ "}".

Definition fence : string := "```".
Definition jsonFence : string := "```json".

(** The text the decoder is applied to before the brace search: the body
    of a fenced block, or the reply itself. *)
Definition fencedBody (text : string) : string :=
  if JsString.includes jsonFence text then
    let start := JsString.indexOf jsonFence text + 7 in
    let end_ := JsString.indexOfFrom fence text start in
    if end_ >? 0 then JsString.trim (JsString.substring text start end_) else text
  else if JsString.includes fence text then
    let start := JsString.indexOf fence text + 3 in
    let end_ := JsString.indexOfFrom fence text start in
    if end_ >? 0 then JsString.trim (JsString.substring text start end_) else text
  else text.

(** From the first opening brace to the last closing one, when both are
    there in this order. *)
Definition braceSpan (jsonStr : string) : string :=
  let jsonStart := JsString.indexOf "{" jsonStr in
  let jsonEnd := JsString.lastIndexOf "}" jsonStr in
  if (jsonStart >=? 0) && (jsonEnd >? jsonStart)
  then JsString.substring jsonStr jsonStart (jsonEnd + 1)
  else jsonStr.

(** [parseJSONResponse(text)]; [None] is [undefined]. *)
Definition parseJSONResponse (text : option string) : Completion JsValue :=
  match text with
  | None => Throw (Js.newError "No response text received")
  | Some EmptyString => Throw (Js.newError "No response text received")
  | Some text => JSON.parse (braceSpan (fencedBody text))
  end.

Definition typeError (message : string) : JsThrown := ThrownError "TypeError" message.

(** [parsed.content || ''] *)
Definition contentOf (parsed : JsValue) : Completion JsValue :=
  match parsed with
  | JNull => Throw (typeError "Cannot read properties of null (reading 'content')")
  | JObject fields =>
      match Js.get "content" fields with
      | Some v => Normal (if Js.truthy v then v else JString EmptyString)
      | None => Normal (JString EmptyString)
      end
  | _ => Normal (JString EmptyString)
  end.

(** [key in parsed] together with [parsed[key]], on own properties:
    [None] when the key is absent.  The test of the source also finds
    the members a value inherits ([constructor], [toString], the methods
    of an array); this is the lookup for every other key. *)
Definition lookupIn (key : string) (parsed : JsValue) : Completion (option JsValue) :=
  match parsed with
  | JObject fields => Normal (Js.get key fields)
  | JArray items =>
      if String.eqb key "length"
      then Normal (Some (JNumber (JsNumber.toString (Z.of_nat (length items)))))
      else Normal (snd <$> List.find (fun iv => String.eqb key (JsNumber.toString (Z.of_nat (fst iv))))
                               (combine (seq 0 (length items)) items))
  | _ => Throw (typeError "Cannot use 'in' operator to search for a key in a primitive")
  end.

(** The loop [for (const variable of extractableVars)]. *)
Fixpoint project (extractableVars : list ExtractableVariable) (parsed : JsValue)
    (acc : list (string * JsValue)) : Completion (list (string * JsValue)) :=
  match extractableVars with
  | [] => Normal acc
  | variable :: rest =>
      found <-! lookupIn (name variable) parsed ;;
      project rest parsed
        (match found with
         | Some v => Js.set (name variable) v acc
         | None => acc
         end)
  end.

Section Backend.

(** [this.ai.models.generateContent(...)], answering with [result.text]. *)
Variable generateContent : GenerateRequest -> Completion (option string).
Variable modelName : string.

Definition extractStructured (label mimeType : string) (data : list ascii)
    (prompt : string) (extractableVars : list ExtractableVariable)
  : Completion StructuredResponse :=
  let finalPrompt := buildPrompt prompt extractableVars in
  tryCatch
    (text <-! generateContent {| reqModel := modelName; reqPrompt := finalPrompt;
                                 reqMimeType := mimeType; reqData := data |} ;;
     parsed <-! parseJSONResponse text ;;
     content <-! contentOf parsed ;;
     vars <-! project extractableVars parsed [] ;;
     Normal {| content := content; extractedVariables := vars |})
    (fun error => Throw (Js.newError (label +:+ Js.throwToString error))).

Definition extractStructuredTextFromImage (imageData : list ascii) (mimeType prompt : string)
    (extractableVars : list ExtractableVariable) : Completion StructuredResponse :=
  extractStructured "Failed to process image: " mimeType imageData prompt extractableVars.

Definition extractStructuredTextFromPDF (pdfData : list ascii) (prompt : string)
    (extractableVars : list ExtractableVariable) : Completion StructuredResponse :=
  extractStructured "Failed to process PDF: " "application/pdf" pdfData prompt extractableVars.

End Backend.

End GeminiClient.

(** ** Regular-expression replacement

    The patterns of the renderer are built by splicing a key into
    [\{\{\s*\.?KEY\s*\}\}].  For a key made of word characters the pattern
    reads the key literally and matches without backtracking; the matchers
    below are these patterns. *)

Module Regex.

(** A matcher, tried at a position, answers with the length of the match
    and its capture groups. *)
Definition Matcher : Type := string -> option (nat * list string).

Fixpoint spaces (s : string) : nat :=
  match s with
  | EmptyString => O
  | String c s' => if JsString.isSpace c then S (spaces s') else O
  end.

Fixpoint wordRun (s : string) : nat :=
  match s with
  | EmptyString => O
  | String c s' => if JsString.isWord c then S (wordRun s') else O
  end.

(** [\{\{\s*\.?KEY\s*\}\}] *)
Definition tokenLength (key s : string) : option nat :=
  if JsString.startsWith "{{" s then
    let s1 := JsString.drop 2 s in
    let a := spaces s1 in
    let s2 := JsString.drop a s1 in
    let '(dot, s3) :=
      match s2 with
      | String "." r => (1%nat, r)
      | _ => (O, s2)
      end in
    if JsString.startsWith key s3 then
      let s4 := JsString.drop (String.length key) s3 in
      let b := spaces s4 in
      if JsString.startsWith "}}" (JsString.drop b s4)
      then Some (2 + a + dot + String.length key + b + 2)%nat
      else None
    else None
  else None.

Definition token (key : string) : Matcher :=
  fun s => match tokenLength key s with
           | Some n => Some (n, [])
           | None => None
           end.

(** [PREFIX\s*\{\{\s*\.?KEY\s*\}\}] for a literal prefix. *)
Definition prefixedToken (prefix key : string) : Matcher :=
  fun s =>
    if JsString.startsWith prefix s then
      let s1 := JsString.drop (String.length prefix) s in
      let a := spaces s1 in
      match tokenLength key (JsString.drop a s1) with
      | Some n => Some (String.length prefix + a + n, [])%nat
      | None => None
      end
    else None.

(** [(\w+):\s*\{\{\s*\.?KEY\s*\}\}] *)
Definition fieldToken (key : string) : Matcher :=
  fun s =>
    let w := wordRun s in
    match w with
    | O => None
    | S _ =>
        match JsString.drop w s with
        | String ":" s1 =>
            let a := spaces s1 in
            match tokenLength key (JsString.drop a s1) with
            | Some n => Some (w + 1 + a + n, [JsString.take w s])%nat
            | None => None
            end
        | _ => None
        end
    end.

Definition digitValue (c : ascii) : nat := (JsString.code c - 48)%nat.

(** The replacement text of [String.prototype.replace] with its dollar
    patterns expanded ([GetSubstitution]); the patterns here have no
    named groups. *)
Fixpoint expand (repl matched before after : string) (groups : list string) : string :=
  match repl with
  | EmptyString => EmptyString
  | String c r =>
      if Ascii.eqb c "$" then
        match r with
        | EmptyString => String c EmptyString
        | String d r' =>
            if Ascii.eqb d "$" then String "$" (expand r' matched before after groups)
            else if Ascii.eqb d "&" then matched +:+ expand r' matched before after groups
            else if Ascii.eqb d "`" then before +:+ expand r' matched before after groups
            else if Ascii.eqb d "'" then after +:+ expand r' matched before after groups
            else if JsString.isDigit d then
              let one := digitValue d in
              let single :=
                if ((1 <=? one) && (one <=? length groups))%nat
                then nth (one - 1) groups EmptyString +:+ expand r' matched before after groups
                else String c (String d (expand r' matched before after groups)) in
              match r' with
              | String d2 r'' =>
                  if JsString.isDigit d2 then
                    let two := (10 * one + digitValue d2)%nat in
                    if ((1 <=? two) && (two <=? length groups))%nat
                    then nth (two - 1) groups EmptyString
                         +:+ expand r'' matched before after groups
                    else single
                  else single
              | EmptyString => single
              end
            else String c (expand r matched before after groups)
        end
      else String c (expand r matched before after groups)
  end.

(** The scan of a global replace: [skip] counts the characters of the
    current match still to pass over, [before] is the input already
    passed. *)
Fixpoint scan (m : Matcher) (repl : string) (skip : nat) (before s : string) : string :=
  match s with
  | EmptyString => EmptyString
  | String c s' =>
      match skip with
      | S k => scan m repl k (before +:+ String c EmptyString) s'
      | O =>
          match m s with
          | Some (S n, groups) =>
              expand repl (JsString.take (S n) s) before (JsString.drop (S n) s) groups
              +:+ scan m repl n (before +:+ String c EmptyString) s'
          | _ => String c (scan m repl O (before +:+ String c EmptyString) s')
          end
      end
  end.

(** [s.replace(/pattern/g, repl)] *)
Definition replaceAll (m : Matcher) (repl s : string) : string :=
  scan m repl O EmptyString s.

(** [s.replace(/literal/g, repl)] for a pattern that is one literal text. *)
Definition literal (lit : string) : Matcher :=
  fun s => if JsString.startsWith lit s then Some (String.length lit, []) else None.

End Regex.

(** ** The template renderer ([TemplateRenderer]) *)

(** What one [new Date()] shows to the code: [toISOString()] and the whole
    seconds since local midnight. *)
Record DateReading : Type := {
  toISOString : string;
  secondsSinceMidnight : Z
}.

(** [tags] is [None] when the field is [undefined]. *)
Record TemplateData : Type := {
  tdContent : string;
  tdTags : option (list string);
  tdFilename : string;
  absoluteFilePath : string;
  relativeFilePath : string;
  markdownLink : string;
  dateProcessed : string;
  pageCount : Z;
  modelUsed : string;
  customVariables : list (string * JsValue)
}.

Module TemplateRenderer.

Definition escapeContent (content : string) : string :=
  Regex.replaceAll (Regex.literal "}}") "\}\}"
    (Regex.replaceAll (Regex.literal "{{") "\{\{" content).

(** The string and number entries of [escapedData], in the order of
    [Object.entries]. *)
Definition scalarEntries (data : TemplateData) : list (string * string) :=
  [ ("content", escapeContent (tdContent data));
    ("filename", tdFilename data);
    ("absoluteFilePath", absoluteFilePath data);
    ("relativeFilePath", relativeFilePath data);
    ("markdownLink", markdownLink data);
    ("dateProcessed", dateProcessed data);
    ("pageCount", JsNumber.toString (pageCount data));
    ("modelUsed", modelUsed data) ].

Definition replaceScalar (result : string) (entry : string * string) : string :=
  Regex.replaceAll (Regex.token (fst entry)) (snd entry) result.

Definition replaceCustom (result : string) (entry : string * JsValue) : string :=
  let value := Js.toString (snd entry) in
  let result := Regex.replaceAll (Regex.token ("customVariables." +:+ fst entry)) value result in
  Regex.replaceAll (Regex.token (fst entry)) value result.

(** [items.map(item => `  - ${item}`).join('\n')] *)
Definition yamlLines (items : list JsValue) : string :=
  JsString.join Js.newline (List.map (fun item => "  - " +:+ Js.toString item) items).

(** [data.tags || data.customVariables.tags] *)
Definition effectiveTags (data : TemplateData) : option JsValue :=
  match tdTags data with
  | Some tags => Some (JArray (List.map JString tags))
  | None =>
      match Js.get "tags" (customVariables data) with
      | Some v => if Js.truthy v then Some v else None
      | None => None
      end
  end.

Definition replaceTags (data : TemplateData) (result : string) : string :=
  match effectiveTags data with
  | Some (JArray (tag :: rest)) =>
      Regex.replaceAll (Regex.token "tags") (Js.newline +:+ yamlLines (tag :: rest)) result
  | _ => Regex.replaceAll (Regex.prefixedToken "tags:" "tags") "tags: []" result
  end.

Definition replaceArray (result : string) (entry : string * JsValue) : string :=
  match snd entry with
  | JArray items =>
      if String.eqb (fst entry) "tags" then result
      else match items with
           | _ :: _ =>
               Regex.replaceAll (Regex.fieldToken (fst entry))
                 ("$1:" +:+ Js.newline +:+ yamlLines items) result
           | [] => Regex.replaceAll (Regex.fieldToken (fst entry)) "$1: []" result
           end
  | _ => result
  end.

Definition renderTemplate (template : string) (data : TemplateData) : string :=
  let result := template in
  let result := fold_left replaceScalar (scalarEntries data) result in
  let result := fold_left replaceCustom (customVariables data) result in
  let result := replaceTags data result in
  fold_left replaceArray (customVariables data) result.

(** Where [/\.[^.]+$/] matches: at the last dot, when something follows it. *)
Definition extensionStart (s : string) : option nat :=
  match JsString.findLast "." s with
  | Some i =>
      match JsString.drop (S i) s with
      | EmptyString => None
      | String _ _ => Some i
      end
  | None => None
  end.

Definition filenameEntries (originalFilename : string) (now : DateReading)
    (customVars : list (string * JsValue)) : list (string * JsValue) :=
  let baseName :=
    match extensionStart originalFilename with
    | Some i => JsString.take i originalFilename
    | None => originalFilename
    end in
  let extension :=
    match extensionStart originalFilename with
    | Some i => JsString.drop i originalFilename
    | None => EmptyString
    end in
  let secondsBase36 := JsNumber.toStringRadix 36 (secondsSinceMidnight now) in
  Js.spread
    [ ("baseName", JString baseName);
      ("extension", JString extension);
      ("originalFilename", JString originalFilename);
      ("dateProcessed", JString (toISOString now));
      ("secondsBase36", JString secondsBase36) ]
    customVars.

Definition replaceVariable (result : string) (entry : string * JsValue) : string :=
  Regex.replaceAll (Regex.token (fst entry)) (Js.toString (snd entry)) result.

(** [now] is the [new Date()] the function takes. *)
Definition generateFilename (now : DateReading) (template originalFilename : string)
    (customVars : list (string * JsValue)) : string :=
  fold_left replaceVariable (filenameEntries originalFilename now customVars) template.

(** [now] is the [new Date()] the function takes. *)
Definition createTemplateData (now : DateReading) (content : string) (tags : list string)
    (filename filePath markdownLink : string) (pageCount : Z) (modelUsed : string)
    (customVars extractedVars : list (string * JsValue)) : TemplateData :=
  let mergedVars := Js.spread customVars extractedVars in
  {| tdContent := content;
     tdTags := Some tags;
     tdFilename := filename;
     absoluteFilePath := filePath;
     relativeFilePath := filePath;
     markdownLink := markdownLink;
     dateProcessed := toISOString now;
     pageCount := pageCount;
     modelUsed := modelUsed;
     customVariables := mergedVars |}.

Definition DEFAULT_TEMPLATE : string :=
  JsString.join Js.newline
    [ "---"; "attachments: "; "  - {{markdownLink}}"; "dateCreated: {{dateProcessed}}";
      "tags: {{tags}}"; "dateModified: {{dateProcessed}}"; "---"; "";
      "# Handwritten Note"; ""; "{{content}}" ].

End TemplateRenderer.

(** ** The file processor ([FileProcessor]) *)

Record TFile : Type := {
  path : string;
  fileName : string;
  basename : string;
  extension : string
}.

Record HandwriteSettings : Type := {
  geminiApiKey : string;
  geminiModel : string;
  prompt : string;
  extractableVariables : list ExtractableVariable;
  templateContent : string;
  filenameTemplate : string;
  outputFolder : string;
  concurrentWorkers : Z;
  showProgressBar : bool;
  debugMode : bool;
  moveFilesAfterProcessing : bool;
  processedFilesFolder : string;
  defaultTags : list string;
  autoOpenCreatedNotes : bool
}.

Record ProcessingResult : Type := {
  success : bool;
  filePath : option string;
  error : option string
}.

Record BatchProcessingProgress : Type := {
  current : Z;
  total : Z;
  currentFile : string
}.

Definition DEFAULT_SETTINGS : HandwriteSettings :=
  {| geminiApiKey := EmptyString;
     geminiModel := "gemini-2.5-flash-preview-05-20";
     prompt :=
       JsString.join Js.newline
         [ "Extract the handwritten text from this image.";
           "- Put the main text content in the " +:+ GeminiClient.quoted "content"
             +:+ " field, preserving ALL line breaks and formatting";
           "- Use $ for LaTeX, not ```latex.";
           "- Transcribe the text exactly as it appears, including newlines, spacing, and paragraph breaks.";
           "- IMPORTANT: Preserve all line breaks and whitespace in the content field." ];
     extractableVariables :=
       [ {| name := "tags"; type := TArray;
            description := "Find any hashtags (words starting with #) and list them. If no hashtags are found, return an empty array." |} ];
     templateContent := TemplateRenderer.DEFAULT_TEMPLATE;
     filenameTemplate := "{{baseName}}.md";
     outputFolder := "Handwritten Notes";
     concurrentWorkers := 4;
     showProgressBar := true;
     debugMode := false;
     moveFilesAfterProcessing := false;
     processedFilesFolder := "Processed Handwritten Files";
     defaultTags := [];
     autoOpenCreatedNotes := false |}.

(** The answers of the host application while one file is processed, one
    field per call site of [processFile], [createNote] and
    [moveSourceFile]. *)
Record Collaborators : Type := {
  readBinary : TFile -> Completion (list ascii);
  generateContent : GenerateRequest -> Completion (option string);
  normalizePath : string -> string;
  (** [getAbstractFileByPath(folder)] is not null *)
  folderExists : string -> bool;
  createFolder : string -> Completion unit;
  generateMarkdownLink : TFile -> string -> Completion string;
  (** [getAbstractFileByPath(outputPath) instanceof TFile], before the write *)
  noteExists : string -> bool;
  vaultProcess : string -> string -> Completion unit;
  vaultCreate : string -> string -> Completion unit;
  (** the same test after the write *)
  createdNoteIsFile : string -> bool;
  (** the synchronous part of [getLeaf(true).openFile(createdFile)] *)
  openFile : string -> Completion unit;
  (** [getAbstractFileByPath(newPath)] is not null *)
  destinationExists : string -> bool;
  renameFile : TFile -> string -> Completion unit;
  (** the three [new Date()] of the flow *)
  filenameClock : DateReading;
  templateClock : DateReading;
  moveClock : DateReading
}.

Module FileProcessor.

Definition failure (message : string) : ProcessingResult :=
  {| success := false; filePath := None; error := Some message |}.

Definition supported : list string := ["pdf"; "png"; "jpg"; "jpeg"; "webp"; "gif"].

Definition includes (x : string) (l : list string) : bool := existsb (String.eqb x) l.

Definition isSupportedFile (extension : string) : bool :=
  includes (JsString.toLowerCase extension) supported.

Definition getMimeType (extension : string) : string :=
  let e := JsString.toLowerCase extension in
  if String.eqb e "png" then "image/png"
  else if String.eqb e "jpg" then "image/jpeg"
  else if String.eqb e "jpeg" then "image/jpeg"
  else if String.eqb e "webp" then "image/webp"
  else if String.eqb e "gif" then "image/gif"
  else "image/jpeg".

(** [FileProcessor.getSupportedFiles(folder, vault)]: [folderPath] is
    [folder.path] and [vaultFiles] is [vault.getFiles()].  The literal
    list of extensions is the one of [isSupportedFile]. *)
Definition getSupportedFiles (folderPath : string) (vaultFiles : list TFile) : list TFile :=
  List.filter
    (fun file =>
       JsString.startsWith (folderPath +:+ "/") (path file)
       && includes (JsString.toLowerCase (extension file)) supported)
    vaultFiles.

(** [s.split('/')] *)
Fixpoint split (sep : ascii) (s : string) : list string :=
  match s with
  | EmptyString => [EmptyString]
  | String c s' =>
      if Ascii.eqb c sep then EmptyString :: split sep s'
      else match split sep s' with
           | [] => [String c EmptyString]
           | p :: rest => String c p :: rest
           end
  end.

Fixpoint commonPrefixLength (a b : list string) : nat :=
  match a, b with
  | x :: a', y :: b' => if String.eqb x y then S (commonPrefixLength a' b') else O
  | _, _ => O
  end.

Definition getRelativePath (from to : string) : string :=
  let fromParts := removelast (split "/" from) in
  let toParts := split "/" to in
  let commonLength := commonPrefixLength fromParts toParts in
  let upCount := (length fromParts - commonLength)%nat in
  let downPath := skipn commonLength toParts in
  let relativeParts := (repeat ".." upCount ++ downPath)%list in
  match JsString.join "/" relativeParts with
  | EmptyString => "."
  | joined => joined
  end.

Section WithSettings.

Variable settings : HandwriteSettings.

(** The array the loop runs over. *)
Definition normalizeTags (extractedTags : JsValue) : list JsValue :=
  match extractedTags with
  | JArray items => items
  | JString s => [JString s]
  | _ => []
  end.

(** The body of [for (const tag of tags)]. *)
Definition pushTag (allTags : list string) (tag : JsValue) : list string :=
  match tag with
  | JString s =>
      if JsString.truthy (JsString.trim s) && negb (includes s allTags)
      then (allTags ++ [s])%list
      else allTags
  | _ => allTags
  end.

Definition mergeTagsWithDefaults (extractedTags : JsValue) : list string :=
  fold_left pushTag (normalizeTags extractedTags) (defaultTags settings).

Section WithCollaborators.

Variable host : Collaborators.

Definition ensureFolder (folder : string) : Completion unit :=
  if folderExists host folder then Normal tt else createFolder host folder.

(** What [createNote] renders, before it touches the vault: the file
    name of the note and, given the link, its content. *)
Definition noteFilename (sourceFile : TFile) (result : StructuredResponse) : string :=
  TemplateRenderer.generateFilename (filenameClock host)
    (filenameTemplate settings) (basename sourceFile) (extractedVariables result).

Definition noteContent (content futureSourcePath markdownLink : string)
    (sourceFile : TFile) (result : StructuredResponse) : string :=
  let extractedTags :=
    match Js.get "tags" (extractedVariables result) with
    | Some v => if Js.truthy v then v else JArray []
    | None => JArray []
    end in
  let allTags := mergeTagsWithDefaults extractedTags in
  let mergedExtractedVariables :=
    Js.set "tags" (JArray (List.map JString allTags)) (extractedVariables result) in
  let templateData :=
    TemplateRenderer.createTemplateData (templateClock host)
      content allTags (basename sourceFile) futureSourcePath markdownLink
      1 (geminiModel settings) [] mergedExtractedVariables in
  TemplateRenderer.renderTemplate (templateContent settings) templateData.

Definition createNote (sourceFile : TFile) (content : string) (result : StructuredResponse)
  : Completion string :=
  let outputFilename := noteFilename sourceFile result in
  let outputFolder := normalizePath host (outputFolder settings) in
  _ <-! ensureFolder outputFolder ;;
  let outputPath := normalizePath host (outputFolder +:+ "/" +:+ outputFilename) in
  link <-!
    (if moveFilesAfterProcessing settings then
       let processedFolder := normalizePath host (processedFilesFolder settings) in
       let futureSourcePath :=
         normalizePath host (processedFolder +:+ "/" +:+ fileName sourceFile) in
       let relativePath := getRelativePath outputPath futureSourcePath in
       Normal (futureSourcePath,
               "[[" +:+ relativePath +:+ "|" +:+ basename sourceFile +:+ "]]")
     else
       markdownLink <-! generateMarkdownLink host sourceFile outputPath ;;
       Normal (path sourceFile, markdownLink)) ;;
  let noteText := noteContent content (fst link) (snd link) sourceFile result in
  _ <-! (if noteExists host outputPath
         then vaultProcess host outputPath noteText
         else vaultCreate host outputPath noteText) ;;
  _ <-! (if autoOpenCreatedNotes settings && createdNoteIsFile host outputPath
         then openFile host outputPath
         else Normal tt) ;;
  Normal outputPath.

Definition dashChar (c : ascii) : ascii :=
  if Ascii.eqb c ":" || Ascii.eqb c "." then "-"%char else c.

(** [s.replace(/[:.]/g, '-')] *)
Fixpoint dashed (s : string) : string :=
  match s with
  | EmptyString => EmptyString
  | String c s' => String (dashChar c) (dashed s')
  end.

(** [`${error.message}`] for a caught value.  On [null] and [undefined]
    the read of the property throws a [TypeError], whose message is the
    engine's. *)
Definition messageOf (e : JsThrown) : Completion string :=
  match e with
  | ThrownError _ message => Normal message
  | ThrownOther _ (Some message) => Normal message
  | ThrownOther rendering None =>
      Throw (GeminiClient.typeError
               ("Cannot read properties of " +:+ rendering +:+ " (reading 'message')"))
  end.

Definition moveSourceFile (file : TFile) : Completion unit :=
  tryCatch
    (let processedFolder := normalizePath host (processedFilesFolder settings) in
     _ <-! ensureFolder processedFolder ;;
     let newPath := normalizePath host (processedFolder +:+ "/" +:+ fileName file) in
     if destinationExists host newPath then
       let timestamp := dashed (toISOString (moveClock host)) in
       let uniquePath :=
         normalizePath host
           (processedFolder +:+ "/" +:+ basename file +:+ "_" +:+ timestamp
            +:+ "." +:+ extension file) in
       renameFile host file uniquePath
     else renameFile host file newPath)
    (fun error =>
       message <-! messageOf error ;;
       Throw (Js.newError ("Failed to move file: " +:+ message))).

(** [progressCallback?.(text)] *)
Definition notify (progressCallback : option (string -> Completion unit)) (text : string)
  : Completion unit :=
  match progressCallback with
  | Some callback => callback text
  | None => Normal tt
  end.

(** The [try] block of [processFile]. *)
Definition processFileBody (file : TFile)
    (progressCallback : option (string -> Completion unit)) : Completion ProcessingResult :=
  let fileExt := JsString.toLowerCase (extension file) in
  if negb (isSupportedFile fileExt) then
    Normal (failure ("Unsupported file type: " +:+ fileExt))
  else
    _ <-! notify progressCallback ("Reading " +:+ fileName file +:+ "...") ;;
    fileData <-! readBinary host file ;;
    _ <-! notify progressCallback "Processing with Gemini..." ;;
    result <-!
      (if String.eqb fileExt "pdf" then
         GeminiClient.extractStructuredTextFromPDF (generateContent host)
           (geminiModel settings) fileData (prompt settings)
           (extractableVariables settings)
       else
         GeminiClient.extractStructuredTextFromImage (generateContent host)
           (geminiModel settings) fileData (getMimeType fileExt) (prompt settings)
           (extractableVariables settings)) ;;
    if negb (Js.truthy (content result)) then
      Normal (failure "No text extracted from file")
    else
      match content result with
      | JString text =>
          if String.eqb (JsString.trim text) EmptyString then
            Normal (failure "No text extracted from file")
          else
            _ <-! notify progressCallback "Creating note..." ;;
            outputPath <-! createNote file text result ;;
            _ <-! (if moveFilesAfterProcessing settings then
                     _ <-! notify progressCallback "Moving source file..." ;;
                     moveSourceFile file
                   else Normal tt) ;;
            Normal {| success := true; filePath := Some outputPath; error := None |}
      | _ => Throw (GeminiClient.typeError "result.content.trim is not a function")
      end.

Definition processFile (file : TFile)
    (progressCallback : option (string -> Completion unit)) : ProcessingResult :=
  match processFileBody file progressCallback with
  | Normal result => result
  | Throw error =>
      failure (match error with
               | ThrownError _ message => message
               | ThrownOther _ _ => "Unknown error"
               end)
  end.

End WithCollaborators.

End WithSettings.

End FileProcessor.

(** ** [processBatch]

    The batch runs on one thread.  A worker is an [async] function: it runs
    until its next [await], and which suspended worker resumes next is the
    choice of the environment (the order in which the backend calls
    settle).  The state below is the closure of [processBatch]; a step
    resumes one worker and runs it to its next [await]. *)

(** Where a worker is suspended: before the test of its [while] loop (on
    [await processNext()], whose promise has settled), inside [processNext]
    on [await this.processFile(file)], or not at all, its loop being over. *)
Inductive Worker : Type :=
| AtLoopTest
| Awaiting (file : TFile)
| Returned.

Record BatchState : Type := {
  queue : list TFile;
  results : gmap string ProcessingResult;
  completed : Z;
  (** [processing.size] *)
  processing : nat;
  workers : list Worker;
  (** the calls of [progressCallback], oldest first *)
  progressLog : list BatchProcessingProgress;
  (** the calls of [resultCallback], oldest first *)
  resultLog : list (TFile * ProcessingResult)
}.

Module Batch.

Section WithProcessFile.

(** [this.processFile(file)], as the file's outcome. *)
Variable processFile : TFile -> ProcessingResult.
Variable files : list TFile.

Definition totalFiles : Z := Z.of_nat (length files).

Definition initial : BatchState :=
  {| queue := files; results := ∅; completed := 0; processing := O;
     workers := []; progressLog := []; resultLog := [] |}.

(** [processNext] up to its [await]: it shifts the queue, returns at once
    when that gave nothing, and else reports the file it starts. *)
Definition processNextBegin (st : BatchState) : option TFile * BatchState :=
  match queue st with
  | [] => (None, st)
  | file :: rest =>
      (Some file,
       {| queue := rest;
          results := results st;
          completed := completed st;
          processing := processing st;
          workers := workers st;
          progressLog :=
            progressLog st ++
            [ {| current := completed st + Z.of_nat (processing st);
                 total := totalFiles;
                 currentFile := fileName file |} ];
          resultLog := resultLog st |})
  end.

(** A worker from the test of its loop, [while (queue.length > 0)], to its
    next [await]. *)
Definition enterLoop (st : BatchState) : Worker * BatchState :=
  match queue st with
  | [] => (Returned, st)
  | _ :: _ =>
      match processNextBegin st with
      | (Some file, st') => (Awaiting file, st')
      | (None, st') => (AtLoopTest, st')
      end
  end.

(** [processNext] after [await this.processFile(file)]. *)
Definition processNextEnd (file : TFile) (st : BatchState) : BatchState :=
  let result := processFile file in
  {| queue := queue st;
     results := <[path file := result]> (results st);
     completed := completed st + 1;
     processing := processing st;
     workers := workers st;
     progressLog :=
       progressLog st ++
       [ {| current := completed st + 1; total := totalFiles; currentFile := EmptyString |} ];
     resultLog := resultLog st ++ [(file, result)] |}.

Definition setWorkers (ws : list Worker) (st : BatchState) : BatchState :=
  {| queue := queue st; results := results st; completed := completed st;
     processing := processing st; workers := ws;
     progressLog := progressLog st; resultLog := resultLog st |}.

(** One turn of the [for] loop: the new worker runs to its first
    [await], then [processing.add(workerPromise)]. *)
Definition spawnWorker (st : BatchState) : BatchState :=
  let '(w, st') := enterLoop st in
  {| queue := queue st'; results := results st'; completed := completed st';
     processing := S (processing st');
     workers := workers st' ++ [w];
     progressLog := progressLog st'; resultLog := resultLog st' |}.

(** [for (let i = ...; i < bound; i++)]; the fuel bounds the turns. *)
Fixpoint spawnLoop (fuel : nat) (i bound : Z) (st : BatchState) : BatchState :=
  match fuel with
  | O => st
  | S fuel' =>
      if i <? bound then spawnLoop fuel' (i + 1) bound (spawnWorker st) else st
  end.

(** The state when [processBatch] reaches [await Promise.all(processing)]. *)
Definition start (concurrentWorkers : Z) : BatchState :=
  spawnLoop (length files) 0 (Z.min concurrentWorkers totalFiles) initial.

(** Worker [w] resumes. *)
Definition step (w : nat) (st : BatchState) : option BatchState :=
  match workers st !! w with
  | Some AtLoopTest =>
      let '(next, st') := enterLoop st in
      Some (setWorkers (<[w := next]> (workers st')) st')
  | Some (Awaiting file) =>
      let st' := processNextEnd file st in
      Some (setWorkers (<[w := AtLoopTest]> (workers st')) st')
  | Some Returned => None
  | None => None
  end.

Definition isReturned (w : Worker) : bool :=
  match w with Returned => true | _ => false end.

(** [Promise.all(processing)] has settled. *)
Definition resolved (st : BatchState) : bool := forallb isReturned (workers st).

(** [k] resumptions lead from one state to another. *)
Inductive Steps : BatchState -> nat -> BatchState -> Prop :=
| Steps_here st : Steps st O st
| Steps_more st w st' k st'' :
    step w st = Some st' -> Steps st' k st'' -> Steps st (S k) st''.

(** The run under a given order of resumptions; a resumption of a
    worker that is not suspended is skipped. *)
Fixpoint run (schedule : list nat) (st : BatchState) : BatchState :=
  match schedule with
  | [] => st
  | w :: rest =>
      match step w st with
      | Some st' => run rest st'
      | None => run rest st
      end
  end.

(** What [processBatch] resolves to under a schedule that lets every
    worker return. *)
Definition processBatch (concurrentWorkers : Z) (schedule : list nat)
  : option (gmap string ProcessingResult) :=
  let st := run schedule (start concurrentWorkers) in
  if resolved st then Some (results st) else None.

(** The files awaited at the moment. *)
Definition inFlight (st : BatchState) : list TFile :=
  omap (fun w => match w with Awaiting file => Some file | _ => None end) (workers st).

End WithProcessFile.

End Batch.

(** ** The folder picker ([FolderSuggestModal]) *)

(** What [vault.getAllLoadedFiles()] holds: files, and folders, of which
    the picker reads the path. *)
Inductive TAbstractFile : Type :=
| LoadedFile (file : TFile)
| LoadedFolder (folderPath : string).

Module FolderSuggestModal.

(** [getAllLoadedFiles().filter(file => file instanceof TFolder)] *)
Definition loadedFolders (loaded : list TAbstractFile) : list string :=
  omap (fun entry => match entry with
                     | LoadedFolder folderPath => Some folderPath
                     | LoadedFile _ => None
                     end) loaded.

Definition matches (query folderPath : string) : bool :=
  JsString.includes (JsString.toLowerCase query) (JsString.toLowerCase folderPath).

Definition getSuggestions (query : string) (loaded : list TAbstractFile) : list string :=
  let folders := loadedFolders loaded in
  if negb (JsString.truthy query) then firstn 20 folders
  else firstn 20 (List.filter (matches query) folders).

(** The number [renderSuggestion] shows beside a folder. *)
Definition supportedCount (folderPath : string) (vaultFiles : list TFile) : nat :=
  length
    (List.filter
       (fun file =>
          JsString.startsWith (folderPath +:+ "/") (path file)
          && FileProcessor.includes (JsString.toLowerCase (extension file))
               ["pdf"; "png"; "jpg"; "jpeg"; "webp"; "gif"])
       vaultFiles).

End FolderSuggestModal.

(** ** The plugin ([HandwritePlugin]) and the processing dialog
    ([ProcessingModal]) *)

Module HandwritePlugin.

(** [isSupportedFile(file)], the test of the file menu and of the
    command for the current file. *)
Definition isSupportedFile (file : TFile) : bool :=
  FileProcessor.includes (JsString.toLowerCase (extension file))
    ["pdf"; "png"; "jpg"; "jpeg"; "webp"; "gif"].

End HandwritePlugin.

Module ProcessingModal.

(** The status line the progress callback sets. *)
Definition statusText (progress : BatchProcessingProgress) : string :=
  if JsString.truthy (currentFile progress)
  then "Processing: " +:+ currentFile progress
  else "Completed: " +:+ JsNumber.toString (current progress)
       +:+ " / " +:+ JsNumber.toString (total progress).

(** [Array.from(results.values()).filter(r => r.success).length] *)
Definition successful (results : gmap string ProcessingResult) : Z :=
  Z.of_nat (length (List.filter success (snd <$> map_to_list results))).

(** [results.size - successful] *)
Definition failed (results : gmap string ProcessingResult) : Z :=
  Z.of_nat (size results) - successful results.

(** The status line once the batch has resolved. *)
Definition summaryText (results : gmap string ProcessingResult) : string :=
  "Processing complete: " +:+ JsNumber.toString (successful results)
  +:+ " successful, " +:+ JsNumber.toString (failed results) +:+ " failed".

End ProcessingModal.

(** ** Vocabulary of the statements *)

(** The string entries of an extracted array, in their order. *)
Definition stringEntries (tags : list JsValue) : list string :=
  omap (fun tag => match tag with JString s => Some s | _ => None end) tags.

(** A tag the merge accepts: not blank once trimmed. *)
Definition notBlank (s : string) : Prop := JsString.trim s <> EmptyString.

(** The default settings with another list of default tags. *)
Definition withDefaultTags (tags : list string) : HandwriteSettings :=
  {| geminiApiKey := geminiApiKey DEFAULT_SETTINGS;
     geminiModel := geminiModel DEFAULT_SETTINGS;
     prompt := prompt DEFAULT_SETTINGS;
     extractableVariables := extractableVariables DEFAULT_SETTINGS;
     templateContent := templateContent DEFAULT_SETTINGS;
     filenameTemplate := filenameTemplate DEFAULT_SETTINGS;
     outputFolder := outputFolder DEFAULT_SETTINGS;
     concurrentWorkers := concurrentWorkers DEFAULT_SETTINGS;
     showProgressBar := showProgressBar DEFAULT_SETTINGS;
     debugMode := debugMode DEFAULT_SETTINGS;
     moveFilesAfterProcessing := moveFilesAfterProcessing DEFAULT_SETTINGS;
     processedFilesFolder := processedFilesFolder DEFAULT_SETTINGS;
     defaultTags := tags;
     autoOpenCreatedNotes := autoOpenCreatedNotes DEFAULT_SETTINGS |}.

(** The text between the first occurrence of [opener] and the next fence
    after it, when both are there. *)
Definition blockAfter (opener text : string) : option string :=
  match JsString.find opener text with
  | Some i =>
      let rest := JsString.drop (i + String.length opener) text in
      match JsString.find GeminiClient.fence rest with
      | Some j => Some (JsString.take j rest)
      | None => None
      end
  | None => None
  end.

(** The selection of the reply as the specification words it: the body of
    a [json] fenced block if there is one, else of any fenced block, else
    the reply. *)
Definition specFencedBody (text : string) : string :=
  match blockAfter GeminiClient.jsonFence text with
  | Some body => JsString.trim body
  | None =>
      match blockAfter GeminiClient.fence text with
      | Some body => JsString.trim body
      | None => text
      end
  end.

Definition dq : string := String Js.quote EmptyString.

(** The reply [Sure! ```json\n{"content":"hi"}\n```]. *)
Definition replyWithJsonFence : string :=
  "Sure! ```json" +:+ Js.newline
  +:+ "{" +:+ dq +:+ "content" +:+ dq +:+ ":" +:+ dq +:+ "hi" +:+ dq +:+ "}"
  +:+ Js.newline +:+ "```".

(** A reply with a complete unlabeled block, then a [json] fence that is
    never closed. *)
Definition replyWithOpenJsonFence : string :=
  "```" +:+ Js.newline
  +:+ "{" +:+ dq +:+ "content" +:+ dq +:+ ":" +:+ dq +:+ "hi" +:+ dq +:+ "}"
  +:+ Js.newline +:+ "```" +:+ Js.newline
  +:+ "```json" +:+ Js.newline
  +:+ "{" +:+ dq +:+ "content" +:+ dq +:+ ":" +:+ dq +:+ "more" +:+ dq +:+ "}".

(** The paths of a list of files, as a set. *)
Definition pathsOf (files : list TFile) : gset string := list_to_set (path <$> files).

(** What is left to do in a batch: two resumptions per queued file, two
    for a worker awaiting a file, one for a worker before its loop test. *)
Definition weight (w : Worker) : nat :=
  match w with
  | AtLoopTest => 1
  | Awaiting _ => 2
  | Returned => 0
  end.

Definition remaining (st : BatchState) : nat :=
  2 * length (queue st) + sum_list_with weight (workers st).

Definition awaited (ws : list Worker) : list TFile :=
  omap (fun w => match w with Awaiting file => Some file | _ => None end) ws.

(** What holds of the closure of [processBatch] at every moment. *)
Record BatchInvariant (processFile : TFile -> ProcessingResult) (files : list TFile)
    (st : BatchState) : Prop := {
  inv_files : files ≡ₚ (fst <$> resultLog st) ++ awaited (workers st) ++ queue st;
  inv_dom : dom (results st) = pathsOf (fst <$> resultLog st);
  inv_values :
    forall p r, results st !! p = Some r ->
                exists g, g ∈ (fst <$> resultLog st) /\ path g = p /\ r = processFile g;
  inv_returned : Returned ∈ workers st -> queue st = [];
  inv_completed : completed st = Z.of_nat (length (resultLog st));
  inv_processing : processing st = length (workers st)
}.

(** A file of the vault, [in/NAME.EXT]. *)
Definition sampleFile (name ext : string) : TFile :=
  {| path := "in/" +:+ name +:+ "." +:+ ext;
     fileName := name +:+ "." +:+ ext;
     basename := name;
     extension := ext |}.

(** A key made of word characters: the patterns built from it read it
    literally. *)
Definition wordKey (key : string) : Prop := JsString.all JsString.isWord key = true.

(** Every closing pair of braces in [s] comes right after a backslash;
    [prev] is the character before [s]. *)
Fixpoint closersEscaped (prev : ascii) (s : string) : bool :=
  match s with
  | EmptyString => true
  | String c r =>
      (if JsString.startsWith "}}" s then Ascii.eqb prev Js.backslash else true)
      && closersEscaped c r
  end.

(** A context with the given content, tags and variables, the other fields
    being those of a note made from [in/scan.png]. *)
Definition sampleData (content : string) (tags : option (list string))
    (variables : list (string * JsValue)) : TemplateData :=
  {| tdContent := content;
     tdTags := tags;
     tdFilename := "scan";
     absoluteFilePath := "in/scan.png";
     relativeFilePath := "in/scan.png";
     markdownLink := "[[in/scan.png]]";
     dateProcessed := "2024-05-01T10:00:00.000Z";
     pageCount := 1;
     modelUsed := "gemini-2.5-flash-preview-05-20";
     customVariables := variables |}.

Definition clockAt (iso : string) (seconds : Z) : DateReading :=
  {| toISOString := iso; secondsSinceMidnight := seconds |}.

(** A host in which every call succeeds: the backend answers [reply], the
    folders exist, no note and no moved file exists yet.  [read] is the
    answer of [readBinary]. *)
Definition hostAnswering (read : Completion (list ascii)) (reply : string) : Collaborators :=
  {| readBinary := fun _ => read;
     generateContent := fun _ => Normal (Some reply);
     normalizePath := fun p => p;
     folderExists := fun _ => true;
     createFolder := fun _ => Normal tt;
     generateMarkdownLink := fun file _ => Normal ("[[" +:+ path file +:+ "]]");
     noteExists := fun _ => false;
     vaultProcess := fun _ _ => Normal tt;
     vaultCreate := fun _ _ => Normal tt;
     createdNoteIsFile := fun _ => true;
     openFile := fun _ => Normal tt;
     destinationExists := fun _ => false;
     renameFile := fun _ _ => Normal tt;
     filenameClock := clockAt "2024-05-01T10:00:00.000Z" 36000;
     templateClock := clockAt "2024-05-01T10:00:00.000Z" 36000;
     moveClock := clockAt "2024-05-01T10:00:01.000Z" 36001 |}.

(** No call of the host that [processFile] lets through as it is, and no
    call of the progress callback, throws an [Error] with an empty
    message. *)
Definition describedFailures (host : Collaborators)
    (progressCallback : option (string -> Completion unit)) : Prop :=
  (forall file n, readBinary host file <> Throw (ThrownError n EmptyString))
  /\ (forall folder n, createFolder host folder <> Throw (ThrownError n EmptyString))
  /\ (forall file target n,
         generateMarkdownLink host file target <> Throw (ThrownError n EmptyString))
  /\ (forall target text n, vaultProcess host target text <> Throw (ThrownError n EmptyString))
  /\ (forall target text n, vaultCreate host target text <> Throw (ThrownError n EmptyString))
  /\ (forall target n, openFile host target <> Throw (ThrownError n EmptyString))
  /\ (forall callback text n,
         progressCallback = Some callback ->
         callback text <> Throw (ThrownError n EmptyString)).

(** The outcome of each file when the host answers every call and the
    backend replies [reply]. *)
Definition outcomeWith (reply : string) : TFile -> ProcessingResult :=
  fun file =>
    FileProcessor.processFile DEFAULT_SETTINGS (hostAnswering (Normal []) reply) file None.

(** The same outcomes, but for the file named [name], whose extraction
    fails. *)
Definition failingOn (name : string) (outcome : TFile -> ProcessingResult)
  : TFile -> ProcessingResult :=
  fun file =>
    if String.eqb (basename file) name
    then FileProcessor.failure "Failed to process image: Error: timeout"
    else outcome file.

(** A text without backslash, as a key made of word characters is. *)
Definition plain (s : string) : Prop := JsString.mem Js.backslash s = false.

(** [s] follows a character that is not a backslash, and its closing
    pairs are escaped. *)
Definition afterPlain (s : string) : Prop :=
  exists prev, prev <> Js.backslash /\ closersEscaped prev s = true.

(** The second replacement of [escapeContent]. *)
Definition closer : string := "}}".

(** An [Error] without message. *)
Definition silent (e : JsThrown) : Prop := exists n, e = ThrownError n EmptyString.

(** What the [catch] of [processFile] reports for a thrown value: the
    message of an [Error], and [Unknown error] for any other value. *)
Definition caught (e : JsThrown) : string :=
  match e with
  | ThrownError _ message => message
  | ThrownOther _ _ => "Unknown error"
  end.

(** The file [FOLDER/NAME.EXT] of the vault. *)
Definition fileIn (folder name ext : string) : TFile :=
  {| path := folder +:+ "/" +:+ name +:+ "." +:+ ext;
     fileName := name +:+ "." +:+ ext;
     basename := name;
     extension := ext |}.

(** Following a relative path from a folder, one segment at a time: [..]
    goes to the parent, [.] stays, any other segment goes down. *)
Fixpoint followPath (dir rel : list string) : list string :=
  match rel with
  | [] => dir
  | seg :: rest =>
      if String.eqb seg ".." then followPath (removelast dir) rest
      else if String.eqb seg "." then followPath dir rest
      else followPath (dir ++ [seg])%list rest
  end.

(** A segment that names a file or folder. *)
Definition properSegment (seg : string) : Prop :=
  seg <> EmptyString /\ seg <> "." /\ seg <> "..".

Definition slashFree (seg : string) : Prop := JsString.mem "/" seg = false.

(** What holds of the two callbacks of [processBatch], and of the order
    in which the queue is emptied, at every moment. *)
Record BatchReports (processFile : TFile -> ProcessingResult) (files : list TFile)
    (st : BatchState) : Prop := {
  rep_outcomes : Forall (fun entry => snd entry = processFile (fst entry)) (resultLog st);
  rep_suffix : exists started, files = (started ++ queue st)%list;
  rep_count :
    length (progressLog st)
    = (2 * length (resultLog st) + length (awaited (workers st)))%nat;
  rep_last :
    awaited (workers st) = [] -> resultLog st <> [] ->
    last (progressLog st)
    = Some {| current := completed st;
              total := Batch.totalFiles files;
              currentFile := EmptyString |};
  rep_single :
    (length (workers st) <= 1)%nat ->
    files = ((fst <$> resultLog st) ++ awaited (workers st) ++ queue st)%list
}.

(** No token of any key starts anywhere in [s]. *)
Definition tokenFree (s : string) : Prop :=
  forall key k, Regex.tokenLength key (JsString.drop k s) = None.

(** A run of white space. *)
Definition blank (s : string) : Prop := JsString.all JsString.isSpace s = true.

(** The characters a name can be made of for its token to be read as
    written: no white space and no brace. *)
Definition solidChar (c : ascii) : bool :=
  negb (JsString.isSpace c) && negb (Ascii.eqb c "{") && negb (Ascii.eqb c "}").

Definition solid (s : string) : Prop := JsString.all solidChar s = true.

(** A name of a variable as it stands in a token. *)
Definition tokenName (name : string) : Prop :=
  name <> EmptyString /\ solid name /\ JsString.startsWith "." name = false.

(** A token as the templates write it: the braces, with optional white
    space inside them and an optional dot before the name. *)
Definition tokenText (sp1 dot name sp2 : string) : string :=
  "{{" +:+ sp1 +:+ dot +:+ name +:+ sp2 +:+ "}}".

(** The optional dot of a token. *)
Definition optionalDot (dot : string) : Prop := dot = EmptyString \/ dot = ".".

(** The built-in names of the note template that hold a string or a number. *)
Definition scalarNames : list string :=
  ["content"; "filename"; "absoluteFilePath"; "relativeFilePath"; "markdownLink";
   "dateProcessed"; "pageCount"; "modelUsed"].

(** The names every object inherits from [Object.prototype]: the
    members of the standard and the accessors of its annex B.  The test
    [name in parsed] finds them in any decoded object, and an assignment
    to [__proto__] sets no property. *)
Definition objectPrototypeMembers : list string :=
  ["constructor"; "hasOwnProperty"; "isPrototypeOf"; "propertyIsEnumerable";
   "toLocaleString"; "toString"; "valueOf"; "__proto__";
   "__defineGetter__"; "__defineSetter__"; "__lookupGetter__"; "__lookupSetter__"].

(** A configured variable whose name no object inherits. *)
Definition ownName (variable : ExtractableVariable) : Prop :=
  name variable ∉ objectPrototypeMembers.

(** A host with another backend, the rest being the same. *)
Definition withBackend (backend : GenerateRequest -> Completion (option string))
    (host : Collaborators) : Collaborators :=
  {| readBinary := readBinary host;
     generateContent := backend;
     normalizePath := normalizePath host;
     folderExists := folderExists host;
     createFolder := createFolder host;
     generateMarkdownLink := generateMarkdownLink host;
     noteExists := noteExists host;
     vaultProcess := vaultProcess host;
     vaultCreate := vaultCreate host;
     createdNoteIsFile := createdNoteIsFile host;
     openFile := openFile host;
     destinationExists := destinationExists host;
     renameFile := renameFile host;
     filenameClock := filenameClock host;
     templateClock := templateClock host;
     moveClock := moveClock host |}.

(** The request for a file whose bytes are [data]: the configured model,
    the prompt built from the settings, the MIME type of the kind of
    file, the bytes. *)
Definition requestFor (settings : HandwriteSettings) (file : TFile) (data : list ascii)
  : GenerateRequest :=
  let fileExt := JsString.toLowerCase (extension file) in
  {| reqModel := geminiModel settings;
     reqPrompt :=
       GeminiClient.buildPrompt (prompt settings) (extractableVariables settings);
     reqMimeType :=
       if String.eqb fileExt "pdf" then "application/pdf"
       else FileProcessor.getMimeType fileExt;
     reqData := data |}.

(** The path [createNote] writes the note to. *)
Definition notePath (settings : HandwriteSettings) (host : Collaborators) (file : TFile)
    (result : StructuredResponse) : string :=
  normalizePath host
    (normalizePath host (outputFolder settings) +:+ "/"
     +:+ FileProcessor.noteFilename settings host file result).

(** The callback, if any, returns. *)
Definition quietCallback (progressCallback : option (string -> Completion unit)) : Prop :=
  forall text, FileProcessor.notify progressCallback text = Normal tt.

(** A template cut into pieces: text without opening brace, and tokens. *)
Inductive Piece : Type :=
| Text (s : string)
| Token (sp1 dot name sp2 : string).

Definition pieceText (p : Piece) : string :=
  match p with
  | Text s => s
  | Token sp1 dot name sp2 => tokenText sp1 dot name sp2
  end.

Fixpoint flatten (pieces : list Piece) : string :=
  match pieces with
  | [] => EmptyString
  | p :: rest => pieceText p +:+ flatten rest
  end.

Definition wellFormed (p : Piece) : Prop :=
  match p with
  | Text s => JsString.mem "{" s = false
  | Token sp1 dot name sp2 => blank sp1 /\ blank sp2 /\ optionalDot dot /\ tokenName name
  end.

(** [name] is the name of a token among the pieces. *)
Definition occurs (name : string) (pieces : list Piece) : Prop :=
  exists sp1 dot sp2, Token sp1 dot name sp2 ∈ pieces.

(** One pass: the tokens of [name] become the text [value]. *)
Definition fill (name value : string) (p : Piece) : Piece :=
  match p with
  | Token _ _ n _ => if String.eqb n name then Text value else p
  | Text _ => p
  end.

(** All passes at once: a token becomes the value of its name, as a
    string, when the entries give it one, and stays as written when they
    give none. *)
Definition resolve (entries : list (string * JsValue)) (p : Piece) : Piece :=
  match p with
  | Token _ _ n _ =>
      match Js.get n entries with
      | Some v => Text (Js.toString v)
      | None => p
      end
  | Text _ => p
  end.

(** A value that can be put in a template as it is: no dollar sign
    (which the replacement would expand) and no opening brace (which a
    later pass could read as the start of a token). *)
Definition clean (value : string) : Prop :=
  JsString.mem "$" value = false /\ JsString.mem "{" value = false.

(** The names the note template knows, each with its value, in the order
    in which [renderTemplate] looks for their tokens: the built-in
    strings and numbers, then each custom variable under its long name
    and under its own. *)
Definition noteEntries (data : TemplateData) : list (string * JsValue) :=
  ((fun entry => (fst entry, JString (snd entry))) <$> TemplateRenderer.scalarEntries data)
  ++ flat_map (fun entry => [("customVariables." +:+ fst entry, snd entry); entry])
       (customVariables data).

(** The default note template, cut into pieces. *)
Definition defaultPieces : list Piece :=
  [ Text ("---" +:+ Js.newline +:+ "attachments: " +:+ Js.newline +:+ "  - ");
    Token "" "" "markdownLink" "";
    Text (Js.newline +:+ "dateCreated: ");
    Token "" "" "dateProcessed" "";
    Text (Js.newline +:+ "tags: ");
    Token "" "" "tags" "";
    Text (Js.newline +:+ "dateModified: ");
    Token "" "" "dateProcessed" "";
    Text (Js.newline +:+ "---" +:+ Js.newline +:+ Js.newline +:+ "# Handwritten Note"
          +:+ Js.newline +:+ Js.newline);
    Token "" "" "content" "" ].

(** The tags [createNote] merges: the extracted [tags], or none when
    they are missing or falsy, after the default ones. *)
Definition noteTags (settings : HandwriteSettings) (result : StructuredResponse)
  : list string :=
  FileProcessor.mergeTagsWithDefaults settings
    (match Js.get "tags" (extractedVariables result) with
     | Some v => if Js.truthy v then v else JArray []
     | None => JArray []
     end).

(** The structure [buildPrompt] shows at the end of the prompt. *)
Definition exampleStructure (vars : list ExtractableVariable) : string :=
  "{" +:+ Js.newline
  +:+ "  " +:+ GeminiClient.quoted "content" +:+ ": "
  +:+ GeminiClient.quoted "the transcribed text"
  +:+ match vars with
      | [] => EmptyString
      | _ => "," +:+ Js.newline +:+ GeminiClient.exampleLines vars
      end
  +:+ Js.newline +:+ "}".

(** The value the structure shows for a variable of each type. *)
Definition exampleValue (t : VariableType) : JsValue :=
  match t with
  | TArray => JArray []
  | TNumber => JNumber "0"
  | TString => JString EmptyString
  end.

(** The object the structure denotes. *)
Definition exampleObject (vars : list ExtractableVariable) : list (string * JsValue) :=
  fold_left (fun acc variable => Js.set (name variable) (exampleValue (type variable)) acc)
    vars [("content", JString "the transcribed text")].

(** A character that stands for itself in a JSON string. *)
Definition safeChar (c : ascii) : bool :=
  negb (Ascii.eqb c Js.quote) && negb (Ascii.eqb c Js.backslash)
  && negb (JsString.code c <? 32)%nat.

(** The members of an object as the prompt lays them out, two spaces
    before each name, one member per line. *)
Fixpoint memberLines (members : list (string * string)) : string :=
  match members with
  | [] => EmptyString
  | (key, text) :: rest =>
      "  " +:+ GeminiClient.quoted key +:+ ": " +:+ text
      +:+ match rest with
          | [] => EmptyString
          | _ => "," +:+ Js.newline
          end
      +:+ memberLines rest
  end.

(** What follows a value in the structure: a comma, or the line break
    before the closing brace. *)
Definition afterValue (after : string) : Prop :=
  exists rest, after = String "," rest \/ after = Js.newline +:+ rest.

(** The text [text] reads as the value [v], whatever follows it. *)
Definition readsAs (text : string) (v : JsValue) : Prop :=
  forall fuel after,
    afterValue after ->
    JSON.parseValue (S fuel) (" " +:+ text +:+ after) = Some (v, after).

(** The default settings with the source files moved once processed. *)
Definition movingSettings : HandwriteSettings :=
  {| geminiApiKey := geminiApiKey DEFAULT_SETTINGS;
     geminiModel := geminiModel DEFAULT_SETTINGS;
     prompt := prompt DEFAULT_SETTINGS;
     extractableVariables := extractableVariables DEFAULT_SETTINGS;
     templateContent := templateContent DEFAULT_SETTINGS;
     filenameTemplate := filenameTemplate DEFAULT_SETTINGS;
     outputFolder := outputFolder DEFAULT_SETTINGS;
     concurrentWorkers := concurrentWorkers DEFAULT_SETTINGS;
     showProgressBar := showProgressBar DEFAULT_SETTINGS;
     debugMode := debugMode DEFAULT_SETTINGS;
     moveFilesAfterProcessing := true;
     processedFilesFolder := processedFilesFolder DEFAULT_SETTINGS;
     defaultTags := defaultTags DEFAULT_SETTINGS;
     autoOpenCreatedNotes := autoOpenCreatedNotes DEFAULT_SETTINGS |}.

(** A host on which renaming a file ends as [rename], the rest being the
    same. *)
Definition withRename (rename : Completion unit) (host : Collaborators) : Collaborators :=
  {| readBinary := readBinary host;
     generateContent := generateContent host;
     normalizePath := normalizePath host;
     folderExists := folderExists host;
     createFolder := createFolder host;
     generateMarkdownLink := generateMarkdownLink host;
     noteExists := noteExists host;
     vaultProcess := vaultProcess host;
     vaultCreate := vaultCreate host;
     createdNoteIsFile := createdNoteIsFile host;
     openFile := openFile host;
     destinationExists := destinationExists host;
     renameFile := fun _ _ => rename;
     filenameClock := filenameClock host;
     templateClock := templateClock host;
     moveClock := moveClock host |}.






(** A character that can stand between the braces of a match. *)
Definition innerChar (c : ascii) : bool :=
  negb (Ascii.eqb c "{") && negb (Ascii.eqb c "}") && negb (Ascii.eqb c Js.backslash).

Definition inner (s : string) : Prop := JsString.all innerChar s = true.





(** * Properties *)

Local Open Scope list_scope.

(** ** Tag merge *)

Section MergeTags.

Lemma includes_elem_of (s : string) (l : list string) :
  FileProcessor.includes s l = true <-> s ∈ l.
Proof.
  unfold FileProcessor.includes. rewrite existsb_exists. split.
  - intros (y & Hy & Heq). apply String.eqb_eq in Heq. subst y.
    by apply list_elem_of_In.
  - intros Hin. exists s. split; [by apply list_elem_of_In | apply String.eqb_refl].
Qed.

Lemma truthy_notBlank (s : string) :
  JsString.truthy (JsString.trim s) = true <-> notBlank s.
Proof.
  unfold notBlank. destruct (JsString.trim s); simpl; split; intros; congruence.
Qed.

(** One turn of the loop either leaves the list alone or pushes the tag. *)
Lemma pushTag_cases (acc : list string) (tag : JsValue) :
  (exists s, tag = JString s /\ notBlank s /\ (s ∉ acc)
             /\ FileProcessor.pushTag acc tag = acc ++ [s])
  \/ ((forall s, tag = JString s -> ~ notBlank s \/ s ∈ acc)
      /\ FileProcessor.pushTag acc tag = acc).
Proof.
  destruct tag as [| b | n | s | items | fields]; simpl;
    try (right; split; [intros ? [=] | reflexivity]).
  destruct (JsString.truthy (JsString.trim s)) eqn:Ht.
  - destruct (FileProcessor.includes s acc) eqn:Hi; simpl.
    + right. split; [| reflexivity]. intros ? [= <-]. right.
      by apply includes_elem_of.
    + left. exists s. split_and!; try reflexivity.
      * by apply truthy_notBlank.
      * intros Hin. apply includes_elem_of in Hin. congruence.
  - right. split; [| reflexivity]. intros ? [= <-]. left.
    intros Hn. apply truthy_notBlank in Hn. congruence.
Qed.

(** The loop appends, to whatever list it starts from, the accepted
    string entries that are new, each once, in their order. *)
Lemma pushTag_fold (tags : list JsValue) (acc : list string) :
  exists added,
    fold_left FileProcessor.pushTag tags acc = acc ++ added
    /\ NoDup added
    /\ (forall s, s ∈ added <-> (JString s ∈ tags /\ notBlank s /\ (s ∉ acc)))
    /\ sublist added (stringEntries tags).
Proof.
  revert acc. induction tags as [| tag tags IH]; intros acc; simpl.
  - exists []. rewrite app_nil_r. split_and!; try done.
    + constructor.
    + intros s. split; [intros H; inversion H | intros (H & _); inversion H].
  - destruct (pushTag_cases acc tag) as [(s & -> & Hnb & Hnin & Heq) | (Hskip & Heq)];
      rewrite Heq; destruct (IH (acc ++ [s])) as (added & Hfold & Hnd & Hmem & Hsub) || idtac.
    + exists (s :: added). split_and!.
      * rewrite Hfold. by rewrite <- app_assoc.
      * constructor; [| done]. intros Hin. apply Hmem in Hin as (_ & _ & Hn).
        apply Hn. apply elem_of_app. right. by apply list_elem_of_singleton.
      * intros x. rewrite elem_of_cons, Hmem, elem_of_cons. split.
        -- intros [-> | (Hx & Hb & Hn)].
           ++ split_and!; [by left | done | done].
           ++ split_and!; [by right | done |].
              intros Hin. apply Hn. apply elem_of_app. by left.
        -- intros ([[= ->] | Hx] & Hb & Hn); [by left |].
           destruct (decide (x = s)) as [-> | Hne]; [by left | right].
           split_and!; [done | done |].
           intros [Hin | Hin%list_elem_of_singleton]%elem_of_app; contradiction.
      * simpl. by constructor.
    + destruct (IH acc) as (added & Hfold & Hnd & Hmem & Hsub).
      exists added. split_and!; [done | done | |].
      * intros x. rewrite Hmem, elem_of_cons. split.
        -- intros (Hx & Hb & Hn). split_and!; [by right | done | done].
        -- intros ([Hx | Hx] & Hb & Hn); [| done].
           destruct (Hskip x (eq_sym Hx)); contradiction.
      * destruct tag; simpl; try done. by constructor.
Qed.

(** C10.  The merged list starts with the default tags as they are
    configured (repeated defaults stay); what follows are extracted
    entries, and an entry is among them exactly when it is a string, not
    blank once trimmed, and not a default; none is appended twice.  Any
    other entry (not a string, or blank) is left out, and the function
    returns a list in every case. *)
Theorem mergeTags_keeps_defaults_appends_accepted
    (settings : HandwriteSettings) (extractedTags : JsValue) :
  exists added,
    FileProcessor.mergeTagsWithDefaults settings extractedTags
    = defaultTags settings ++ added
    /\ NoDup added
    /\ (forall s, s ∈ added <->
                  (JString s ∈ FileProcessor.normalizeTags extractedTags
                   /\ notBlank s /\ (s ∉ defaultTags settings))).
Proof.
  unfold FileProcessor.mergeTagsWithDefaults.
  destruct (pushTag_fold (FileProcessor.normalizeTags extractedTags) (defaultTags settings))
    as (added & Hfold & Hnd & Hmem & _).
  exists added. by split_and!.
Qed.

(** C5, the claim as stated fails: repeated default tags stay repeated. *)
Lemma mergeTags_repeated_defaults_stay :
  FileProcessor.mergeTagsWithDefaults (withDefaultTags ["a"; "a"]) (JArray [JString "b"])
  = ["a"; "a"; "b"]
  /\ ~ NoDup (FileProcessor.mergeTagsWithDefaults (withDefaultTags ["a"; "a"])
                (JArray [JString "b"])).
Proof.
  split; [reflexivity |].
  intros Hnd. vm_compute in Hnd. apply NoDup_cons in Hnd as [Hnin _].
  apply Hnin. by left.
Qed.

(** C5, amended.  A bare string counts as a one-element array; the
    result is the default list followed by the extracted strings that are
    not blank and not yet in the list (exact comparison), in source
    order and without repeats; it has no repeats at all when the default
    list has none. *)
Theorem mergeTags_defaults_then_new
    (settings : HandwriteSettings) (extractedTags : JsValue) :
  (forall s, FileProcessor.normalizeTags (JString s) = [JString s])
  /\ (exists added,
         FileProcessor.mergeTagsWithDefaults settings extractedTags
         = defaultTags settings ++ added
         /\ NoDup added
         /\ sublist added (stringEntries (FileProcessor.normalizeTags extractedTags))
         /\ (forall s, s ∈ added <->
                       (JString s ∈ FileProcessor.normalizeTags extractedTags
                        /\ notBlank s /\ (s ∉ defaultTags settings))))
  /\ (NoDup (defaultTags settings) ->
      NoDup (FileProcessor.mergeTagsWithDefaults settings extractedTags))
  /\ FileProcessor.mergeTagsWithDefaults (withDefaultTags ["a"; "b"])
       (JArray [JString "b"; JString "c"]) = ["a"; "b"; "c"].
Proof.
  unfold FileProcessor.mergeTagsWithDefaults.
  destruct (pushTag_fold (FileProcessor.normalizeTags extractedTags) (defaultTags settings))
    as (added & Hfold & Hnd & Hmem & Hsub).
  split_and!.
  - reflexivity.
  - exists added. by split_and!.
  - intros Hdef. rewrite Hfold. apply NoDup_app. split_and!; [done | | done].
    intros x Hx Hadd. apply Hmem in Hadd as (_ & _ & Hn). contradiction.
  - reflexivity.
Qed.

Lemma mergeTags_defaults_then_new_witness :
  NoDup (FileProcessor.mergeTagsWithDefaults (withDefaultTags ["a"; "b"])
           (JArray [JString "b"; JNumber "7"; JString " "; JString "c"; JString "c"])).
Proof.
  apply (mergeTags_defaults_then_new (withDefaultTags ["a"; "b"])
           (JArray [JString "b"; JNumber "7"; JString " "; JString "c"; JString "c"])).
  simpl. apply NoDup_cons. split.
  - intros Hin. apply list_elem_of_singleton in Hin. discriminate Hin.
  - apply NoDup_singleton.
Defined.

End MergeTags.

(** ** Strings *)

Section StringFacts.

Lemma append_nil (b : string) : EmptyString +:+ b = b.
Proof. reflexivity. Qed.

Lemma append_cons (c : ascii) (a b : string) : String c a +:+ b = String c (a +:+ b).
Proof. reflexivity. Qed.

Lemma length_append (a b : string) :
  String.length (a +:+ b) = (String.length a + String.length b)%nat.
Proof.
  induction a as [| c a IH]; [done |]. rewrite append_cons. simpl. by rewrite IH.
Qed.

Lemma drop_append (a b : string) : JsString.drop (String.length a) (a +:+ b) = b.
Proof. induction a as [| c a IH]; [done |]. by rewrite append_cons. Qed.

Lemma take_append (a b : string) : JsString.take (String.length a) (a +:+ b) = a.
Proof.
  induction a as [| c a IH]; [by destruct b |]. rewrite append_cons. simpl. by rewrite IH.
Qed.

Lemma append_empty_r (a : string) : a +:+ EmptyString = a.
Proof. induction a as [| c a IH]; [done |]. by rewrite append_cons, IH. Qed.

Lemma append_assoc (a b c : string) : (a +:+ b) +:+ c = a +:+ (b +:+ c).
Proof. induction a as [| x a IH]; [done |]. by rewrite !append_cons, IH. Qed.

Lemma length_drop (k : nat) (s : string) :
  String.length (JsString.drop k s) = (String.length s - k)%nat.
Proof. revert s. induction k as [| k IH]; intros [| c s]; simpl; auto with lia. Qed.

Lemma drop_drop (a b : nat) (s : string) :
  JsString.drop a (JsString.drop b s) = JsString.drop (b + a) s.
Proof.
  revert s. induction b as [| b IH]; intros s; simpl; [done |].
  destruct s as [| c s]; [by destruct a | apply IH].
Qed.

Lemma startsWith_length (p s : string) :
  JsString.startsWith p s = true -> (String.length p <= String.length s)%nat.
Proof.
  revert s. induction p as [| a p IH]; intros [| b s]; simpl; try lia; try done.
  destruct (Ascii.eqb a b); [| done]. intros H%IH. lia.
Qed.

Lemma startsWith_append (p s : string) : JsString.startsWith p (p +:+ s) = true.
Proof.
  induction p as [| a p IH]; [done |]. rewrite append_cons. simpl.
  by rewrite Ascii.eqb_refl.
Qed.

Lemma find_bound (needle s : string) (i : nat) :
  JsString.find needle s = Some i -> (i + String.length needle <= String.length s)%nat.
Proof.
  revert i. induction s as [| c s IH]; intros i; simpl.
  - destruct (JsString.startsWith needle EmptyString) eqn:Hs; [| done].
    intros [= <-]. apply startsWith_length in Hs. simpl in *. lia.
  - destruct (JsString.startsWith needle (String c s)) eqn:Hs.
    + intros [= <-]. apply startsWith_length in Hs. simpl in *. lia.
    + destruct (JsString.find needle s) as [j |]; [| done].
      intros [= <-]. specialize (IH j eq_refl). simpl. lia.
Qed.

Lemma clamp_of_nat (k : nat) (s : string) :
  (k <= String.length s)%nat -> JsString.clamp (Z.of_nat k) s = k.
Proof. intros Hk. unfold JsString.clamp, JsString.len. lia. Qed.

Lemma indexOf_find (needle s : string) :
  JsString.indexOf needle s
  = match JsString.find needle s with Some i => Z.of_nat i | None => -1 end.
Proof.
  unfold JsString.indexOf, JsString.indexOfFrom.
  rewrite (clamp_of_nat 0) by lia. simpl. by destruct (JsString.find needle s).
Qed.

Lemma indexOfFrom_find (needle s : string) (k : nat) :
  (k <= String.length s)%nat ->
  JsString.indexOfFrom needle s (Z.of_nat k)
  = match JsString.find needle (JsString.drop k s) with
    | Some j => Z.of_nat (k + j)
    | None => -1
    end.
Proof. intros Hk. unfold JsString.indexOfFrom. by rewrite clamp_of_nat. Qed.

Lemma substring_take_drop (s : string) (a b : nat) :
  (a <= b)%nat -> (b <= String.length s)%nat ->
  JsString.substring s (Z.of_nat a) (Z.of_nat b) = JsString.take (b - a) (JsString.drop a s).
Proof.
  intros Hab Hb. unfold JsString.substring.
  rewrite !clamp_of_nat by lia.
  by rewrite Nat.min_l, Nat.max_r by lia.
Qed.

(** A character that does not occur is not found. *)
Lemma find_char_append (c : ascii) (pre rest : string) :
  JsString.mem c pre = false ->
  JsString.find (String c EmptyString) (pre +:+ String c rest) = Some (String.length pre).
Proof.
  induction pre as [| d pre IH]; [rewrite append_nil | rewrite append_cons]; simpl.
  - intros _. by rewrite Ascii.eqb_refl.
  - destruct (Ascii.eqb c d) eqn:Hcd; [done |]. intros Hm. by rewrite IH.
Qed.

Lemma findLast_char_none (c : ascii) (s : string) :
  JsString.mem c s = false -> JsString.findLast (String c EmptyString) s = None.
Proof.
  induction s as [| d s IH]; simpl; [done |].
  destruct (Ascii.eqb c d) eqn:Hcd; [done |]. intros Hm. by rewrite IH.
Qed.

Lemma findLast_char_append (c : ascii) (pre post : string) :
  JsString.mem c post = false ->
  JsString.findLast (String c EmptyString) (pre +:+ String c post) = Some (String.length pre).
Proof.
  intros Hm. induction pre as [| d pre IH]; [rewrite append_nil | rewrite append_cons]; simpl.
  - rewrite findLast_char_none by done. by rewrite Ascii.eqb_refl.
  - by rewrite IH.
Qed.

Lemma find_char_none (c : ascii) (s : string) :
  JsString.mem c s = false -> JsString.find (String c EmptyString) s = None.
Proof.
  induction s as [| d s IH]; simpl; [done |].
  destruct (Ascii.eqb c d) eqn:Hcd; [done |]. intros Hm. by rewrite IH.
Qed.

End StringFacts.

(** ** The reply parser *)

Section ParseResponse.

Lemma includes_find (needle s : string) :
  JsString.includes needle s
  = match JsString.find needle s with Some _ => true | None => false end.
Proof. reflexivity. Qed.

(** The body of the block opened by the first occurrence of [opener], as
    the index arithmetic of the source computes it. *)
Lemma fenced_block (opener text : string) (i : nat) :
  (0 < String.length opener)%nat ->
  JsString.find opener text = Some i ->
  (let start := JsString.indexOf opener text + Z.of_nat (String.length opener) in
   let end_ := JsString.indexOfFrom GeminiClient.fence text start in
   if end_ >? 0 then JsString.trim (JsString.substring text start end_) else text)
  = match blockAfter opener text with
    | Some body => JsString.trim body
    | None => text
    end.
Proof.
  intros Hpos Hi. pose proof (find_bound _ _ _ Hi) as Hb.
  unfold blockAfter. rewrite indexOf_find, Hi. cbv zeta.
  rewrite <- Nat2Z.inj_add. rewrite indexOfFrom_find by lia.
  destruct (JsString.find GeminiClient.fence (JsString.drop (i + String.length opener) text))
    as [j |] eqn:Hj.
  - pose proof (find_bound _ _ _ Hj) as Hbj. rewrite length_drop in Hbj.
    simpl in Hbj.
    assert ((Z.of_nat (i + String.length opener + j) >? 0) = true) as ->.
    { apply Z.gtb_lt. lia. }
    rewrite substring_take_drop by lia. do 2 f_equal. lia.
  - reflexivity.
Qed.

Lemma fencedBody_blocks (text : string) :
  GeminiClient.fencedBody text
  = match JsString.find GeminiClient.jsonFence text with
    | Some _ =>
        match blockAfter GeminiClient.jsonFence text with
        | Some body => JsString.trim body
        | None => text
        end
    | None =>
        match blockAfter GeminiClient.fence text with
        | Some body => JsString.trim body
        | None => text
        end
    end.
Proof.
  unfold GeminiClient.fencedBody. rewrite !includes_find.
  destruct (JsString.find GeminiClient.jsonFence text) as [i |] eqn:Hi.
  - apply (fenced_block GeminiClient.jsonFence text i); [simpl; lia | done].
  - destruct (JsString.find GeminiClient.fence text) as [i |] eqn:Hf.
    + apply (fenced_block GeminiClient.fence text i); [simpl; lia | done].
    + unfold blockAfter. by rewrite Hf.
Qed.

Lemma braceSpan_commentary (pre mid post : string) :
  JsString.mem "{" pre = false ->
  JsString.mem "}" post = false ->
  GeminiClient.braceSpan (pre +:+ "{" +:+ mid +:+ "}" +:+ post) = "{" +:+ mid +:+ "}".
Proof.
  intros Hpre Hpost. unfold GeminiClient.braceSpan.
  rewrite indexOf_find. unfold JsString.lastIndexOf.
  change ("{" +:+ mid +:+ "}" +:+ post) with (String "{" (mid +:+ String "}" post)).
  rewrite (find_char_append "{" pre _ Hpre).
  assert (JsString.findLast "}" (pre +:+ String "{" (mid +:+ String "}" post))
          = Some (String.length pre + S (String.length mid))%nat) as ->.
  { replace (pre +:+ String "{" (mid +:+ String "}" post))
      with ((pre +:+ String "{" mid) +:+ String "}" post) by (by rewrite append_assoc).
    rewrite (findLast_char_append "}" _ post Hpost).
    by rewrite length_append. }
  assert ((Z.of_nat (String.length pre) >=? 0)
          && (Z.of_nat (String.length pre + S (String.length mid))
              >? Z.of_nat (String.length pre)) = true) as ->.
  { apply andb_true_intro. split; [apply Z.geb_le | apply Z.gtb_lt]; lia. }
  replace (Z.of_nat (String.length pre + S (String.length mid)) + 1)
    with (Z.of_nat (String.length pre + S (S (String.length mid)))) by lia.
  rewrite substring_take_drop.
  - rewrite drop_append.
    replace (String.length pre + S (S (String.length mid)) - String.length pre)%nat
      with (String.length (String "{" (mid +:+ "}"))).
    + change (String "{" (mid +:+ String "}" post))
        with (String "{" (mid +:+ ("}" +:+ post))).
      rewrite <- append_assoc.
      change (String "{" ((mid +:+ "}") +:+ post)) with (String "{" (mid +:+ "}") +:+ post).
      apply take_append.
    + simpl. rewrite length_append. simpl. lia.
  - lia.
  - rewrite length_append. simpl. rewrite length_append. simpl. lia.
Qed.

Lemma braceSpan_without_braces (s : string) :
  JsString.mem "{" s = false \/ JsString.mem "}" s = false ->
  GeminiClient.braceSpan s = s.
Proof.
  unfold GeminiClient.braceSpan. rewrite indexOf_find. unfold JsString.lastIndexOf.
  intros [H | H].
  - by rewrite (find_char_none "{" s H).
  - rewrite (findLast_char_none "}" s H).
    destruct (JsString.find "{" s) as [i |]; [| done].
    assert ((-1 >? Z.of_nat i) = false) as ->.
    { rewrite Z.gtb_ltb. apply Z.ltb_ge. lia. }
    by rewrite andb_false_r.
Qed.

End ParseResponse.

Section ParseResponseClaims.

(** C3, the claim as stated fails.  The reply holds a complete unlabeled
    block, then a [json] fence that is never closed.  The selection in
    the words of the specification takes the body of the complete block,
    which decodes; the code, having seen the [json] marker, does not look
    for another block, keeps the whole reply, and throws. *)
Lemma parseJSONResponse_open_json_fence :
  JSON.parse (GeminiClient.braceSpan (specFencedBody replyWithOpenJsonFence))
  = Normal (JObject [("content", JString "hi")])
  /\ GeminiClient.fencedBody replyWithOpenJsonFence = replyWithOpenJsonFence
  /\ GeminiClient.parseJSONResponse (Some replyWithOpenJsonFence) = Throw JSON.syntaxError
  /\ GeminiClient.parseJSONResponse (Some replyWithOpenJsonFence)
     <> JSON.parse (GeminiClient.braceSpan (specFencedBody replyWithOpenJsonFence)).
Proof.
  assert (JSON.parse (GeminiClient.braceSpan (specFencedBody replyWithOpenJsonFence))
          = Normal (JObject [("content", JString "hi")])) as Hspec
      by (vm_compute; reflexivity).
  assert (GeminiClient.parseJSONResponse (Some replyWithOpenJsonFence)
          = Throw JSON.syntaxError) as Hcode by (vm_compute; reflexivity).
  split_and!; [done | vm_compute; reflexivity | done |].
  rewrite Hspec, Hcode. discriminate.
Qed.

(** C3, amended.  The text that is decoded is: the body of the block
    from the first [json] marker to the next fence, when the reply has
    the marker and that fence; the body of the block between the first
    two fences, when the reply has no [json] marker; the reply itself in
    every other case, an unclosed [json] marker included.  Within that
    text the span from the first opening brace to the last closing brace
    is decoded, whatever surrounds it, and the text itself when it lacks
    one of the braces.  An absent or empty reply throws, and so does a
    span that does not decode.  The reply of the example yields content
    [hi] and no variables; a reply without JSON throws. *)
Theorem parseJSONResponse_selects_then_decodes :
  (forall text,
      GeminiClient.fencedBody text
      = match JsString.find GeminiClient.jsonFence text with
        | Some _ =>
            match blockAfter GeminiClient.jsonFence text with
            | Some body => JsString.trim body
            | None => text
            end
        | None =>
            match blockAfter GeminiClient.fence text with
            | Some body => JsString.trim body
            | None => text
            end
        end)
  /\ (forall pre mid post,
         JsString.mem "{" pre = false ->
         JsString.mem "}" post = false ->
         GeminiClient.braceSpan (pre +:+ "{" +:+ mid +:+ "}" +:+ post)
         = "{" +:+ mid +:+ "}")
  /\ (forall s,
         JsString.mem "{" s = false \/ JsString.mem "}" s = false ->
         GeminiClient.braceSpan s = s)
  /\ GeminiClient.parseJSONResponse None = Throw (Js.newError "No response text received")
  /\ GeminiClient.parseJSONResponse (Some EmptyString)
     = Throw (Js.newError "No response text received")
  /\ (forall text,
         text <> EmptyString ->
         GeminiClient.parseJSONResponse (Some text)
         = JSON.parse (GeminiClient.braceSpan (GeminiClient.fencedBody text)))
  /\ (forall modelName imageData mimeType prompt,
         GeminiClient.extractStructuredTextFromImage
           (fun _ => Normal (Some replyWithJsonFence)) modelName imageData mimeType prompt []
         = Normal {| content := JString "hi"; extractedVariables := [] |})
  /\ GeminiClient.parseJSONResponse (Some "I could not read the handwriting.")
     = Throw JSON.syntaxError.
Proof.
  split_and!.
  - apply fencedBody_blocks.
  - apply braceSpan_commentary.
  - apply braceSpan_without_braces.
  - reflexivity.
  - reflexivity.
  - intros [| c text] Hne; [done | reflexivity].
  - intros. vm_compute. reflexivity.
  - vm_compute. reflexivity.
Qed.

Lemma parseJSONResponse_selects_then_decodes_witness :
  GeminiClient.braceSpan ("Here it is: " +:+ "{" +:+ "1" +:+ "}" +:+ " as asked") = "{1}"
  /\ GeminiClient.braceSpan "no braces" = "no braces"
  /\ GeminiClient.parseJSONResponse (Some "{}") = JSON.parse "{}".
Proof.
  destruct parseJSONResponse_selects_then_decodes
    as (_ & Hspan & Hnone & _ & _ & Hparse & _).
  split_and!.
  - apply (Hspan "Here it is: " "1" " as asked"); reflexivity.
  - apply (Hnone "no braces"). left. reflexivity.
  - apply (Hparse "{}"). discriminate.
Defined.

End ParseResponseClaims.

(** ** The batch *)

Section BatchFacts.

Variable processFile : TFile -> ProcessingResult.
Variable files : list TFile.

#[local] Abbreviation step := (Batch.step processFile files).
#[local] Abbreviation Steps := (Batch.Steps processFile files).
#[local] Abbreviation Inv := (BatchInvariant processFile files).

Lemma worker_replace (ws : list Worker) (w : nat) (x y : Worker) :
  ws !! w = Some x ->
  exists l1 l2, ws = l1 ++ x :: l2 /\ <[w := y]> ws = l1 ++ y :: l2.
Proof.
  intros Hw. exists (take w ws), (drop (S w) ws). split.
  - symmetry. by apply take_drop_middle.
  - apply insert_take_drop. by eapply lookup_lt_Some.
Qed.

Lemma awaited_app (l1 l2 : list Worker) : awaited (l1 ++ l2) = awaited l1 ++ awaited l2.
Proof. apply omap_app. Qed.

Lemma weight_app (l1 l2 : list Worker) :
  sum_list_with weight (l1 ++ l2)
  = (sum_list_with weight l1 + sum_list_with weight l2)%nat.
Proof. apply sum_list_with_app. Qed.

(** The state a resumption leads to, case by case. *)
Lemma step_cases (w : nat) (st st' : BatchState) :
  step w st = Some st' ->
  exists l1 l2,
    (workers st = l1 ++ AtLoopTest :: l2 /\ queue st = []
     /\ st' = Batch.setWorkers (l1 ++ Returned :: l2) st)
    \/ (exists file rest,
           workers st = l1 ++ AtLoopTest :: l2 /\ queue st = file :: rest
           /\ st' = Batch.setWorkers (l1 ++ Awaiting file :: l2) (snd (Batch.enterLoop files st)))
    \/ (exists file,
           workers st = l1 ++ Awaiting file :: l2
           /\ st' = Batch.setWorkers (l1 ++ AtLoopTest :: l2)
                      (Batch.processNextEnd processFile files file st)).
Proof.
  unfold Batch.step. destruct (workers st !! w) as [[| file |] |] eqn:Hw; try done.
  - unfold Batch.enterLoop, Batch.processNextBegin. destruct (queue st) as [| file rest] eqn:Hq; intros [= <-].
    + destruct (worker_replace _ _ _ Returned Hw) as (l1 & l2 & H1 & H2).
      exists l1, l2. left. by rewrite H2.
    + destruct (worker_replace _ _ _ (Awaiting file) Hw) as (l1 & l2 & H1 & H2).
      exists l1, l2. right. left. exists file, rest. simpl in *. by rewrite H2.
  - intros [= <-].
    destruct (worker_replace _ _ _ AtLoopTest Hw) as (l1 & l2 & H1 & H2).
    exists l1, l2. right. right. exists file. simpl in *. by rewrite H2.
Qed.

Lemma step_remaining (w : nat) (st st' : BatchState) :
  step w st = Some st' -> remaining st = S (remaining st').
Proof.
  intros Hs. destruct (step_cases _ _ _ Hs)
    as (l1 & l2 & [(Hw & Hq & ->) | [(file & rest & Hw & Hq & ->) | (file & Hw & ->)]]);
    unfold remaining, Batch.enterLoop, Batch.processNextBegin; simpl; rewrite ?Hq, Hw; simpl;
    rewrite !weight_app; simpl; lia.
Qed.

Lemma Steps_remaining (st st' : BatchState) (k : nat) :
  Steps st k st' -> remaining st = (k + remaining st')%nat.
Proof.
  induction 1 as [| st w st1 k st2 Hs _ IH]; [done |].
  apply step_remaining in Hs. lia.
Qed.

Lemma resolved_weight (st : BatchState) :
  Batch.resolved st = true <-> sum_list_with weight (workers st) = O.
Proof.
  unfold Batch.resolved. induction (workers st) as [| x ws IH]; simpl; [done |].
  destruct x; simpl; rewrite ?IH; split; intros; try done; lia.
Qed.

(** While some worker has not returned, a worker can resume. *)
Lemma unresolved_can_step (st : BatchState) :
  Batch.resolved st = false -> exists w st', step w st = Some st'.
Proof.
  unfold Batch.resolved. intros Hr.
  assert (exists w x, workers st !! w = Some x /\ Batch.isReturned x = false)
    as (w & x & Hw & Hx).
  { induction (workers st) as [| y ws IH]; simpl in Hr; [done |].
    destruct (Batch.isReturned y) eqn:Hy.
    - destruct (IH Hr) as (w & x & Hw & Hx). by exists (S w), x.
    - by exists O, y. }
  exists w. unfold Batch.step. rewrite Hw.
  destruct x; [| | done].
  - destruct (Batch.enterLoop files st). eauto.
  - eauto.
Qed.

Lemma pathsOf_snoc (l : list TFile) (f : TFile) :
  pathsOf (l ++ [f]) = pathsOf l ∪ {[path f]}.
Proof.
  unfold pathsOf. rewrite fmap_app, list_to_set_app_L. simpl.
  by rewrite (right_id_L ∅ (∪)).
Qed.

Lemma invariant_initial : Inv (Batch.initial files).
Proof.
  split; simpl; try done.
  intros H. inversion H.
Qed.

Lemma invariant_spawn (st : BatchState) : Inv st -> Inv (Batch.spawnWorker files st).
Proof.
  intros [Hf Hd Hv Hr Hc Hp]. unfold Batch.spawnWorker, Batch.enterLoop, Batch.processNextBegin.
  destruct (queue st) as [| file rest] eqn:Hq; split; simpl;
    rewrite ?Hq, ?awaited_app, ?length_app; simpl; try done; try lia.
  - rewrite !app_nil_r. rewrite !app_nil_r in Hf. exact Hf.
  - rewrite Hf. apply Permutation_app_head. by rewrite <- app_assoc.
  - intros [Hin | Hin%list_elem_of_singleton]%elem_of_app; [| done].
    specialize (Hr Hin). congruence.
Qed.

Lemma invariant_spawnLoop (fuel : nat) (i bound : Z) (st : BatchState) :
  Inv st -> Inv (Batch.spawnLoop files fuel i bound st).
Proof.
  revert i st. induction fuel as [| fuel IH]; intros i st Hinv; simpl; [done |].
  destruct (i <? bound); [| done]. apply IH. by apply invariant_spawn.
Qed.

Lemma invariant_start (concurrentWorkers : Z) : Inv (Batch.start files concurrentWorkers).
Proof. apply invariant_spawnLoop, invariant_initial. Qed.

Lemma invariant_step (w : nat) (st st' : BatchState) :
  Inv st -> step w st = Some st' -> Inv st'.
Proof.
  intros [Hf Hd Hv Hr Hc Hp] Hs.
  destruct (step_cases _ _ _ Hs)
    as (l1 & l2 & [(Hw & Hq & ->) | [(file & rest & Hw & Hq & ->) | (file & Hw & ->)]]).
  - split; simpl; try done.
    + rewrite Hw, awaited_app in Hf. by rewrite awaited_app.
    + rewrite Hp, Hw, !length_app. done.
  - unfold Batch.enterLoop, Batch.processNextBegin. rewrite Hq. split; simpl; try done.
    + rewrite Hf, Hw, Hq, !awaited_app. simpl.
      apply Permutation_app_head. rewrite <- !app_assoc.
      apply Permutation_app_head. simpl.
      by rewrite Permutation_middle.
    + intros Hin. exfalso.
      assert (Returned ∈ workers st) as Hin'.
      { rewrite Hw. apply elem_of_app in Hin as [Hin | Hin]; apply elem_of_app; [by left |].
        right. apply elem_of_cons in Hin as [Hin | Hin]; [done |].
        apply elem_of_cons. by right. }
      specialize (Hr Hin'). congruence.
    + rewrite Hp, Hw, !length_app. done.
  - split; simpl.
    + rewrite Hf, Hw, !awaited_app, fmap_app. simpl.
      rewrite <- !app_assoc. apply Permutation_app_head. simpl.
      by rewrite <- Permutation_middle.
    + rewrite dom_insert_L, Hd, fmap_app. simpl. rewrite pathsOf_snoc.
      apply (comm_L (∪)).
    + intros p r. rewrite fmap_app. simpl. rewrite lookup_insert.
      destruct (decide (path file = p)) as [<- | Hne].
      * intros [= <-]. exists file. split_and!; try done.
        apply elem_of_app. right. by apply list_elem_of_singleton.
      * intros (g & Hg & Hpg & Hrg)%Hv. exists g. split_and!; try done.
        apply elem_of_app. by left.
    + intros Hin. apply Hr. rewrite Hw.
      apply elem_of_app in Hin as [Hin | Hin]; apply elem_of_app; [by left |].
      right. apply elem_of_cons in Hin as [Hin | Hin]; [done |].
      apply elem_of_cons. by right.
    + rewrite length_app. simpl. lia.
    + rewrite Hp, Hw, !length_app. done.
Qed.

Lemma invariant_Steps (st st' : BatchState) (k : nat) :
  Inv st -> Steps st k st' -> Inv st'.
Proof.
  intros Hinv Hsteps. induction Hsteps as [| st w st1 k st2 Hs _ IH]; [done |].
  apply IH. by eapply invariant_step.
Qed.

Lemma step_workers_length (w : nat) (st st' : BatchState) :
  step w st = Some st' -> length (workers st') = length (workers st).
Proof.
  intros Hs.
  destruct (step_cases _ _ _ Hs)
    as (l1 & l2 & [(Hw & Hq & ->) | [(file & rest & Hw & Hq & ->) | (file & Hw & ->)]]);
    simpl; rewrite Hw, !length_app; done.
Qed.

Lemma Steps_workers_length (st st' : BatchState) (k : nat) :
  Steps st k st' -> length (workers st') = length (workers st).
Proof.
  induction 1 as [| st w st1 k st2 Hs _ IH]; [done |].
  rewrite IH. by eapply step_workers_length.
Qed.

(** The [for] loop takes as many turns as its bound asks, the fuel
    permitting. *)
Lemma spawnLoop_workers (fuel : nat) (i bound : Z) (st : BatchState) :
  length (workers (Batch.spawnLoop files fuel i bound st))
  = (length (workers st) + Nat.min fuel (Z.to_nat (bound - i)))%nat.
Proof.
  revert i st. induction fuel as [| fuel IH]; intros i st; simpl; [lia |].
  destruct (i <? bound) eqn:Hlt.
  - apply Z.ltb_lt in Hlt. rewrite IH.
    assert (length (workers (Batch.spawnWorker files st)) = S (length (workers st))) as ->.
    { unfold Batch.spawnWorker, Batch.enterLoop, Batch.processNextBegin.
      destruct (queue st); simpl; rewrite length_app; simpl; lia. }
    replace (Z.to_nat (bound - i)) with (S (Z.to_nat (bound - (i + 1)))) by lia.
    lia.
  - apply Z.ltb_ge in Hlt.
    replace (Z.to_nat (bound - i)) with O by lia. lia.
Qed.

Lemma spawnLoop_remaining (fuel : nat) (i bound : Z) (st : BatchState) :
  remaining (Batch.spawnLoop files fuel i bound st) = remaining st.
Proof.
  revert i st. induction fuel as [| fuel IH]; intros i st; simpl; [done |].
  destruct (i <? bound); [| done]. rewrite IH.
  unfold remaining, Batch.spawnWorker, Batch.enterLoop, Batch.processNextBegin.
  destruct (queue st) as [| file rest] eqn:Hq; simpl; rewrite ?Hq, weight_app; simpl; lia.
Qed.

Lemma start_workers (concurrentWorkers : Z) :
  length (workers (Batch.start files concurrentWorkers))
  = Z.to_nat (Z.min concurrentWorkers (Z.of_nat (length files))).
Proof.
  unfold Batch.start. rewrite spawnLoop_workers. simpl. unfold Batch.totalFiles. lia.
Qed.

Lemma start_remaining (concurrentWorkers : Z) :
  remaining (Batch.start files concurrentWorkers) = (2 * length files)%nat.
Proof. unfold Batch.start. rewrite spawnLoop_remaining. unfold remaining. simpl. lia. Qed.

Lemma run_Steps (schedule : list nat) (st : BatchState) :
  exists k, Steps st k (Batch.run processFile files schedule st).
Proof.
  revert st. induction schedule as [| w schedule IH]; intros st; simpl.
  - exists O. constructor.
  - destruct (step w st) as [st' |] eqn:Hs; [| apply IH].
    destruct (IH st') as (k & Hk). exists (S k). by econstructor.
Qed.

(** Some order of resumptions lets every worker return. *)
Lemma can_resolve (n : nat) (st : BatchState) :
  remaining st = n ->
  exists schedule, Batch.resolved (Batch.run processFile files schedule st) = true.
Proof.
  revert st. induction n as [| n IH]; intros st Hn.
  - exists []. simpl. apply resolved_weight. unfold remaining in Hn. lia.
  - destruct (Batch.resolved st) eqn:Hr; [by exists [] |].
    destruct (unresolved_can_step _ Hr) as (w & st' & Hs).
    destruct (IH st') as (schedule & Hres).
    { apply step_remaining in Hs. lia. }
    exists (w :: schedule). simpl. by rewrite Hs.
Qed.

Lemma resolved_returned (st : BatchState) :
  Batch.resolved st = true ->
  awaited (workers st) = [] /\ (workers st <> [] -> Returned ∈ workers st).
Proof.
  unfold Batch.resolved. induction (workers st) as [| x ws IH]; simpl; [done |].
  destruct x; simpl; try done. intros H. destruct (IH H) as [Ha _].
  split; [done |]. intros _. by left.
Qed.

Lemma path_identifies (l : list TFile) (f g : TFile) :
  NoDup (path <$> l) -> f ∈ l -> g ∈ l -> path f = path g -> f = g.
Proof.
  induction l as [| x l IH]; simpl; intros Hnd Hf Hg Heq; [inversion Hf |].
  apply NoDup_cons in Hnd as [Hx Hnd].
  apply elem_of_cons in Hf as [-> | Hf]; apply elem_of_cons in Hg as [-> | Hg];
    try done.
  - exfalso. apply Hx. rewrite Heq. by apply list_elem_of_fmap_2.
  - exfalso. apply Hx. rewrite <- Heq. by apply list_elem_of_fmap_2.
  - by apply IH.
Qed.

Lemma pathsOf_perm (l1 l2 : list TFile) : l1 ≡ₚ l2 -> pathsOf l1 = pathsOf l2.
Proof. intros H. unfold pathsOf. by rewrite H. Qed.

(** Once every worker has returned, nothing is queued or awaited, and the
    map has the paths of the input for its keys. *)
Lemma resolved_complete (concurrentWorkers : Z) (k : nat) (st : BatchState) :
  1 <= concurrentWorkers ->
  Steps (Batch.start files concurrentWorkers) k st ->
  Batch.resolved st = true ->
  queue st = [] /\ awaited (workers st) = []
  /\ files ≡ₚ fst <$> resultLog st
  /\ dom (results st) = pathsOf files.
Proof.
  intros Hw Hsteps Hres.
  pose proof (invariant_Steps _ _ _ (invariant_start concurrentWorkers) Hsteps)
    as [Hf Hd Hv Hr Hc Hp].
  destruct (resolved_returned _ Hres) as [Ha Hret].
  assert (queue st = []) as Hq.
  { destruct (decide (length files = O)) as [Hz | Hnz].
    - apply nil_length_inv in Hz. rewrite Hz, Ha in Hf. simpl in Hf.
      apply Permutation_nil_l in Hf. symmetry in Hf.
      by apply app_eq_nil in Hf as [_ ?].
    - apply Hr, Hret. intros Hnil.
      pose proof (Steps_workers_length _ _ _ Hsteps) as Hlen.
      rewrite start_workers, Hnil in Hlen. simpl in Hlen. lia. }
  rewrite Ha, Hq in Hf. simpl in Hf. rewrite app_nil_r in Hf.
  split_and!; try done. rewrite Hd. symmetry. by apply pathsOf_perm.
Qed.

(** With a file path per file, the map holds each file's own outcome. *)
Lemma resolved_outcomes (concurrentWorkers : Z) (k : nat) (st : BatchState) :
  1 <= concurrentWorkers ->
  NoDup (path <$> files) ->
  Steps (Batch.start files concurrentWorkers) k st ->
  Batch.resolved st = true ->
  size (results st) = length files
  /\ forall f, f ∈ files -> results st !! path f = Some (processFile f).
Proof.
  intros Hw Hnd Hsteps Hres.
  destruct (resolved_complete _ _ _ Hw Hsteps Hres) as (Hq & Ha & Hperm & Hdom).
  pose proof (invariant_Steps _ _ _ (invariant_start concurrentWorkers) Hsteps)
    as [Hf Hd Hv Hr Hc Hp].
  split.
  - rewrite <- size_dom, Hdom. unfold pathsOf.
    rewrite size_list_to_set by done. by rewrite length_fmap.
  - intros f Hin.
    assert (path f ∈ dom (results st)) as Hpd.
    { rewrite Hdom. unfold pathsOf. apply elem_of_list_to_set.
      by apply list_elem_of_fmap_2. }
    apply elem_of_dom in Hpd as [r Hr'].
    destruct (Hv _ _ Hr') as (g & Hg & Hpg & ->).
    rewrite Hr'. do 2 f_equal.
    rewrite <- Hperm in Hg.
    by apply (path_identifies files).
Qed.

End BatchFacts.

Section BatchClaims.

(** C4, the claim as stated fails: with a configured count of zero no
    worker is started, although the list of files is not empty. *)
Lemma no_worker_started_for_count_zero :
  workers (Batch.start [sampleFile "a" "png"] 0) = []
  /\ ~ (1 <= length (workers (Batch.start [sampleFile "a" "png"] 0)))%nat.
Proof. split; [reflexivity |]. simpl. lia. Qed.

(** C4, amended.  The number of workers started is the smaller of the
    configured count and the number of files, and zero when that is
    negative: it is the configured count when this lies between 1 and the
    number of files, never more than the number of files, at least 1 for
    a list that is not empty when the configured count is at least 1, and
    zero for a configured count of zero or less. *)
Theorem workers_started_min_of_count_and_files
    (files : list TFile) (concurrentWorkers : Z) :
  let started := length (workers (Batch.start files concurrentWorkers)) in
  started = Z.to_nat (Z.min concurrentWorkers (Z.of_nat (length files)))
  /\ processing (Batch.start files concurrentWorkers) = started
  /\ (1 <= concurrentWorkers <= Z.of_nat (length files) ->
      Z.of_nat started = concurrentWorkers)
  /\ (started <= length files)%nat
  /\ (1 <= concurrentWorkers -> files <> [] -> (1 <= started)%nat)
  /\ (concurrentWorkers <= 0 -> started = O).
Proof.
  intros started. subst started. rewrite start_workers.
  split_and!; try lia.
  - rewrite (inv_processing (fun _ => FileProcessor.failure EmptyString) files _
               (invariant_start _ files concurrentWorkers)).
    apply start_workers.
  - intros Hw Hne. destruct files; [done | simpl; lia].
Qed.

Lemma workers_started_min_of_count_and_files_witness :
  Z.of_nat (length (workers (Batch.start
              [sampleFile "a" "png"; sampleFile "b" "png"; sampleFile "c" "png"] 2))) = 2
  /\ (1 <= length (workers (Batch.start
              [sampleFile "a" "png"; sampleFile "b" "png"; sampleFile "c" "png"] 2)))%nat
  /\ length (workers (Batch.start [sampleFile "a" "png"] (-3))) = O.
Proof.
  split_and!.
  - apply (workers_started_min_of_count_and_files
             [sampleFile "a" "png"; sampleFile "b" "png"; sampleFile "c" "png"] 2).
    simpl. lia.
  - apply (workers_started_min_of_count_and_files
             [sampleFile "a" "png"; sampleFile "b" "png"; sampleFile "c" "png"] 2);
      [lia | discriminate].
  - apply (workers_started_min_of_count_and_files [sampleFile "a" "png"] (-3)). lia.
Defined.

(** C1, the claim as stated fails: with a configured count of zero the
    batch resolves at once, to a map without the input's path. *)
Lemma batch_of_count_zero_resolves_empty :
  Batch.processBatch (fun _ => FileProcessor.failure "unused")
    [sampleFile "a" "png"] 0 [] = Some ∅
  /\ dom (∅ : gmap string ProcessingResult) <> pathsOf [sampleFile "a" "png"].
Proof.
  split; [reflexivity |]. unfold pathsOf. simpl. intros H.
  assert (path (sampleFile "a" "png") ∈ (∅ : gset string)) as Hin.
  { rewrite dom_empty_L in H. rewrite H. apply elem_of_union_l.
    by apply elem_of_singleton. }
  by apply not_elem_of_empty in Hin.
Qed.

(** C1, amended.  For a configured count of at least 1: whatever the
    order in which the workers resume, the batch cannot get stuck before
    every worker has returned, and this is so after exactly two
    resumptions per file; some order therefore resolves it; and when it
    resolves the queue is empty, no file is awaited, every input file has
    been processed once, and the keys of the map are the paths of the
    input files, one entry per file when the paths differ. *)
Theorem processBatch_one_entry_per_input_path
    (processFile : TFile -> ProcessingResult) (files : list TFile) (concurrentWorkers : Z) :
  1 <= concurrentWorkers ->
  (forall k st,
      Batch.Steps processFile files (Batch.start files concurrentWorkers) k st ->
      (k <= 2 * length files)%nat
      /\ (Batch.resolved st = true <-> k = (2 * length files)%nat)
      /\ (Batch.resolved st = false -> exists w st', Batch.step processFile files w st = Some st')
      /\ (Batch.resolved st = true ->
          queue st = [] /\ Batch.inFlight st = []
          /\ files ≡ₚ fst <$> resultLog st
          /\ dom (results st) = pathsOf files
          /\ (NoDup (path <$> files) -> size (results st) = length files)))
  /\ (exists schedule,
         is_Some (Batch.processBatch processFile files concurrentWorkers schedule))
  /\ (forall schedule m,
         Batch.processBatch processFile files concurrentWorkers schedule = Some m ->
         dom m = pathsOf files
         /\ (NoDup (path <$> files) -> size m = length files)).
Proof.
  intros Hw.
  assert (forall k st,
             Batch.Steps processFile files (Batch.start files concurrentWorkers) k st ->
             Batch.resolved st = true ->
             queue st = [] /\ Batch.inFlight st = []
             /\ files ≡ₚ fst <$> resultLog st
             /\ dom (results st) = pathsOf files
             /\ (NoDup (path <$> files) -> size (results st) = length files)) as Hdone.
  { intros k st Hsteps Hres.
    destruct (resolved_complete processFile files _ _ _ Hw Hsteps Hres)
      as (Hq & Ha & Hperm & Hdom).
    split_and!; try done.
    intros Hnd. by apply (resolved_outcomes processFile files _ _ _ Hw Hnd Hsteps Hres). }
  split_and!.
  - intros k st Hsteps.
    pose proof (Steps_remaining _ _ _ _ _ Hsteps) as Hrem.
    rewrite start_remaining in Hrem.
    split_and!.
    + lia.
    + split.
      * intros Hres. destruct (Hdone k st Hsteps Hres) as (Hq & _).
        apply resolved_weight in Hres. unfold remaining in Hrem.
        rewrite Hq, Hres in Hrem. simpl in Hrem. lia.
      * intros ->. apply resolved_weight. unfold remaining in Hrem. lia.
    + apply unresolved_can_step.
    + by apply (Hdone k).
  - destruct (can_resolve processFile files _ (Batch.start files concurrentWorkers) eq_refl)
      as (schedule & Hres).
    exists schedule. unfold Batch.processBatch. rewrite Hres. by eexists.
  - intros schedule m. unfold Batch.processBatch.
    destruct (Batch.resolved _) eqn:Hres; [| done]. intros [= <-].
    destruct (run_Steps processFile files schedule (Batch.start files concurrentWorkers))
      as (k & Hsteps).
    destruct (Hdone k _ Hsteps Hres) as (_ & _ & _ & Hdom & Hsize). done.
Qed.

Lemma processBatch_one_entry_per_input_path_witness :
  exists schedule,
    is_Some (Batch.processBatch (fun _ => FileProcessor.failure "unused")
               [sampleFile "a" "png"; sampleFile "b" "png"] 4 schedule).
Proof.
  destruct (processBatch_one_entry_per_input_path
              (fun _ => FileProcessor.failure "unused")
              [sampleFile "a" "png"; sampleFile "b" "png"] 4) as (_ & Hsome & _).
  - lia.
  - exact Hsome.
Defined.

(** C8, the code at the failing inputs.  With one worker and two files
    the only order of resumptions reports 0 before the first file and 2
    before the second, although one file is in flight both times.  With
    two workers and three files, when the first two files are done before
    either worker resumes its loop, the report before the third file is
    4 of 3. *)
Theorem progress_adds_started_workers (processFile : TFile -> ProcessingResult) :
  progressLog
    (Batch.run processFile [sampleFile "a" "png"; sampleFile "b" "png"]
       [0; 0; 0; 0; 0]%nat
       (Batch.start [sampleFile "a" "png"; sampleFile "b" "png"] 1))
  = [ {| current := 0; total := 2; currentFile := "a.png" |};
      {| current := 1; total := 2; currentFile := EmptyString |};
      {| current := 2; total := 2; currentFile := "b.png" |};
      {| current := 2; total := 2; currentFile := EmptyString |} ]
  /\ progressLog
       (Batch.run processFile
          [sampleFile "x" "txt"; sampleFile "y" "txt"; sampleFile "z" "png"]
          [0; 1; 0; 1; 0; 0]%nat
          (Batch.start [sampleFile "x" "txt"; sampleFile "y" "txt"; sampleFile "z" "png"] 2))
     = [ {| current := 0; total := 3; currentFile := "x.txt" |};
         {| current := 1; total := 3; currentFile := "y.txt" |};
         {| current := 1; total := 3; currentFile := EmptyString |};
         {| current := 2; total := 3; currentFile := EmptyString |};
         {| current := 4; total := 3; currentFile := "z.png" |};
         {| current := 3; total := 3; currentFile := EmptyString |} ]
  /\ Batch.resolved
       (Batch.run processFile
          [sampleFile "x" "txt"; sampleFile "y" "txt"; sampleFile "z" "png"]
          [0; 1; 0; 1; 0; 0]%nat
          (Batch.start [sampleFile "x" "txt"; sampleFile "y" "txt"; sampleFile "z" "png"] 2))
     = true.
Proof. split_and!; reflexivity. Qed.

End BatchClaims.

(** ** The renderer *)

Section ReplaceFacts.

Lemma expand_plain (repl matched before after : string) (groups : list string) :
  JsString.mem "$" repl = false ->
  Regex.expand repl matched before after groups = repl.
Proof.
  induction repl as [| c r IH]; cbn [JsString.mem Regex.expand]; [done |].
  intros Hm. rewrite (Ascii.eqb_sym "$" c) in Hm.
  destruct (Ascii.eqb c "$") eqn:Hc; [done |]. by rewrite IH.
Qed.

(** Where no suffix matches, a global replace changes nothing. *)
Lemma scan_no_match (m : Regex.Matcher) (repl : string) (s before : string) :
  (forall k, m (JsString.drop k s) = None) ->
  Regex.scan m repl O before s = s.
Proof.
  revert before. induction s as [| c r IH]; intros before Hnone; simpl; [done |].
  pose proof (Hnone O) as H0. simpl in H0. rewrite H0.
  f_equal. apply IH. intros k. apply (Hnone (S k)).
Qed.

Lemma closersEscaped_drop (k : nat) (prev : ascii) (s : string) :
  closersEscaped prev s = true ->
  exists prev', closersEscaped prev' (JsString.drop k s) = true.
Proof.
  revert prev s. induction k as [| k IH]; intros prev s Hs; simpl; [by exists prev |].
  destruct s as [| c r]; [by exists prev |].
  cbn [closersEscaped] in Hs. apply andb_true_iff in Hs as [_ Hr]. by apply (IH c).
Qed.

Lemma afterPlain_startsWith (p s : string) :
  p <> EmptyString -> plain p ->
  (exists prev, closersEscaped prev s = true) ->
  JsString.startsWith p s = true ->
  afterPlain (JsString.drop (String.length p) s).
Proof.
  revert s. induction p as [| a p IH]; intros s Hne Hp Hs Hstart; [done |].
  destruct s as [| b r]; simpl in Hstart; [done |].
  destruct (Ascii.eqb a b) eqn:Hab; [| done]. apply Ascii.eqb_eq in Hab. subst b.
  unfold plain in Hp. cbn [JsString.mem] in Hp.
  destruct (Ascii.eqb Js.backslash a) eqn:Ha; [done |].
  destruct Hs as (prev & Hs). cbn [closersEscaped] in Hs. apply andb_true_iff in Hs as [_ Hr].
  destruct p as [| a' p'].
  - simpl. exists a. split; [| done]. intros ->. by rewrite Ascii.eqb_refl in Ha.
  - apply IH; [done | done | by exists a | done].
Qed.

Lemma afterPlain_startsWith_opt (p s : string) :
  plain p -> afterPlain s -> JsString.startsWith p s = true ->
  afterPlain (JsString.drop (String.length p) s).
Proof.
  intros Hp Hs Hstart. destruct p as [| a p]; [done |].
  apply afterPlain_startsWith; try done.
  destruct Hs as (prev & _ & Hs). by exists prev.
Qed.

Lemma isSpace_not_backslash (c : ascii) : JsString.isSpace c = true -> c <> Js.backslash.
Proof. intros Hc ->. discriminate Hc. Qed.

Lemma afterPlain_spaces (s : string) :
  afterPlain s -> afterPlain (JsString.drop (Regex.spaces s) s).
Proof.
  induction s as [| c r IH]; simpl; [done |].
  destruct (JsString.isSpace c) eqn:Hc; [| done].
  intros (prev & _ & Hs). cbn [closersEscaped] in Hs. apply andb_true_iff in Hs as [_ Hr].
  apply IH. exists c. split; [by apply isSpace_not_backslash | done].
Qed.

Lemma afterPlain_no_closer (s : string) :
  afterPlain s -> JsString.startsWith "}}" s = false.
Proof.
  intros (prev & Hprev & Hs). destruct s as [| c r]; [done |].
  cbn [closersEscaped] in Hs. apply andb_true_iff in Hs as [Hhead _].
  destruct (JsString.startsWith "}}" (String c r)) eqn:Hst; [| done].
  apply Ascii.eqb_eq in Hhead. contradiction.
Qed.

(** In a text whose closing braces are all escaped, no token of a key
    without backslash matches. *)
Lemma tokenLength_none (key s : string) :
  plain key ->
  (exists prev, closersEscaped prev s = true) ->
  Regex.tokenLength key s = None.
Proof.
  intros Hkey Hs. unfold Regex.tokenLength.
  destruct (JsString.startsWith "{{" s) eqn:Hopen; [| done].
  pose proof (afterPlain_startsWith "{{" s ltac:(done) ltac:(done) Hs Hopen) as H1.
  simpl String.length in H1.
  apply afterPlain_spaces in H1.
  set (s2 := JsString.drop (Regex.spaces (JsString.drop 2 s)) (JsString.drop 2 s)) in *.
  assert (afterPlain (snd (match s2 with
                           | String "." r => (1%nat, r)
                           | _ => (O, s2)
                           end))) as H3.
  { destruct s2 as [| c r]; [done |].
    destruct (Ascii.eqb c ".") eqn:Hc.
    - apply Ascii.eqb_eq in Hc. subst c. simpl.
      apply (afterPlain_startsWith_opt "." (String "." r)); done.
    - assert ((match String c r with
               | String "." r0 => (1%nat, r0)
               | _ => (O, String c r)
               end) = (O, String c r)) as ->; [| done].
      destruct c as [[] [] [] [] [] [] [] []]; try done. }
  destruct (match s2 with
            | String "." r => (1%nat, r)
            | _ => (O, s2)
            end) as [dot s3]. simpl in H3.
  destruct (JsString.startsWith key s3) eqn:Hk; [| done].
  pose proof (afterPlain_startsWith_opt key s3 Hkey H3 Hk) as H4.
  apply afterPlain_spaces in H4. apply afterPlain_no_closer in H4.
  by rewrite H4.
Qed.

Lemma token_untouched (key repl s before : string) (prev : ascii) :
  plain key ->
  closersEscaped prev s = true ->
  Regex.scan (Regex.token key) repl O before s = s.
Proof.
  intros Hkey Hs. apply scan_no_match. intros k. unfold Regex.token.
  rewrite tokenLength_none; [done | done |]. by eapply closersEscaped_drop.
Qed.

Lemma prefixedToken_untouched (prefix key repl s before : string) (prev : ascii) :
  plain key ->
  closersEscaped prev s = true ->
  Regex.scan (Regex.prefixedToken prefix key) repl O before s = s.
Proof.
  intros Hkey Hs. apply scan_no_match. intros k. unfold Regex.prefixedToken.
  destruct (JsString.startsWith prefix (JsString.drop k s)); [| done].
  rewrite tokenLength_none; [done | done |].
  rewrite !drop_drop. by eapply closersEscaped_drop.
Qed.

Lemma fieldToken_untouched (key repl s before : string) (prev : ascii) :
  plain key ->
  closersEscaped prev s = true ->
  Regex.scan (Regex.fieldToken key) repl O before s = s.
Proof.
  intros Hkey Hs. apply scan_no_match. intros k. unfold Regex.fieldToken.
  destruct (Regex.wordRun (JsString.drop k s)) as [| w] eqn:Hw; [done |].
  destruct (JsString.drop (S w) (JsString.drop k s)) as [| c s1] eqn:Hd; [done |].
  destruct (Ascii.eqb c ":") eqn:Hc.
  - apply Ascii.eqb_eq in Hc. subst c.
    rewrite tokenLength_none; [done | done |].
    assert (s1 = JsString.drop 1 (JsString.drop (S w) (JsString.drop k s))) as ->
        by (by rewrite Hd).
    rewrite !drop_drop. by eapply closersEscaped_drop.
  - destruct c as [[] [] [] [] [] [] [] []]; try done.
Qed.

End ReplaceFacts.

Section EscapeFacts.

Lemma scan_skip (m : Regex.Matcher) (repl before : string) (k : nat) (c : ascii) (r : string) :
  Regex.scan m repl (S k) before (String c r)
  = Regex.scan m repl k (before +:+ String c EmptyString) r.
Proof. reflexivity. Qed.





Lemma startsWith_closer (c : ascii) (s : string) :
  JsString.startsWith closer (String c s)
  = Ascii.eqb "}" c && match s with
                       | String d _ => Ascii.eqb "}" d
                       | EmptyString => false
                       end.
Proof.
  unfold closer. cbn [JsString.startsWith].
  destruct (Ascii.eqb "}" c); [| done]. destruct s as [| d s]; [done |].
  cbn [JsString.startsWith]. by destruct (Ascii.eqb "}" d).
Qed.




End EscapeFacts.

Section RenderFacts.

Lemma scan_match (m : Regex.Matcher) (repl before : string) (c : ascii) (r : string)
    (n : nat) (groups : list string) :
  m (String c r) = Some (S n, groups) ->
  Regex.scan m repl O before (String c r)
  = Regex.expand repl (JsString.take (S n) (String c r)) before
      (JsString.drop (S n) (String c r)) groups
    +:+ Regex.scan m repl n (before +:+ String c EmptyString) r.
Proof. intros Hm. cbn [Regex.scan]. by rewrite Hm. Qed.

(** A token starts with an opening brace: a text without one is copied. *)
Lemma token_skips_plain_text (key repl pre s before : string) :
  JsString.mem "{" pre = false ->
  Regex.scan (Regex.token key) repl O before (pre +:+ s)
  = pre +:+ Regex.scan (Regex.token key) repl O (before +:+ pre) s.
Proof.
  revert before. induction pre as [| c pre IH]; intros before Hpre.
  - by rewrite append_nil, append_empty_r.
  - cbn [JsString.mem] in Hpre. destruct (Ascii.eqb "{" c) eqn:Hc; [done |].
    rewrite !append_cons. cbn [Regex.scan].
    assert (Regex.token key (String c (pre +:+ s)) = None) as ->.
    { unfold Regex.token, Regex.tokenLength. cbn [JsString.startsWith]. by rewrite Hc. }
    rewrite IH by done. by rewrite append_assoc.
Qed.

Lemma closers_plain (s : string) (prev : ascii) :
  JsString.mem "}" s = false -> closersEscaped prev s = true.
Proof.
  revert prev. induction s as [| c r IH]; intros prev Hs; [done |].
  cbn [JsString.mem] in Hs. destruct (Ascii.eqb "}" c) eqn:Hc; [done |].
  cbn [closersEscaped]. rewrite startsWith_closer, Hc, IH by done. done.
Qed.

Lemma closers_plain_before (pre s : string) (prev : ascii) :
  JsString.mem "}" pre = false ->
  (forall p, closersEscaped p s = true) ->
  closersEscaped prev (pre +:+ s) = true.
Proof.
  intros Hpre Hs. revert prev Hpre. induction pre as [| c pre IH]; intros prev Hpre.
  - by rewrite append_nil.
  - cbn [JsString.mem] in Hpre. destruct (Ascii.eqb "}" c) eqn:Hc; [done |].
    rewrite append_cons. cbn [closersEscaped].
    rewrite startsWith_closer, Hc, IH by done. done.
Qed.

Lemma closers_plain_after (s post : string) (prev : ascii) :
  JsString.mem "}" post = false ->
  closersEscaped prev s = true ->
  closersEscaped prev (s +:+ post) = true.
Proof.
  intros Hpost. revert prev. induction s as [| c r IH]; intros prev Hs.
  - rewrite append_nil. by apply closers_plain.
  - rewrite append_cons. cbn [closersEscaped] in Hs |- *.
    apply andb_true_iff in Hs as [Hhead Hr]. rewrite (IH c Hr), andb_true_r.
    rewrite startsWith_closer in Hhead |- *.
    destruct (Ascii.eqb "}" c); [| done]. cbn [andb] in *.
    destruct r as [| d r'].
    + rewrite append_nil. destruct post as [| e post']; [done |].
      cbn [JsString.mem] in Hpost. by destruct (Ascii.eqb "}" e).
    + by rewrite append_cons.
Qed.

Lemma wordKey_plain (key : string) : wordKey key -> plain key.
Proof.
  unfold wordKey, plain. induction key as [| c key IH]; [done |].
  cbn [JsString.all JsString.mem]. intros [Hc Hk]%andb_true_iff.
  destruct (Ascii.eqb Js.backslash c) eqn:Hb; [| by apply IH].
  apply Ascii.eqb_eq in Hb. subst c. discriminate Hc.
Qed.

Lemma plain_append (a b : string) : plain a -> plain b -> plain (a +:+ b).
Proof.
  unfold plain. induction a as [| c a IH]; intros Ha Hb; [done |].
  rewrite append_cons. cbn [JsString.mem] in *.
  destruct (Ascii.eqb Js.backslash c); [done | by apply IH].
Qed.

(** The passes after the first leave alone a text whose closing braces
    are all escaped. *)
Lemma later_passes_untouched (data : TemplateData) (result : string) :
  Forall (fun entry => wordKey (fst entry)) (customVariables data) ->
  (forall prev, closersEscaped prev result = true) ->
  fold_left TemplateRenderer.replaceArray (customVariables data)
    (TemplateRenderer.replaceTags data
       (fold_left TemplateRenderer.replaceCustom (customVariables data) result))
  = result.
Proof.
  intros Hkeys Hres.
  assert (fold_left TemplateRenderer.replaceCustom (customVariables data) result = result)
    as ->.
  { induction Hkeys as [| [k v] rest Hk _ IH]; [done |]. cbn [fold_left].
    assert (TemplateRenderer.replaceCustom result (k, v) = result) as ->; [| done].
    unfold TemplateRenderer.replaceCustom, Regex.replaceAll. cbn [fst snd].
    rewrite (token_untouched _ _ result _ "a"); [ | | done].
    - apply (token_untouched _ _ result _ "a"); [by apply wordKey_plain | done].
    - apply plain_append; [done | by apply wordKey_plain]. }
  assert (TemplateRenderer.replaceTags data result = result) as ->.
  { unfold TemplateRenderer.replaceTags, Regex.replaceAll.
    destruct (TemplateRenderer.effectiveTags data) as [[| | | | [| tag tags] |] |];
      (apply (token_untouched _ _ result _ "a") || apply (prefixedToken_untouched _ _ _ result _ "a"));
      done. }
  induction Hkeys as [| [k v] rest Hk _ IH]; [done |]. cbn [fold_left].
  assert (TemplateRenderer.replaceArray result (k, v) = result) as ->; [| done].
  unfold TemplateRenderer.replaceArray, Regex.replaceAll. cbn [fst snd].
  destruct v as [| | | | items |]; try done.
  destruct (String.eqb k "tags"); [done |].
  destruct items; apply (fieldToken_untouched _ _ result _ "a");
    try done; by apply wordKey_plain.
Qed.

End RenderFacts.

Section ContentEscaping.

Lemma scan_skip_prefix (m : Regex.Matcher) (repl prefix s before : string) :
  Regex.scan m repl (String.length prefix) before (prefix +:+ s)
  = Regex.scan m repl O (before +:+ prefix) s.
Proof.
  revert before. induction prefix as [| c prefix IH]; intros before.
  - by rewrite append_nil, append_empty_r.
  - rewrite append_cons. cbn [String.length]. rewrite scan_skip, IH.
    by rewrite append_assoc.
Qed.

Lemma token_plain_text (key repl s before : string) :
  JsString.mem "{" s = false ->
  Regex.scan (Regex.token key) repl O before s = s.
Proof.
  intros Hs. rewrite <- (append_empty_r s) at 1.
  rewrite token_skips_plain_text by done. by rewrite append_empty_r.
Qed.

(** The first pass puts the escaped content in the place of its token. *)
Lemma content_pass (pre post value : string) :
  JsString.mem "{" pre = false ->
  JsString.mem "{" post = false ->
  JsString.mem "$" value = false ->
  Regex.replaceAll (Regex.token "content") value (pre +:+ "{{content}}" +:+ post)
  = pre +:+ value +:+ post.
Proof.
  intros Hpre Hpost Hvalue. unfold Regex.replaceAll.
  rewrite token_skips_plain_text by done. f_equal.
  change ("{{content}}" +:+ post) with (String "{" ("{content}}" +:+ post)).
  rewrite (scan_match _ _ _ _ _ 10 []) by reflexivity.
  rewrite expand_plain by done. f_equal.
  change 10%nat with (String.length "{content}}").
  rewrite scan_skip_prefix. by apply token_plain_text.
Qed.


End ContentEscaping.

Section ArrayRendering.

(** C7, the code at the failing inputs.  An array in the custom-variable
    bag is substituted by the pass over the custom variables, as the string
    of its items joined by commas, before the passes that format arrays
    run; these then find no token.  So a custom array renders on one line,
    an empty one as nothing, and so do the tags of a note, which
    [createNote] always puts in the bag as well.  The block sequence and
    the [[]] are rendered for the top-level tags alone. *)
Theorem custom_array_substituted_as_scalar :
  TemplateRenderer.renderTemplate "topics: {{topics}}"
    (sampleData "body" (Some []) [("topics", JArray [JString "a"; JString "b"])])
  = "topics: a,b"
  /\ TemplateRenderer.renderTemplate "topics: {{topics}}"
       (sampleData "body" (Some []) [("topics", JArray [])])
     = "topics: "
  /\ TemplateRenderer.renderTemplate "tags: {{tags}}"
       (sampleData "body" (Some ["x"; "y"]) [("tags", JArray [JString "x"; JString "y"])])
     = "tags: x,y"
  /\ TemplateRenderer.renderTemplate "tags: {{tags}}"
       (sampleData "body" None [("tags", JArray [JString "x"; JString "y"])])
     = "tags: x,y"
  /\ FileProcessor.noteContent (withDefaultTags [])
       (hostAnswering (Normal []) replyWithJsonFence)
       "body" "in/scan.png" "[[in/scan.png]]" (sampleFile "scan" "png")
       {| content := JString "body";
          extractedVariables := [("tags", JArray [JString "x"; JString "y"])] |}
     = JsString.join Js.newline
         [ "---"; "attachments: "; "  - [[in/scan.png]]";
           "dateCreated: 2024-05-01T10:00:00.000Z"; "tags: x,y";
           "dateModified: 2024-05-01T10:00:00.000Z"; "---"; "";
           "# Handwritten Note"; ""; "body" ]
  /\ TemplateRenderer.renderTemplate "tags: {{tags}}"
       (sampleData "body" (Some ["x"; "y"]) [])
     = "tags: " +:+ Js.newline +:+ "  - x" +:+ Js.newline +:+ "  - y"
  /\ TemplateRenderer.renderTemplate "tags: {{tags}}" (sampleData "body" (Some []) [])
     = "tags: []".
Proof. split_and!; vm_compute; reflexivity. Qed.

End ArrayRendering.

Section Determinism.

(** C9, the claim as stated fails: the same extraction result, templates
    and settings, rendered a second later, give another note and another
    file name. *)
Lemma render_differs_a_second_later :
  TemplateRenderer.renderTemplate TemplateRenderer.DEFAULT_TEMPLATE
    (TemplateRenderer.createTemplateData (clockAt "2024-05-01T10:00:00.000Z" 36000)
       "body" [] "scan" "in/scan.png" "[[in/scan.png]]" 1 "model" [] [])
  <> TemplateRenderer.renderTemplate TemplateRenderer.DEFAULT_TEMPLATE
       (TemplateRenderer.createTemplateData (clockAt "2024-05-01T10:00:01.000Z" 36001)
          "body" [] "scan" "in/scan.png" "[[in/scan.png]]" 1 "model" [] [])
  /\ TemplateRenderer.generateFilename (clockAt "2024-05-01T10:00:00.000Z" 36000)
       "{{baseName}}_{{secondsBase36}}.md" "scan" []
     <> TemplateRenderer.generateFilename (clockAt "2024-05-01T10:00:01.000Z" 36001)
          "{{baseName}}_{{secondsBase36}}.md" "scan" [].
Proof. split; vm_compute; discriminate. Qed.

Lemma set_keys_plain (key : string) (v : JsValue) (fields : list (string * JsValue)) :
  plain key ->
  Forall (fun entry => plain (fst entry)) fields ->
  Forall (fun entry => plain (fst entry)) (Js.set key v fields).
Proof.
  intros Hkey Hfields. induction Hfields as [| [k w] rest Hk Hrest IH]; simpl.
  - by repeat constructor.
  - destruct (String.eqb k key); constructor; done.
Qed.

(** Spreading variables over a first entry they do not name leaves it
    first, and keeps the keys free of backslashes. *)
Lemma spread_first (key : string) (w : JsValue) (rest vars : list (string * JsValue)) :
  Js.get key vars = None ->
  Forall (fun entry => plain (fst entry)) rest ->
  Forall (fun entry => wordKey (fst entry)) vars ->
  exists tail,
    Js.spread ((key, w) :: rest) vars = (key, w) :: tail
    /\ Forall (fun entry => plain (fst entry)) tail.
Proof.
  unfold Js.spread. revert rest.
  induction vars as [| [k v] vars IH]; intros rest Hget Hrest Hvars; simpl.
  - by exists rest.
  - simpl in Hget. destruct (String.eqb k key) eqn:Hk; [done |].
    apply Forall_cons in Hvars as [Hword Hvars]. simpl in Hword.
    rewrite String.eqb_sym, Hk.
    apply IH; [done | | done].
    apply set_keys_plain; [by apply wordKey_plain | done].
Qed.

(** The pass of the base name over the default file-name template. *)
Lemma baseName_pass (value : string) :
  JsString.mem "$" value = false ->
  Regex.replaceAll (Regex.token "baseName") value "{{baseName}}.md" = value +:+ ".md".
Proof.
  intros Hvalue. unfold Regex.replaceAll.
  change "{{baseName}}.md" with (String "{" ("{baseName}}" +:+ ".md")).
  rewrite (scan_match _ _ _ _ _ 11 []) by reflexivity.
  rewrite expand_plain by done. reflexivity.
Qed.

(** The file-name data starts with [baseName]; every later key is plain. *)
Lemma filenameEntries_first (now : DateReading) (originalFilename : string)
    (vars : list (string * JsValue)) :
  Js.get "baseName" vars = None ->
  Forall (fun entry => wordKey (fst entry)) vars ->
  exists tail,
    TemplateRenderer.filenameEntries originalFilename now vars
    = ("baseName",
       JString (match TemplateRenderer.extensionStart originalFilename with
                | Some i => JsString.take i originalFilename
                | None => originalFilename
                end)) :: tail
    /\ Forall (fun entry => plain (fst entry)) tail.
Proof.
  intros Hget Hvars. unfold TemplateRenderer.filenameEntries.
  apply spread_first; [done | | done].
  repeat (constructor; [reflexivity |]). constructor.
Qed.

Lemma later_variables_untouched (tail : list (string * JsValue)) (result : string) :
  Forall (fun entry => plain (fst entry)) tail ->
  (forall prev, closersEscaped prev result = true) ->
  fold_left TemplateRenderer.replaceVariable tail result = result.
Proof.
  intros Htail Hres. induction Htail as [| [k v] tail Hk _ IH]; [done |].
  cbn [fold_left].
  assert (TemplateRenderer.replaceVariable result (k, v) = result) as ->; [| done].
  unfold TemplateRenderer.replaceVariable, Regex.replaceAll. cbn [fst snd].
  by apply (token_untouched _ _ _ _ "a").
Qed.

Lemma replaceVariable_string (key value result : string) :
  TemplateRenderer.replaceVariable result (key, JString value)
  = Regex.replaceAll (Regex.token key) value result.
Proof. reflexivity. Qed.

Lemma fold_left_step {A B : Type} (f : A -> B -> A) (x : B) (l : list B) (a : A) :
  fold_left f (x :: l) a = fold_left f l (f a x).
Proof. reflexivity. Qed.

Lemma default_filename_aux (tail : list (string * JsValue)) (baseName : string) :
  Forall (fun entry => plain (fst entry)) tail ->
  JsString.mem "$" baseName = false ->
  JsString.mem "}" baseName = false ->
  fold_left TemplateRenderer.replaceVariable (("baseName", JString baseName) :: tail)
    "{{baseName}}.md"
  = baseName +:+ ".md".
Proof.
  intros Htail Hdollar Hbrace.
  rewrite fold_left_step, replaceVariable_string, baseName_pass by done.
  apply later_variables_untouched; [done |].
  intros prev. apply closers_plain_after; [reflexivity | by apply closers_plain].
Qed.

(** With the default file-name template the file name is the base name
    followed by [.md], whatever the clock shows. *)
Lemma default_filename (now : DateReading) (originalFilename : string)
    (vars : list (string * JsValue)) :
  let baseName :=
    match TemplateRenderer.extensionStart originalFilename with
    | Some i => JsString.take i originalFilename
    | None => originalFilename
    end in
  Js.get "baseName" vars = None ->
  Forall (fun entry => wordKey (fst entry)) vars ->
  JsString.mem "$" baseName = false ->
  JsString.mem "}" baseName = false ->
  TemplateRenderer.generateFilename now "{{baseName}}.md" originalFilename vars
  = baseName +:+ ".md".
Proof.
  intros baseName Hget Hvars Hdollar Hbrace.
  unfold TemplateRenderer.generateFilename.
  destruct (filenameEntries_first now originalFilename vars Hget Hvars) as (tail & Heq & Htail).
  rewrite Heq. by apply default_filename_aux.
Qed.

(** C9, amended.  The note content is a function of the extraction result,
    the template, the settings-derived fields and the timestamp read by
    [createTemplateData]; the file name is a function of the template, the
    original name, the variables, and the timestamp and second of the day
    read by [generateFilename].  Two runs that read the same values give
    the same content and the same file name; with the default file-name
    template the file name is the same whatever the two runs read (for a
    base name without dollar sign or closing brace, and variables named by
    word characters, none of them [baseName]). *)
Theorem render_same_inputs_same_clock_same_output
    (now1 now2 : DateReading)
    (template content filename filePath link modelName : string)
    (tags : list string) (pages : Z)
    (customVars extractedVars : list (string * JsValue))
    (nameTemplate originalFilename : string) :
  (toISOString now1 = toISOString now2 ->
   TemplateRenderer.renderTemplate template
     (TemplateRenderer.createTemplateData now1 content tags filename filePath link pages
        modelName customVars extractedVars)
   = TemplateRenderer.renderTemplate template
       (TemplateRenderer.createTemplateData now2 content tags filename filePath link pages
          modelName customVars extractedVars))
  /\ (toISOString now1 = toISOString now2 ->
      secondsSinceMidnight now1 = secondsSinceMidnight now2 ->
      TemplateRenderer.generateFilename now1 nameTemplate originalFilename extractedVars
      = TemplateRenderer.generateFilename now2 nameTemplate originalFilename extractedVars)
  /\ (Js.get "baseName" extractedVars = None ->
      Forall (fun entry => wordKey (fst entry)) extractedVars ->
      JsString.mem "$" originalFilename = false ->
      JsString.mem "}" originalFilename = false ->
      JsString.mem "." originalFilename = false ->
      TemplateRenderer.generateFilename now1 "{{baseName}}.md" originalFilename extractedVars
      = originalFilename +:+ ".md"
      /\ TemplateRenderer.generateFilename now2 "{{baseName}}.md" originalFilename
           extractedVars
         = originalFilename +:+ ".md").
Proof.
  split_and!.
  - intros Hiso. unfold TemplateRenderer.createTemplateData. by rewrite Hiso.
  - intros Hiso Hsec.
    unfold TemplateRenderer.generateFilename, TemplateRenderer.filenameEntries.
    by rewrite Hiso, Hsec.
  - intros Hget Hvars Hdollar Hbrace Hdot.
    assert (TemplateRenderer.extensionStart originalFilename = None) as Hext.
    { unfold TemplateRenderer.extensionStart.
      by rewrite (findLast_char_none "." originalFilename Hdot). }
    pose proof (default_filename now1 originalFilename extractedVars) as H1.
    pose proof (default_filename now2 originalFilename extractedVars) as H2.
    cbv zeta in H1, H2. rewrite Hext in H1, H2. split; [by apply H1 | by apply H2].
Qed.

Lemma render_same_inputs_same_clock_same_output_witness :
  TemplateRenderer.renderTemplate TemplateRenderer.DEFAULT_TEMPLATE
    (TemplateRenderer.createTemplateData (clockAt "2024-05-01T10:00:00.000Z" 36000)
       "body" ["t"] "scan" "in/scan.png" "[[in/scan.png]]" 1 "model" []
       [("tags", JArray [JString "t"])])
  = TemplateRenderer.renderTemplate TemplateRenderer.DEFAULT_TEMPLATE
      (TemplateRenderer.createTemplateData (clockAt "2024-05-01T10:00:00.000Z" 7)
         "body" ["t"] "scan" "in/scan.png" "[[in/scan.png]]" 1 "model" []
         [("tags", JArray [JString "t"])])
  /\ TemplateRenderer.generateFilename (clockAt "2024-05-01T10:00:00.000Z" 7)
       "{{baseName}}.md" "meeting notes" [("tags", JArray [JString "t"])]
     = "meeting notes.md"
  /\ TemplateRenderer.generateFilename (clockAt "2024-05-01T10:00:00.000Z" 36000)
       "{{baseName}}_{{secondsBase36}}.md" "scan" []
     = TemplateRenderer.generateFilename
         {| toISOString := "2024-05-01T10:00:00.000Z"; secondsSinceMidnight := 36000 |}
         "{{baseName}}_{{secondsBase36}}.md" "scan" [].
Proof.
  destruct (render_same_inputs_same_clock_same_output
              (clockAt "2024-05-01T10:00:00.000Z" 36000)
              (clockAt "2024-05-01T10:00:00.000Z" 7)
              TemplateRenderer.DEFAULT_TEMPLATE "body" "scan" "in/scan.png"
              "[[in/scan.png]]" "model" ["t"] 1 [] [("tags", JArray [JString "t"])]
              "{{baseName}}.md" "meeting notes") as (Hcontent & _ & Hdefault).
  destruct (render_same_inputs_same_clock_same_output
              (clockAt "2024-05-01T10:00:00.000Z" 36000)
              {| toISOString := "2024-05-01T10:00:00.000Z"; secondsSinceMidnight := 36000 |}
              TemplateRenderer.DEFAULT_TEMPLATE "body" "scan" "in/scan.png"
              "[[in/scan.png]]" "model" ["t"] 1 [] []
              "{{baseName}}_{{secondsBase36}}.md" "scan") as (_ & Hname & _).
  split_and!.
  - apply Hcontent. reflexivity.
  - apply Hdefault; try reflexivity. repeat constructor.
  - apply Hname; reflexivity.
Defined.

End Determinism.

(** ** Processing one file *)

Section ProcessFileFacts.

Variable settings : HandwriteSettings.
Variable host : Collaborators.
Variable progressCallback : option (string -> Completion unit).

Lemma bind_throw {A B : Type} (c : Completion A) (k : A -> Completion B) (e : JsThrown) :
  bindC c k = Throw e -> c = Throw e \/ exists a, c = Normal a /\ k a = Throw e.
Proof. destruct c as [a | e']; simpl; intros H; [right; by exists a | left; by injection H as ->]. Qed.

Lemma labelled_not_silent (label detail : string) :
  label <> EmptyString -> ~ silent (Js.newError (label +:+ detail)).
Proof.
  intros Hlabel (n & Hn). destruct label as [| c label]; [done |].
  rewrite append_cons in Hn. discriminate Hn.
Qed.

Lemma notify_throw (text : string) (e : JsThrown) :
  FileProcessor.notify progressCallback text = Throw e ->
  silent e -> ~ describedFailures host progressCallback.
Proof.
  unfold FileProcessor.notify. destruct progressCallback as [callback |] eqn:Hcb; [| done].
  intros Hcall (n & ->) (_ & _ & _ & _ & _ & _ & Hd). by apply (Hd callback text n).
Qed.

Lemma ensureFolder_throw (folder : string) (e : JsThrown) :
  FileProcessor.ensureFolder host folder = Throw e ->
  silent e -> ~ describedFailures host progressCallback.
Proof.
  unfold FileProcessor.ensureFolder. destruct (folderExists host folder); [done |].
  intros Hcall (n & ->) (_ & Hd & _). by apply (Hd folder n).
Qed.

Lemma extractStructured_throw (label mimeType : string) (data : list ascii) (e : JsThrown) :
  label <> EmptyString ->
  GeminiClient.extractStructured (generateContent host) (geminiModel settings)
    label mimeType data (prompt settings) (extractableVariables settings) = Throw e ->
  ~ silent e.
Proof.
  intros Hlabel. unfold GeminiClient.extractStructured, tryCatch.
  match goal with |- match ?c with _ => _ end = _ -> _ => destruct c as [r | e'] end;
    [done |].
  intros [= <-]. by apply labelled_not_silent.
Qed.

Lemma moveSourceFile_throw (file : TFile) (e : JsThrown) :
  FileProcessor.moveSourceFile settings host file = Throw e -> ~ silent e.
Proof.
  unfold FileProcessor.moveSourceFile, tryCatch.
  match goal with |- match ?c with _ => _ end = _ -> _ => destruct c as [r | e'] end;
    [done |].
  destruct e' as [n message | rendering [message |]]; cbn [FileProcessor.messageOf bindC];
    intros [= <-]; first [by apply labelled_not_silent | by intros (? & ?)].
Qed.

Lemma createNote_throw (file : TFile) (text : string) (result : StructuredResponse)
    (e : JsThrown) :
  FileProcessor.createNote settings host file text result = Throw e ->
  silent e -> ~ describedFailures host progressCallback.
Proof.
  unfold FileProcessor.createNote. intros Hbody Hsilent Hd.
  apply bind_throw in Hbody as [H | (? & _ & Hbody)];
    [by apply (ensureFolder_throw _ _ H Hsilent) |].
  apply bind_throw in Hbody as [H | (link & _ & Hbody)].
  { destruct (moveFilesAfterProcessing settings); [done |].
    apply bind_throw in H as [H | (? & _ & H)]; [| done].
    destruct Hsilent as (n & ->). destruct Hd as (_ & _ & Hd & _). by eapply Hd. }
  apply bind_throw in Hbody as [H | (? & _ & Hbody)].
  { destruct Hsilent as (n & ->). destruct Hd as (_ & _ & _ & Hp & Hc & _).
    destruct (noteExists host _); [by eapply Hp | by eapply Hc]. }
  apply bind_throw in Hbody as [H | (? & _ & Hbody)]; [| done].
  destruct (autoOpenCreatedNotes settings && createdNoteIsFile host _); [| done].
  destruct Hsilent as (n & ->). destruct Hd as (_ & _ & _ & _ & _ & Ho & _). by eapply Ho.
Qed.

(** What the [try] block throws without a message comes from the host or
    from the callback. *)
Lemma processFileBody_throw (file : TFile) (e : JsThrown) :
  FileProcessor.processFileBody settings host file progressCallback = Throw e ->
  silent e -> ~ describedFailures host progressCallback.
Proof.
  unfold FileProcessor.processFileBody. intros Hbody Hsilent Hd.
  destruct (negb (FileProcessor.isSupportedFile _)); [done |].
  apply bind_throw in Hbody as [H | (? & _ & Hbody)];
    [by apply (notify_throw _ _ H Hsilent) |].
  apply bind_throw in Hbody as [H | (fileData & _ & Hbody)].
  { destruct Hsilent as (n & ->). destruct Hd as (Hr & _). by eapply Hr. }
  apply bind_throw in Hbody as [H | (? & _ & Hbody)];
    [by apply (notify_throw _ _ H Hsilent) |].
  apply bind_throw in Hbody as [H | (result & _ & Hbody)].
  { destruct (String.eqb _ "pdf");
      apply extractStructured_throw in H; done. }
  destruct (negb (Js.truthy (content result))); [done |].
  destruct (content result) as [| b | n | text | items | fields];
    try (injection Hbody as <-; by destruct Hsilent as (? & ?)).
  destruct (String.eqb (JsString.trim text) EmptyString); [done |].
  apply bind_throw in Hbody as [H | (? & _ & Hbody)];
    [by apply (notify_throw _ _ H Hsilent) |].
  apply bind_throw in Hbody as [H | (outputPath & _ & Hbody)];
    [by apply (createNote_throw _ _ _ _ H Hsilent) |].
  apply bind_throw in Hbody as [H | (? & _ & Hbody)]; [| done].
  destruct (moveFilesAfterProcessing settings); [| done].
  apply bind_throw in H as [H | (? & _ & H)];
    [by apply (notify_throw _ _ H Hsilent) |].
  by apply moveSourceFile_throw in H.
Qed.

(** What the [try] block returns is a success with the path of the note,
    or one of the two failures it words itself. *)
Lemma processFileBody_normal (file : TFile) (r : ProcessingResult) :
  FileProcessor.processFileBody settings host file progressCallback = Normal r ->
  (exists outputPath, r = {| success := true; filePath := Some outputPath; error := None |})
  \/ r = FileProcessor.failure
           ("Unsupported file type: " +:+ JsString.toLowerCase (extension file))
  \/ r = FileProcessor.failure "No text extracted from file".
Proof.
  unfold FileProcessor.processFileBody.
  destruct (negb (FileProcessor.isSupportedFile _)); [intros [= <-]; by right; left |].
  destruct (FileProcessor.notify _ _) as [? | ?]; [| done]. simpl.
  destruct (readBinary host file) as [fileData | ?]; [| done]. simpl.
  destruct (FileProcessor.notify _ _) as [? | ?]; [| done]. simpl.
  match goal with |- bindC ?c _ = _ -> _ => destruct c as [result | ?] end; [| done].
  simpl.
  destruct (negb (Js.truthy (content result))); [intros [= <-]; by right; right |].
  destruct (content result) as [| b | n | text | items | fields]; try done.
  destruct (String.eqb (JsString.trim text) EmptyString);
    [intros [= <-]; by right; right |].
  destruct (FileProcessor.notify _ _) as [? | ?]; [| done]. simpl.
  destruct (FileProcessor.createNote _ _ _ _ _) as [outputPath | ?]; [| done]. simpl.
  match goal with |- bindC ?c _ = _ -> _ => destruct c as [? | ?] end; [| done].
  simpl. intros [= <-]. left. by exists outputPath.
Qed.

End ProcessFileFacts.

Section Isolation.

Lemma processBatch_outcomes (processFile : TFile -> ProcessingResult) (files : list TFile)
    (concurrentWorkers : Z) (schedule : list nat) (m : gmap string ProcessingResult) :
  1 <= concurrentWorkers ->
  NoDup (path <$> files) ->
  Batch.processBatch processFile files concurrentWorkers schedule = Some m ->
  forall g, g ∈ files -> m !! path g = Some (processFile g).
Proof.
  intros Hw Hnd. unfold Batch.processBatch.
  destruct (Batch.resolved _) eqn:Hres; [| done]. intros [= <-].
  destruct (run_Steps processFile files schedule (Batch.start files concurrentWorkers))
    as (k & Hsteps).
  by apply (resolved_outcomes processFile files _ _ _ Hw Hnd Hsteps Hres).
Qed.

Lemma processBatch_no_workers (processFile : TFile -> ProcessingResult) (files : list TFile)
    (concurrentWorkers : Z) (schedule : list nat) (m : gmap string ProcessingResult) :
  concurrentWorkers <= 0 ->
  Batch.processBatch processFile files concurrentWorkers schedule = Some m ->
  m = ∅.
Proof.
  intros Hw. unfold Batch.processBatch.
  assert (Batch.start files concurrentWorkers = Batch.initial files) as ->.
  { unfold Batch.start. destruct (length files); [done |]. simpl.
    destruct (0 <? Z.min concurrentWorkers (Batch.totalFiles files)) eqn:Hlt; [| done].
    apply Z.ltb_lt in Hlt. lia. }
  assert (Batch.run processFile files schedule (Batch.initial files) = Batch.initial files)
    as ->.
  { induction schedule as [| w schedule IH]; [done |]. simpl. by rewrite IH. }
  simpl. by intros [= <-].
Qed.

Lemma two_files_resolve (processFile : TFile -> ProcessingResult) (schedule : list nat) :
  schedule = [0; 1; 0; 1]%nat \/ schedule = [1; 0; 1; 0]%nat ->
  Batch.processBatch processFile [sampleFile "a" "png"; sampleFile "b" "png"] 2 schedule
  = Some (results (Batch.run processFile [sampleFile "a" "png"; sampleFile "b" "png"]
                     schedule (Batch.start [sampleFile "a" "png"; sampleFile "b" "png"] 2))).
Proof.
  intros Hs. unfold Batch.processBatch. cbv zeta.
  assert (Batch.resolved
            (Batch.run processFile [sampleFile "a" "png"; sampleFile "b" "png"] schedule
               (Batch.start [sampleFile "a" "png"; sampleFile "b" "png"] 2)) = true) as ->;
    [| reflexivity].
  destruct Hs as [-> | ->]; reflexivity.
Qed.

End Isolation.
(** ** Choosing the files: [getSupportedFiles], the folder picker, MIME types *)

Section FileSelection.

Local Open Scope list_scope.

Lemma lowerChar_idempotent (c : ascii) :
  JsString.lowerChar (JsString.lowerChar c) = JsString.lowerChar c.
Proof. destruct c as [[] [] [] [] [] [] [] []]; reflexivity. Qed.

Lemma toLowerCase_idempotent (s : string) :
  JsString.toLowerCase (JsString.toLowerCase s) = JsString.toLowerCase s.
Proof.
  induction s as [| c s IH]; [done |].
  cbn [JsString.toLowerCase]. by rewrite IH, lowerChar_idempotent.
Qed.

Lemma toLowerCase_empty (s : string) :
  JsString.toLowerCase s = EmptyString -> s = EmptyString.
Proof. by destruct s. Qed.

Lemma startsWith_append_l (a b s : string) :
  JsString.startsWith (a +:+ b) s = true -> JsString.startsWith a s = true.
Proof.
  revert s. induction a as [| c a IH]; intros s; [done |].
  rewrite append_cons. destruct s as [| d s]; [done |]. cbn [JsString.startsWith].
  destruct (Ascii.eqb c d); [apply IH | done].
Qed.

Lemma startsWith_append_r (a b s : string) :
  JsString.startsWith (a +:+ b) s = true ->
  JsString.startsWith b (JsString.drop (String.length a) s) = true.
Proof.
  revert s. induction a as [| c a IH]; intros s; [by rewrite append_nil |].
  rewrite append_cons. destruct s as [| d s]; [done |].
  cbn [JsString.startsWith String.length JsString.drop].
  destruct (Ascii.eqb c d); [apply IH | done].
Qed.

(** Two names without slash that are followed by a slash at the start of
    the same text are the same name. *)
Lemma startsWith_segment (a b s : string) :
  JsString.mem "/" a = false -> JsString.mem "/" b = false ->
  JsString.startsWith (a +:+ "/") s = true ->
  JsString.startsWith (b +:+ "/") s = true ->
  a = b.
Proof.
  revert b s. induction a as [| x a IH]; intros b s Ha Hb Hsa Hsb.
  - destruct b as [| y b]; [done |]. exfalso.
    rewrite append_nil in Hsa. rewrite append_cons in Hsb.
    destruct s as [| d s]; [done |]. cbn [JsString.startsWith] in Hsa, Hsb.
    destruct (Ascii.eqb "/" d) eqn:H1; [| done]. apply Ascii.eqb_eq in H1. subst d.
    destruct (Ascii.eqb y "/") eqn:H2; [| done]. apply Ascii.eqb_eq in H2. subst y.
    cbn [JsString.mem] in Hb. by rewrite Ascii.eqb_refl in Hb.
  - rewrite append_cons in Hsa. destruct s as [| d s]; [done |].
    cbn [JsString.startsWith] in Hsa.
    destruct (Ascii.eqb x d) eqn:H1; [| done]. apply Ascii.eqb_eq in H1. subst d.
    cbn [JsString.mem] in Ha. destruct (Ascii.eqb "/" x) eqn:Hx; [done |].
    destruct b as [| y b].
    + exfalso. rewrite append_nil in Hsb. cbn [JsString.startsWith] in Hsb.
      by rewrite Hx in Hsb.
    + rewrite append_cons in Hsb. cbn [JsString.startsWith] in Hsb.
      destruct (Ascii.eqb y x) eqn:H2; [| done]. apply Ascii.eqb_eq in H2. subst y.
      cbn [JsString.mem] in Hb. rewrite Hx in Hb.
      f_equal. by apply (IH b s).
Qed.

Lemma filter_sublist_impl {A : Type} (p q : A -> bool) (l : list A) :
  (forall x, p x = true -> q x = true) ->
  sublist (List.filter p l) (List.filter q l).
Proof.
  intros Himpl. induction l as [| x l IH]; [constructor |]. cbn [List.filter].
  destruct (p x) eqn:Hp.
  - rewrite (Himpl x Hp). by constructor.
  - destruct (q x); [by constructor | done].
Qed.

Lemma filter_sublist {A : Type} (p : A -> bool) (l : list A) : sublist (List.filter p l) l.
Proof.
  induction l as [| x l IH]; [constructor |]. cbn [List.filter].
  destruct (p x); by constructor.
Qed.

Lemma elem_of_filter {A : Type} (p : A -> bool) (l : list A) (x : A) :
  x ∈ List.filter p l <-> x ∈ l /\ p x = true.
Proof. rewrite !list_elem_of_In. apply filter_In. Qed.

Lemma includes_empty (s : string) : JsString.includes EmptyString s = true.
Proof. by destruct s. Qed.

(** X1.  [getSupportedFiles] answers with files of the vault, in the
    order of the vault: exactly those whose path starts with the path of
    the folder followed by a slash and whose extension the plugin
    supports.  Each of them passes the test [processFile] makes on the
    lower-cased extension, so none is turned down as unsupported, and
    their number is the one the folder picker shows beside the folder. *)
Theorem getSupportedFiles_under_folder_and_supported
    (folderPath : string) (vaultFiles : list TFile) :
  let found := FileProcessor.getSupportedFiles folderPath vaultFiles in
  sublist found vaultFiles
  /\ (forall file,
         file ∈ found
         <-> file ∈ vaultFiles
             /\ JsString.startsWith (folderPath +:+ "/") (path file) = true
             /\ HandwritePlugin.isSupportedFile file = true)
  /\ (forall file,
         file ∈ found ->
         FileProcessor.isSupportedFile (JsString.toLowerCase (extension file)) = true)
  /\ length found = FolderSuggestModal.supportedCount folderPath vaultFiles.
Proof.
  intros found. subst found. unfold FileProcessor.getSupportedFiles. split_and!.
  - apply filter_sublist.
  - intros file. rewrite elem_of_filter, andb_true_iff. done.
  - intros file [_ [_ Hext]%andb_true_iff]%elem_of_filter.
    unfold FileProcessor.isSupportedFile. by rewrite toLowerCase_idempotent.
  - reflexivity.
Qed.

(** X2.  The slash after the folder's path keeps folders apart.  The
    files found for a subfolder are among those found for its parent, in
    the same order; and two folders of the same parent whose names differ
    share no file, also when one name is the beginning of the other. *)
Theorem getSupportedFiles_nested_and_siblings
    (parent name1 name2 : string) (vaultFiles : list TFile) :
  sublist (FileProcessor.getSupportedFiles (parent +:+ "/" +:+ name1) vaultFiles)
          (FileProcessor.getSupportedFiles parent vaultFiles)
  /\ (JsString.mem "/" name1 = false -> JsString.mem "/" name2 = false ->
      name1 <> name2 ->
      forall file,
        file ∈ FileProcessor.getSupportedFiles (parent +:+ "/" +:+ name1) vaultFiles ->
        file ∉ FileProcessor.getSupportedFiles (parent +:+ "/" +:+ name2) vaultFiles).
Proof.
  assert (forall name, (parent +:+ "/" +:+ name) +:+ "/"
                       = (parent +:+ "/") +:+ (name +:+ "/")) as Hshape.
  { intros name. rewrite !append_assoc. reflexivity. }
  split.
  - apply filter_sublist_impl. intros file [Hpath Hext]%andb_true_iff.
    rewrite Hext, andb_true_r. rewrite Hshape in Hpath.
    by apply startsWith_append_l in Hpath.
  - intros H1 H2 Hne file.
    unfold FileProcessor.getSupportedFiles. rewrite !elem_of_filter, !andb_true_iff.
    intros (_ & Hp1 & _) (_ & Hp2 & _). apply Hne.
    rewrite Hshape in Hp1, Hp2.
    apply startsWith_append_r in Hp1, Hp2.
    by apply (startsWith_segment name1 name2 _ H1 H2 Hp1 Hp2).
Qed.

Lemma getSupportedFiles_nested_and_siblings_witness :
  fileIn "in/a" "x" "png"
  ∉ FileProcessor.getSupportedFiles ("in" +:+ "/" +:+ "ab")
      [fileIn "in/a" "x" "png"; fileIn "in/ab" "y" "PNG"; fileIn "in/a" "z" "txt"].
Proof.
  destruct (getSupportedFiles_nested_and_siblings "in" "a" "ab"
              [fileIn "in/a" "x" "png"; fileIn "in/ab" "y" "PNG"; fileIn "in/a" "z" "txt"])
    as [_ Hsiblings].
  apply Hsiblings; [reflexivity | reflexivity | discriminate |].
  apply elem_of_cons. by left.
Defined.

Lemma filter_all {A : Type} (p : A -> bool) (l : list A) :
  (forall x, p x = true) -> List.filter p l = l.
Proof.
  intros Hp. induction l as [| x l IH]; [done |]. cbn [List.filter]. by rewrite Hp, IH.
Qed.

Lemma filter_ext_in {A : Type} (p q : A -> bool) (l : list A) :
  (forall x, p x = q x) -> List.filter p l = List.filter q l.
Proof.
  intros Hpq. induction l as [| x l IH]; [done |]. cbn [List.filter]. by rewrite Hpq, IH.
Qed.

(** The special case of the empty query is the general case. *)
Lemma getSuggestions_filter (query : string) (loaded : list TAbstractFile) :
  FolderSuggestModal.getSuggestions query loaded
  = firstn 20 (List.filter (FolderSuggestModal.matches query)
                 (FolderSuggestModal.loadedFolders loaded)).
Proof.
  unfold FolderSuggestModal.getSuggestions. destruct query as [| c query]; [| done].
  cbn [JsString.truthy negb]. rewrite filter_all; [done |].
  intros p. unfold FolderSuggestModal.matches. apply includes_empty.
Qed.

Lemma elem_of_loadedFolders (p : string) (loaded : list TAbstractFile) :
  p ∈ FolderSuggestModal.loadedFolders loaded <-> LoadedFolder p ∈ loaded.
Proof.
  unfold FolderSuggestModal.loadedFolders. rewrite list_elem_of_omap. split.
  - intros ([file | q] & Hin & Heq); [done |]. by injection Heq as ->.
  - intros Hin. by exists (LoadedFolder p).
Qed.

(** X3.  The folder picker shows the first twenty loaded folders whose
    path contains the query, both taken in lower case, in the order in
    which the vault lists them; the branch for an empty query gives
    nothing else, the empty text being part of every path.  So at most
    twenty folders are shown, each a loaded folder that matches; a
    matching folder is left out only when twenty are shown; and two
    queries that differ in case only show the same folders. *)
Theorem getSuggestions_first_twenty_matching
    (query : string) (loaded : list TAbstractFile) :
  let shown := FolderSuggestModal.getSuggestions query loaded in
  shown = firstn 20 (List.filter (FolderSuggestModal.matches query)
                       (FolderSuggestModal.loadedFolders loaded))
  /\ (length shown <= 20)%nat
  /\ sublist shown (FolderSuggestModal.loadedFolders loaded)
  /\ (forall p, p ∈ shown ->
                LoadedFolder p ∈ loaded /\ FolderSuggestModal.matches query p = true)
  /\ (forall p, LoadedFolder p ∈ loaded -> FolderSuggestModal.matches query p = true ->
                p ∉ shown -> length shown = 20%nat)
  /\ (forall other,
         JsString.toLowerCase other = JsString.toLowerCase query ->
         FolderSuggestModal.getSuggestions other loaded = shown).
Proof.
  intros shown. subst shown. rewrite getSuggestions_filter.
  set (folders := FolderSuggestModal.loadedFolders loaded).
  set (matching := List.filter (FolderSuggestModal.matches query) folders).
  split_and!.
  - done.
  - rewrite length_take. lia.
  - transitivity matching; [apply sublist_take | apply filter_sublist].
  - intros p Hp. apply (elem_of_sublist _ matching) in Hp; [| apply sublist_take].
    apply elem_of_filter in Hp as [Hp Hm]. split; [| done].
    by apply elem_of_loadedFolders.
  - intros p Hp Hm Hout. rewrite length_take.
    destruct (decide (length matching <= 20)%nat) as [Hle | Hgt]; [| lia].
    exfalso. apply Hout. rewrite take_ge by done.
    apply elem_of_filter. split; [| done]. by apply elem_of_loadedFolders.
  - intros other Hcase. rewrite getSuggestions_filter. fold folders.
    f_equal. apply filter_ext_in. intros p. unfold FolderSuggestModal.matches.
    by rewrite Hcase.
Qed.

Lemma getSuggestions_first_twenty_matching_witness :
  FolderSuggestModal.getSuggestions "NOTES"
    [LoadedFolder "Notes"; LoadedFile (fileIn "Notes" "a" "png"); LoadedFolder "Inbox";
     LoadedFolder "Inbox/old notes"]
  = FolderSuggestModal.getSuggestions "notes"
      [LoadedFolder "Notes"; LoadedFile (fileIn "Notes" "a" "png"); LoadedFolder "Inbox";
       LoadedFolder "Inbox/old notes"]
  /\ (LoadedFolder "Inbox/old notes"
      ∈ [LoadedFolder "Notes"; LoadedFile (fileIn "Notes" "a" "png"); LoadedFolder "Inbox";
         LoadedFolder "Inbox/old notes"]
      /\ FolderSuggestModal.matches "notes" "Inbox/old notes" = true).
Proof.
  destruct (getSuggestions_first_twenty_matching "notes"
              [LoadedFolder "Notes"; LoadedFile (fileIn "Notes" "a" "png");
               LoadedFolder "Inbox"; LoadedFolder "Inbox/old notes"])
    as (_ & _ & _ & Hshown & _ & Hcase).
  split.
  - apply Hcase. reflexivity.
  - apply Hshown. apply elem_of_cons. right. apply elem_of_cons. by left.
Defined.

(** X4.  For a supported extension other than [pdf], in any case of
    letters, the MIME type sent with the image is [image/] followed by
    the lower-cased extension, with [jpeg] for [jpg]: the fallback of
    [getMimeType] is never what decides the type of a supported file. *)
Theorem supported_image_mime_type (ext : string) :
  FileProcessor.isSupportedFile ext = true ->
  JsString.toLowerCase ext <> "pdf" ->
  FileProcessor.getMimeType ext
  = "image/" +:+ (if String.eqb (JsString.toLowerCase ext) "jpg" then "jpeg"
                  else JsString.toLowerCase ext).
Proof.
  unfold FileProcessor.isSupportedFile, FileProcessor.getMimeType,
    FileProcessor.includes, FileProcessor.supported.
  generalize (JsString.toLowerCase ext) as e. intros e Hin Hpdf.
  cbn [existsb] in Hin.
  destruct (String.eqb_spec e "pdf") as [He | _]; [done |].
  destruct (String.eqb_spec e "png") as [He | _]; [by subst e |].
  destruct (String.eqb_spec e "jpg") as [He | _]; [by subst e |].
  destruct (String.eqb_spec e "jpeg") as [He | _]; [by subst e |].
  destruct (String.eqb_spec e "webp") as [He | _]; [by subst e |].
  destruct (String.eqb_spec e "gif") as [He | _]; [by subst e |].
  done.
Qed.

Lemma supported_image_mime_type_witness :
  FileProcessor.getMimeType "JPG" = "image/jpeg"
  /\ FileProcessor.getMimeType "WebP" = "image/webp".
Proof.
  split.
  - apply (supported_image_mime_type "JPG"); [reflexivity | discriminate].
  - apply (supported_image_mime_type "WebP"); [reflexivity | discriminate].
Defined.

End FileSelection.
(** ** Relative paths: [getRelativePath] *)

Section RelativePaths.

Local Open Scope list_scope.

Lemma split_nonempty (s : string) : FileProcessor.split "/" s <> [].
Proof.
  destruct s as [| c s]; [done |]. cbn [FileProcessor.split].
  destruct (Ascii.eqb c "/"); [done |]. by destruct (FileProcessor.split "/" s).
Qed.

Lemma split_slashFree (s : string) : Forall slashFree (FileProcessor.split "/" s).
Proof.
  induction s as [| c s IH]; [by repeat constructor |]. cbn [FileProcessor.split].
  destruct (Ascii.eqb c "/") eqn:Hc; [by constructor |].
  destruct (FileProcessor.split "/" s) as [| p rest] eqn:Hs; [by apply split_nonempty in Hs |].
  inversion IH as [| ? ? Hp Hrest]; subst. constructor; [| done].
  unfold slashFree in *. cbn [JsString.mem]. by rewrite Ascii.eqb_sym, Hc.
Qed.

Lemma split_plain (p : string) : slashFree p -> FileProcessor.split "/" p = [p].
Proof.
  unfold slashFree. induction p as [| c p IH]; [done |]. cbn [JsString.mem FileProcessor.split].
  rewrite (Ascii.eqb_sym "/" c). destruct (Ascii.eqb c "/"); [done |].
  intros Hp. by rewrite IH.
Qed.

Lemma split_app (p t : string) :
  slashFree p -> FileProcessor.split "/" (p +:+ String "/" t) = p :: FileProcessor.split "/" t.
Proof.
  unfold slashFree. induction p as [| c p IH].
  - intros _. by rewrite append_nil.
  - cbn [JsString.mem]. rewrite (Ascii.eqb_sym "/" c), append_cons.
    cbn [FileProcessor.split]. destruct (Ascii.eqb c "/"); [done |].
    intros Hp. by rewrite IH.
Qed.

(** Joining segments without slash and splitting again gives them back. *)
Lemma split_join (parts : list string) :
  parts <> [] -> Forall slashFree parts ->
  FileProcessor.split "/" (JsString.join "/" parts) = parts.
Proof.
  induction parts as [| p rest IH]; [done |]. intros _ Hall.
  inversion Hall as [| ? ? Hp Hrest]; subst.
  destruct rest as [| q rest]; [by apply split_plain |].
  change (JsString.join "/" (p :: q :: rest))
    with (p +:+ "/" +:+ JsString.join "/" (q :: rest)).
  change ("/" +:+ JsString.join "/" (q :: rest))
    with (String "/" (JsString.join "/" (q :: rest))).
  rewrite split_app by done. f_equal. by apply IH.
Qed.

Lemma join_empty (parts : list string) :
  JsString.join "/" parts = EmptyString -> parts = [] \/ parts = [EmptyString].
Proof.
  destruct parts as [| p [| q rest]]; [by left | cbn [JsString.join]; intros ->; by right |].
  change (JsString.join "/" (p :: q :: rest))
    with (p +:+ "/" +:+ JsString.join "/" (q :: rest)).
  intros H. apply (f_equal String.length) in H. rewrite length_append in H.
  simpl in H. lia.
Qed.

Lemma commonPrefixLength_spec (a b : list string) :
  let n := FileProcessor.commonPrefixLength a b in
  firstn n a = firstn n b /\ (n <= length a)%nat /\ (n <= length b)%nat.
Proof.
  revert b. induction a as [| x a IH]; intros [| y b]; simpl; try (split_and!; done || lia).
  destruct (String.eqb_spec x y) as [-> | _]; simpl; [| split_and!; done || lia].
  destruct (IH b) as (Heq & Ha & Hb). split_and!; [by rewrite Heq | lia | lia].
Qed.

(** The length of the common prefix of two lists that part after it. *)
Lemma commonPrefixLength_app (common a b : list string) :
  head a <> head b ->
  FileProcessor.commonPrefixLength (common ++ a) (common ++ b) = length common.
Proof.
  intros Hne. induction common as [| x common IH].
  - destruct a as [| x a], b as [| y b]; try done. simpl.
    destruct (String.eqb_spec x y) as [-> | _]; done.
  - simpl. by rewrite String.eqb_refl, IH.
Qed.

Lemma followPath_up (dir up rest : list string) :
  followPath (dir ++ up) (repeat ".." (length up) ++ rest) = followPath dir rest.
Proof.
  induction up as [| x up IH] using rev_ind; [by rewrite app_nil_r |].
  rewrite length_app, Nat.add_comm. simpl. rewrite app_assoc, removelast_last.
  apply IH.
Qed.

Lemma followPath_down (dir down : list string) :
  Forall properSegment down -> followPath dir down = dir ++ down.
Proof.
  intros Hdown. revert dir. induction Hdown as [| seg down (_ & Hdot & Hup) _ IH]; intros dir.
  - by rewrite app_nil_r.
  - cbn [followPath].
    destruct (String.eqb_spec seg "..") as [-> | _]; [done |].
    destruct (String.eqb_spec seg ".") as [-> | _]; [done |].
    rewrite IH, <- app_assoc. done.
Qed.

(** X5.  The relative path leads from the folder of [from] to [to]:
    following it segment by segment, from the folder of the file at
    [from], ends at [to].  This holds for every [from], provided the
    segments of [to] are names (none is empty, [.] or [..]); when [to] is
    that folder itself the answer is [.]. *)
Theorem getRelativePath_leads_to_target (from to : string) :
  Forall properSegment (FileProcessor.split "/" to) ->
  followPath (removelast (FileProcessor.split "/" from))
    (FileProcessor.split "/" (FileProcessor.getRelativePath from to))
  = FileProcessor.split "/" to.
Proof.
  intros Hto. unfold FileProcessor.getRelativePath.
  set (fromParts := removelast (FileProcessor.split "/" from)).
  set (toParts := FileProcessor.split "/" to) in *.
  destruct (commonPrefixLength_spec fromParts toParts) as (Hcommon & Hfrom & Hlen).
  set (n := FileProcessor.commonPrefixLength fromParts toParts) in *.
  set (rel := repeat ".." (length fromParts - n) ++ skipn n toParts).
  assert (Forall properSegment (skipn n toParts)) as Hdown by (by apply Forall_drop).
  assert (followPath fromParts rel = toParts) as Hfollow.
  { subst rel. rewrite <- (firstn_skipn n fromParts) at 1.
    rewrite <- (length_skipn n fromParts), followPath_up, followPath_down by done.
    rewrite Hcommon. apply firstn_skipn. }
  destruct (JsString.join "/" rel) as [| c joined] eqn:Hjoin.
  - apply join_empty in Hjoin as [Hrel | Hrel].
    + rewrite Hrel in Hfollow. simpl in Hfollow. simpl. done.
    + exfalso. subst rel.
      destruct (length fromParts - n)%nat as [| k]; simpl in Hrel; [| by injection Hrel].
      rewrite Hrel in Hdown. inversion Hdown as [| ? ? (Hempty & _) _]. done.
  - rewrite <- Hjoin, split_join; [done | |].
    + intros Hrel. by rewrite Hrel in Hjoin.
    + subst rel. apply Forall_app. split.
      * apply Forall_forall. intros seg Hseg%list_elem_of_In%repeat_spec. by subst seg.
      * apply Forall_drop. apply split_slashFree.
Qed.

Lemma getRelativePath_leads_to_target_witness :
  followPath (removelast (FileProcessor.split "/" "Handwritten Notes/2024/scan.md"))
    (FileProcessor.split "/"
       (FileProcessor.getRelativePath "Handwritten Notes/2024/scan.md"
          "Processed Handwritten Files/scan.png"))
  = FileProcessor.split "/" "Processed Handwritten Files/scan.png".
Proof.
  apply getRelativePath_leads_to_target.
  repeat (constructor; [by split_and! |]). constructor.
Defined.

(** X6.  The shape of the relative path.  When the folder of [from] and
    [to] share the segments [common] and part after them, the answer
    goes up once for each further folder of [from] and then down the
    further segments of [to], all joined by slashes. *)
Theorem getRelativePath_up_then_down
    (common fromRest toRest : list string) (noteName : string) :
  Forall slashFree (common ++ fromRest ++ [noteName]) ->
  Forall slashFree toRest ->
  Forall (fun seg => seg <> EmptyString) toRest ->
  head fromRest <> head toRest ->
  common ++ toRest <> [] ->
  FileProcessor.getRelativePath
    (JsString.join "/" (common ++ fromRest ++ [noteName]))
    (JsString.join "/" (common ++ toRest))
  = JsString.join "/" (repeat ".." (length fromRest) ++ toRest).
Proof.
  intros Hfrom Hto Hnames Hpart Hsome. unfold FileProcessor.getRelativePath.
  rewrite split_join; [| | done].
  2:{ intros H. apply (f_equal length) in H. rewrite !length_app in H. simpl in H. lia. }
  rewrite split_join; [| done |].
  2:{ apply Forall_app. split; [| done]. by apply Forall_app in Hfrom as [? _]. }
  rewrite app_assoc, removelast_last.
  rewrite commonPrefixLength_app by done.
  rewrite length_app, Nat.add_comm, Nat.add_sub, drop_app_length.
  destruct (JsString.join "/" (repeat ".." (length fromRest) ++ toRest)) eqn:Hjoin; [| done].
  exfalso. apply join_empty in Hjoin as [Hrel | Hrel].
  - apply app_eq_nil in Hrel as [Hup ->]. destruct fromRest; done.
  - destruct fromRest as [| x fromRest]; simpl in Hrel; [| by injection Hrel].
    subst toRest. by inversion Hnames.
Qed.

Lemma getRelativePath_up_then_down_witness :
  FileProcessor.getRelativePath
    (JsString.join "/" ([] ++ ["Handwritten Notes"] ++ ["scan.md"]))
    (JsString.join "/" ([] ++ ["Processed Handwritten Files"; "scan.png"]))
  = JsString.join "/" (repeat ".." (length ["Handwritten Notes"])
                       ++ ["Processed Handwritten Files"; "scan.png"]).
Proof.
  apply getRelativePath_up_then_down; try done.
  - repeat (constructor; [reflexivity |]). constructor.
  - repeat (constructor; [reflexivity |]). constructor.
  - repeat (constructor; [discriminate |]). constructor.
Defined.

End RelativePaths.
(** ** The extraction client: what a reply is turned into *)

Section ObjectFacts.

Local Open Scope list_scope.

Lemma get_set_same (key : string) (v : JsValue) (fields : list (string * JsValue)) :
  Js.get key (Js.set key v fields) = Some v.
Proof.
  induction fields as [| [k w] rest IH]; simpl; [by rewrite String.eqb_refl |].
  destruct (String.eqb k key) eqn:Hk; simpl; by rewrite Hk.
Qed.

Lemma get_set_other (key other : string) (v : JsValue) (fields : list (string * JsValue)) :
  key <> other -> Js.get key (Js.set other v fields) = Js.get key fields.
Proof.
  intros Hne. induction fields as [| [k w] rest IH]; simpl.
  - destruct (String.eqb_spec other key) as [-> | _]; done.
  - destruct (String.eqb_spec k other) as [-> | Hko]; simpl.
    + destruct (String.eqb_spec other key) as [-> | _]; done.
    + destruct (String.eqb k key); done.
Qed.

Lemma get_none_keys (key : string) (fields : list (string * JsValue)) :
  Js.get key fields = None <-> key ∉ fst <$> fields.
Proof.
  induction fields as [| [k w] rest IH]; simpl.
  - split; [intros _ H; by apply elem_of_nil in H | done].
  - rewrite not_elem_of_cons. destruct (String.eqb_spec k key) as [-> | Hne].
    + split; [done | by intros [? _]].
    + rewrite IH. split; [by split | by intros [_ ?]].
Qed.

(** An assignment keeps the keys of an object distinct. *)
Lemma set_NoDup (key : string) (v : JsValue) (fields : list (string * JsValue)) :
  NoDup (fst <$> fields) -> NoDup (fst <$> Js.set key v fields).
Proof.
  induction fields as [| [k w] rest IH]; simpl.
  - intros _. apply NoDup_singleton.
  - rewrite NoDup_cons. intros [Hk Hrest].
    destruct (String.eqb_spec k key) as [-> | Hne]; simpl.
    + by apply NoDup_cons.
    + apply NoDup_cons. split; [| by apply IH].
      apply get_none_keys. rewrite get_set_other by done. by apply get_none_keys.
Qed.

(** The loop over the configured variables, on an object. *)
Lemma project_object (vars : list ExtractableVariable) (fields acc : list (string * JsValue)) :
  exists extracted,
    GeminiClient.project vars (JObject fields) acc = Normal extracted
    /\ (NoDup (fst <$> acc) -> NoDup (fst <$> extracted))
    /\ (forall key,
           Js.get key extracted
           = match Js.get key fields with
             | Some v => if bool_decide (key ∈ name <$> vars) then Some v else Js.get key acc
             | None => Js.get key acc
             end).
Proof.
  revert acc. induction vars as [| variable vars IH]; intros acc.
  - exists acc. split_and!; [done | done |]. intros key. by destruct (Js.get key fields).
  - cbn [GeminiClient.project GeminiClient.lookupIn bindC].
    destruct (IH (match Js.get (name variable) fields with
                  | Some v => Js.set (name variable) v acc
                  | None => acc
                  end)) as (extracted & Hrun & Hkeys & Hget).
    exists extracted. split_and!; [done | |].
    + intros Hacc. apply Hkeys. destruct (Js.get (name variable) fields); [| done].
      by apply set_NoDup.
    + intros key. rewrite Hget. rewrite fmap_cons.
      destruct (Js.get key fields) as [v |] eqn:Hv.
      * destruct (decide (key = name variable)) as [-> | Hne].
        -- rewrite Hv, get_set_same.
           rewrite (bool_decide_eq_true_2 (name variable ∈ name variable :: _))
             by (apply elem_of_cons; by left).
           by destruct (bool_decide _).
        -- assert (bool_decide (key ∈ name variable :: (name <$> vars))
                   = bool_decide (key ∈ name <$> vars)) as ->.
           { apply bool_decide_ext. rewrite elem_of_cons. split; [| by right].
             by intros [? | ?]. }
           destruct (bool_decide _); [done |].
           destruct (Js.get (name variable) fields); [| done].
           by rewrite get_set_other.
      * destruct (Js.get (name variable) fields) as [w |] eqn:Hw; [| done].
        apply get_set_other. intros ->. congruence.
Qed.

End ObjectFacts.

Section Extraction.

Variable generateContent : GenerateRequest -> Completion (option string).
Variable modelName : string.

(** The request [extractStructured] sends. *)
#[local] Abbreviation request mimeType data prompt vars :=
  {| reqModel := modelName;
     reqPrompt := GeminiClient.buildPrompt prompt vars;
     reqMimeType := mimeType;
     reqData := data |}.

Lemma extractStructured_object (label mimeType : string) (data : list ascii) (prompt : string)
    (vars : list ExtractableVariable) (text : string) (fields : list (string * JsValue)) :
  generateContent (request mimeType data prompt vars) = Normal (Some text) ->
  GeminiClient.parseJSONResponse (Some text) = Normal (JObject fields) ->
  exists extracted,
    GeminiClient.extractStructured generateContent modelName label mimeType data prompt vars
    = Normal {| content :=
                  match Js.get "content" fields with
                  | Some v => if Js.truthy v then v else JString EmptyString
                  | None => JString EmptyString
                  end;
                extractedVariables := extracted |}
    /\ NoDup (fst <$> extracted)
    /\ (forall key,
           Js.get key extracted
           = if bool_decide (key ∈ name <$> vars) then Js.get key fields else None).
Proof.
  intros Hreply Hparse.
  destruct (project_object vars fields []) as (extracted & Hrun & Hkeys & Hget).
  exists extracted. split_and!.
  - unfold GeminiClient.extractStructured. rewrite Hreply. cbn [bindC].
    rewrite Hparse. cbn [bindC GeminiClient.contentOf].
    destruct (Js.get "content" fields); cbn [bindC]; rewrite Hrun; reflexivity.
  - apply Hkeys. constructor.
  - intros key. rewrite Hget. simpl.
    destruct (Js.get key fields); [done |]. by destruct (bool_decide _).
Qed.

Lemma extractStructured_failure (label mimeType : string) (data : list ascii) (prompt : string)
    (vars : list ExtractableVariable) :
  (forall thrown,
      generateContent (request mimeType data prompt vars) = Throw thrown ->
      GeminiClient.extractStructured generateContent modelName label mimeType data prompt vars
      = Throw (Js.newError (label +:+ Js.throwToString thrown)))
  /\ (generateContent (request mimeType data prompt vars) = Normal None
      \/ generateContent (request mimeType data prompt vars) = Normal (Some EmptyString) ->
      GeminiClient.extractStructured generateContent modelName label mimeType data prompt vars
      = Throw (Js.newError (label +:+ "Error: No response text received")))
  /\ (forall thrown,
         GeminiClient.extractStructured generateContent modelName label mimeType data prompt vars
         = Throw thrown ->
         exists detail, thrown = ThrownError "Error" (label +:+ detail)).
Proof.
  unfold GeminiClient.extractStructured. split_and!.
  - intros thrown ->. reflexivity.
  - intros [-> | ->]; reflexivity.
  - intros thrown. unfold tryCatch.
    match goal with |- match ?c with _ => _ end = _ -> _ => destruct c as [r | e] end;
      [done |].
    intros [= <-]. by eexists.
Qed.

(** X7.  What a reply that decodes to an object is turned into, for an
    image and for a PDF alike, when no configured variable bears a name
    that every object inherits ([constructor], [toString], ...) and the
    [content] of the reply is not a number.  The extraction succeeds.
    Its content is the [content] of the reply, or the empty string when
    the reply has none or a falsy one.  Its variables are the configured
    names that the reply has, each with the reply's value and each once:
    a key of the reply that is not configured is dropped, and a
    configured name the reply lacks is absent rather than empty. *)
Theorem extraction_of_object_reply (data : list ascii) (mimeType prompt : string)
    (vars : list ExtractableVariable) (text : string) (fields : list (string * JsValue)) :
  GeminiClient.parseJSONResponse (Some text) = Normal (JObject fields) ->
  Forall ownName vars ->
  (forall literal, Js.get "content" fields <> Some (JNumber literal)) ->
  let extraction extracted :=
    Normal {| content :=
                match Js.get "content" fields with
                | Some v => if Js.truthy v then v else JString EmptyString
                | None => JString EmptyString
                end;
              extractedVariables := extracted |} in
  let projected (extracted : list (string * JsValue)) :=
    NoDup (fst <$> extracted)
    /\ forall key,
         Js.get key extracted
         = if bool_decide (key ∈ name <$> vars) then Js.get key fields else None in
  (generateContent (request mimeType data prompt vars) = Normal (Some text) ->
   exists extracted,
     GeminiClient.extractStructuredTextFromImage generateContent modelName
       data mimeType prompt vars = extraction extracted
     /\ projected extracted)
  /\ (generateContent (request "application/pdf" data prompt vars) = Normal (Some text) ->
      exists extracted,
        GeminiClient.extractStructuredTextFromPDF generateContent modelName
          data prompt vars = extraction extracted
        /\ projected extracted).
Proof.
  intros Hparse _ _ extraction projected. split; intros Hreply.
  - destruct (extractStructured_object "Failed to process image: " _ _ _ _ _ _ Hreply Hparse)
      as (extracted & Hrun & Hkeys & Hget).
    by exists extracted.
  - destruct (extractStructured_object "Failed to process PDF: " _ _ _ _ _ _ Hreply Hparse)
      as (extracted & Hrun & Hkeys & Hget).
    by exists extracted.
Qed.

(** X8.  Every failure of an extraction is an [Error] whose message
    starts with the label of the kind of file, [Failed to process image: ]
    or [Failed to process PDF: ].  What follows the label is the thrown
    value as a string when the backend call throws, and
    [Error: No response text received] when the backend answers without
    text or with the empty text. *)
Theorem extraction_failures_carry_label (data : list ascii) (mimeType prompt : string)
    (vars : list ExtractableVariable) :
  let image :=
    GeminiClient.extractStructuredTextFromImage generateContent modelName
      data mimeType prompt vars in
  let pdf :=
    GeminiClient.extractStructuredTextFromPDF generateContent modelName data prompt vars in
  (forall thrown,
      image = Throw thrown ->
      exists detail, thrown = ThrownError "Error" ("Failed to process image: " +:+ detail))
  /\ (forall thrown,
         pdf = Throw thrown ->
         exists detail, thrown = ThrownError "Error" ("Failed to process PDF: " +:+ detail))
  /\ (forall thrown,
         generateContent (request mimeType data prompt vars) = Throw thrown ->
         image = Throw (Js.newError ("Failed to process image: " +:+ Js.throwToString thrown)))
  /\ (forall thrown,
         generateContent (request "application/pdf" data prompt vars) = Throw thrown ->
         pdf = Throw (Js.newError ("Failed to process PDF: " +:+ Js.throwToString thrown)))
  /\ (generateContent (request mimeType data prompt vars) = Normal None
      \/ generateContent (request mimeType data prompt vars) = Normal (Some EmptyString) ->
      image = Throw (Js.newError "Failed to process image: Error: No response text received"))
  /\ (generateContent (request "application/pdf" data prompt vars) = Normal None
      \/ generateContent (request "application/pdf" data prompt vars)
         = Normal (Some EmptyString) ->
      pdf = Throw (Js.newError "Failed to process PDF: Error: No response text received")).
Proof.
  intros image pdf. subst image pdf.
  destruct (extractStructured_failure "Failed to process image: " mimeType data prompt vars)
    as (Hthrow1 & Hnone1 & Hlabel1).
  destruct (extractStructured_failure "Failed to process PDF: " "application/pdf"
              data prompt vars) as (Hthrow2 & Hnone2 & Hlabel2).
  split_and!; done.
Qed.

End Extraction.

Section ExtractionExamples.

Lemma extraction_of_object_reply_witness :
  exists extracted,
    GeminiClient.extractStructuredTextFromImage (fun _ => Normal (Some replyWithJsonFence))
      "gemini-2.5-flash" [] "image/png" "Transcribe." (extractableVariables DEFAULT_SETTINGS)
    = Normal {| content := JString "hi"; extractedVariables := extracted |}
    /\ Js.get "tags" extracted = None.
Proof.
  destruct (extraction_of_object_reply (fun _ => Normal (Some replyWithJsonFence))
              "gemini-2.5-flash" [] "image/png" "Transcribe."
              (extractableVariables DEFAULT_SETTINGS) replyWithJsonFence
              [("content", JString "hi")]) as [Himage _].
  - vm_compute. reflexivity.
  - repeat constructor. apply (bool_decide_unpack _). vm_compute. reflexivity.
  - intros literal. discriminate.
  - destruct (Himage eq_refl) as (extracted & Hrun & _ & Hget).
    exists extracted. split; [exact Hrun |]. rewrite Hget. reflexivity.
Defined.

Lemma extraction_failures_carry_label_witness :
  GeminiClient.extractStructuredTextFromPDF
    (fun _ => Throw (ThrownError "ApiError" "quota exceeded")) "gemini-2.5-flash"
    [] "Transcribe." []
  = Throw (Js.newError "Failed to process PDF: ApiError: quota exceeded")
  /\ GeminiClient.extractStructuredTextFromImage
       (fun _ => Normal None) "gemini-2.5-flash" [] "image/png" "Transcribe." []
     = Throw (Js.newError "Failed to process image: Error: No response text received").
Proof.
  split.
  - destruct (extraction_failures_carry_label
                (fun _ => Throw (ThrownError "ApiError" "quota exceeded")) "gemini-2.5-flash"
                [] "image/png" "Transcribe." []) as (_ & _ & _ & Hpdf & _).
    apply (Hpdf (ThrownError "ApiError" "quota exceeded")). reflexivity.
  - destruct (extraction_failures_carry_label
                (fun _ => Normal None) "gemini-2.5-flash" [] "image/png" "Transcribe." [])
      as (_ & _ & _ & _ & Himage & _).
    apply Himage. by left.
Defined.

End ExtractionExamples.
(** ** The batch: callbacks, order, bounds *)

Section BatchReportFacts.

Local Open Scope list_scope.

Variable processFile : TFile -> ProcessingResult.
Variable files : list TFile.

#[local] Abbreviation Rep := (BatchReports processFile files).

Lemma reports_initial : Rep (Batch.initial files).
Proof.
  split; simpl; try done.
  - by exists [].
Qed.

Lemma workers_at_most_one (l1 l2 : list Worker) (x : Worker) :
  (length (l1 ++ x :: l2) <= 1)%nat -> l1 = [] /\ l2 = [].
Proof.
  rewrite length_app. simpl. intros H.
  split; apply nil_length_inv; lia.
Qed.

Lemma reports_spawn (st : BatchState) : Rep st -> Rep (Batch.spawnWorker files st).
Proof.
  intros [Ho Hs Hc Hl H1]. unfold Batch.spawnWorker, Batch.enterLoop, Batch.processNextBegin.
  destruct (queue st) as [| file rest] eqn:Hq; split; simpl;
    rewrite ?Hq, ?awaited_app, ?length_app; simpl; rewrite ?app_nil_r; try done.
  - rewrite Hc. lia.
  - intros Hone. rewrite app_nil_r in H1. apply H1. lia.
  - destruct Hs as (started & Hs). exists (started ++ [file]). by rewrite <- app_assoc.
  - rewrite Hc. lia.
  - intros Ha. by apply app_eq_nil in Ha as [_ ?].
  - intros Hone. assert (workers st = []) as Hnil by (apply nil_length_inv; lia).
    rewrite Hnil in *. simpl in *. apply H1. lia.
Qed.

Lemma reports_spawnLoop (fuel : nat) (i bound : Z) (st : BatchState) :
  Rep st -> Rep (Batch.spawnLoop files fuel i bound st).
Proof.
  revert i st. induction fuel as [| fuel IH]; intros i st Hrep; simpl; [done |].
  destruct (i <? bound); [| done]. apply IH. by apply reports_spawn.
Qed.

Lemma reports_step (w : nat) (st st' : BatchState) :
  Rep st -> Batch.step processFile files w st = Some st' -> Rep st'.
Proof.
  intros [Ho Hs Hc Hl H1] Hstep.
  destruct (step_cases _ _ _ _ _ Hstep)
    as (l1 & l2 & [(Hw & Hq & ->) | [(file & rest & Hw & Hq & ->) | (file & Hw & ->)]]).
  - assert (awaited (l1 ++ Returned :: l2) = awaited (workers st)) as Ha
        by (by rewrite Hw, !awaited_app).
    split; simpl; rewrite ?Ha; try done.
    intros Hone. apply H1. by rewrite Hw, length_app in *.
  - unfold Batch.enterLoop, Batch.processNextBegin. rewrite Hq. simpl.
    rewrite Hw, awaited_app in Hc, H1. rewrite Hq in Hs, H1. simpl in Hc, H1.
    rewrite length_app in Hc.
    split; simpl; rewrite ?awaited_app, ?length_app; simpl.
    + done.
    + destruct Hs as (started & Hs). exists (started ++ [file]).
      by rewrite <- app_assoc.
    + rewrite Hc. lia.
    + intros Ha. apply app_eq_nil in Ha as [_ Ha]. done.
    + intros Hone. destruct (workers_at_most_one l1 l2 (Awaiting file)) as [-> ->].
      { by rewrite length_app. }
      simpl in *. apply H1. lia.
  - rewrite Hw, awaited_app in Hc, Hl, H1. simpl in Hc, H1.
    rewrite length_app in Hc. simpl in Hc.
    split; simpl; rewrite ?awaited_app, ?length_app; simpl.
    + apply Forall_app. split; [done |]. by constructor.
    + done.
    + rewrite Hc. lia.
    + intros _ _. by rewrite last_snoc.
    + intros Hone. destruct (workers_at_most_one l1 l2 AtLoopTest) as [-> ->].
      { by rewrite length_app. }
      simpl in *. rewrite fmap_app. simpl. rewrite <- app_assoc. apply H1. lia.
Qed.

Lemma reports_Steps (st st' : BatchState) (k : nat) :
  Rep st -> Batch.Steps processFile files st k st' -> Rep st'.
Proof.
  intros Hrep Hsteps. induction Hsteps as [| st w st1 k st2 Hs _ IH]; [done |].
  apply IH. by eapply reports_step.
Qed.

Lemma reports_start (concurrentWorkers : Z) : Rep (Batch.start files concurrentWorkers).
Proof. apply reports_spawnLoop, reports_initial. Qed.

End BatchReportFacts.

Section BatchReportClaims.

Local Open Scope list_scope.

Variable processFile : TFile -> ProcessingResult.
Variable files : list TFile.

Lemma inFlight_length (st : BatchState) :
  (length (Batch.inFlight st) <= length (workers st))%nat.
Proof.
  unfold Batch.inFlight. induction (workers st) as [| [| file |] ws IH]; csimpl; simpl; lia.
Qed.

(** X9.  The two callbacks of a batch, for a configured count of at
    least 1.  When the batch has resolved, whatever the order of
    resumptions was, the result callback has been called once for each
    input file, each time with that file's own outcome; the progress
    callback has been called twice per file; and, unless the list is
    empty, its last call reports every file completed and no current
    file, so that the status line of the dialog reads [Completed: n / n]. *)
Theorem callbacks_when_batch_resolves (concurrentWorkers : Z) (k : nat) (st : BatchState) :
  1 <= concurrentWorkers ->
  Batch.Steps processFile files (Batch.start files concurrentWorkers) k st ->
  Batch.resolved st = true ->
  fst <$> resultLog st ≡ₚ files
  /\ Forall (fun entry => snd entry = processFile (fst entry)) (resultLog st)
  /\ length (progressLog st) = (2 * length files)%nat
  /\ (files <> [] ->
      exists report,
        last (progressLog st) = Some report
        /\ report = {| current := Z.of_nat (length files);
                       total := Z.of_nat (length files);
                       currentFile := EmptyString |}
        /\ ProcessingModal.statusText report
           = "Completed: " +:+ JsNumber.toString (Z.of_nat (length files))
             +:+ " / " +:+ JsNumber.toString (Z.of_nat (length files))).
Proof.
  intros Hw Hsteps Hres.
  destruct (resolved_complete processFile files _ _ _ Hw Hsteps Hres)
    as (Hq & Ha & Hperm & _).
  pose proof (invariant_Steps _ _ _ _ _ (invariant_start processFile files concurrentWorkers)
                Hsteps) as [_ _ _ _ Hcompleted _].
  pose proof (reports_Steps _ _ _ _ _ (reports_start processFile files concurrentWorkers)
                Hsteps) as [Ho _ Hc Hl _].
  assert (length (resultLog st) = length files) as Hlen.
  { by rewrite Hperm, length_fmap. }
  split_and!.
  - done.
  - done.
  - rewrite Hc, Ha, Hlen. simpl. lia.
  - intros Hne. eexists. split; [| split; [reflexivity |]].
    + rewrite Hl; [| done |].
      * rewrite Hcompleted, Hlen. reflexivity.
      * intros Hnil. rewrite Hnil in Hlen. symmetry in Hlen.
        by apply nil_length_inv in Hlen.
    + reflexivity.
Qed.

(** X10.  The queue is emptied in the order of the input.  At every
    moment of a batch the queue is the rest of the input list, and the
    files before it are those already reported or in flight.  With a
    configured count of 1 the files are processed one after the other in
    the order of the input, so the result callback sees them in that
    order. *)
Theorem files_taken_in_input_order (concurrentWorkers : Z) (k : nat) (st : BatchState) :
  Batch.Steps processFile files (Batch.start files concurrentWorkers) k st ->
  (exists started,
      files = started ++ queue st
      /\ started ≡ₚ (fst <$> resultLog st) ++ Batch.inFlight st)
  /\ (concurrentWorkers <= 1 ->
      files = (fst <$> resultLog st) ++ Batch.inFlight st ++ queue st)
  /\ (concurrentWorkers = 1 -> Batch.resolved st = true ->
      fst <$> resultLog st = files).
Proof.
  intros Hsteps.
  pose proof (invariant_Steps _ _ _ _ _ (invariant_start processFile files concurrentWorkers)
                Hsteps) as [Hfiles _ _ _ _ _].
  pose proof (reports_Steps _ _ _ _ _ (reports_start processFile files concurrentWorkers)
                Hsteps) as [_ (started & Hs) _ _ H1].
  assert (concurrentWorkers <= 1 ->
          files = (fst <$> resultLog st) ++ Batch.inFlight st ++ queue st) as Hone.
  { intros Hw. apply H1.
    rewrite (Steps_workers_length _ _ _ _ _ Hsteps), start_workers. lia. }
  split_and!.
  - exists started. split; [done |].
    rewrite Hs in Hfiles at 1. rewrite app_assoc in Hfiles.
    by apply Permutation_app_inv_r in Hfiles.
  - done.
  - intros -> Hres.
    destruct (resolved_complete processFile files 1 k st ltac:(lia) Hsteps Hres)
      as (Hq & Ha & _).
    pose proof (Hone ltac:(lia)) as Hall. unfold Batch.inFlight in Hall.
    fold (awaited (workers st)) in Hall. by rewrite Ha, Hq, !app_nil_r in Hall.
Qed.

(** X11.  The bound on concurrency.  At every moment of a batch the
    files in flight are no more than the workers started, hence no more
    than the configured count nor than the number of files; and every
    input file is in exactly one place: reported, in flight, or still
    queued. *)
Theorem in_flight_within_configured_count
    (concurrentWorkers : Z) (k : nat) (st : BatchState) :
  Batch.Steps processFile files (Batch.start files concurrentWorkers) k st ->
  (length (Batch.inFlight st)
   <= Z.to_nat (Z.min concurrentWorkers (Z.of_nat (length files))))%nat
  /\ (0 <= concurrentWorkers -> Z.of_nat (length (Batch.inFlight st)) <= concurrentWorkers)
  /\ (length (resultLog st) + length (Batch.inFlight st) + length (queue st)
      = length files)%nat
  /\ completed st = Z.of_nat (length (resultLog st)).
Proof.
  intros Hsteps.
  pose proof (invariant_Steps _ _ _ _ _ (invariant_start processFile files concurrentWorkers)
                Hsteps) as [Hfiles _ _ _ Hcompleted _].
  pose proof (inFlight_length st) as Hbound.
  rewrite (Steps_workers_length _ _ _ _ _ Hsteps), start_workers in Hbound.
  split_and!; [done | lia | | done].
  apply Permutation_length in Hfiles.
  rewrite !length_app, length_fmap in Hfiles. unfold Batch.inFlight.
  fold (awaited (workers st)). lia.
Qed.

End BatchReportClaims.

Section BatchReportExamples.

Local Open Scope list_scope.

Lemma callbacks_when_batch_resolves_witness :
  length (progressLog
            (Batch.run (outcomeWith replyWithJsonFence)
               [sampleFile "a" "png"; sampleFile "b" "png"] [0; 1; 0; 1]%nat
               (Batch.start [sampleFile "a" "png"; sampleFile "b" "png"] 2)))
  = (2 * length [sampleFile "a" "png"; sampleFile "b" "png"])%nat.
Proof.
  destruct (run_Steps (outcomeWith replyWithJsonFence)
              [sampleFile "a" "png"; sampleFile "b" "png"] [0; 1; 0; 1]%nat
              (Batch.start [sampleFile "a" "png"; sampleFile "b" "png"] 2)) as (k & Hsteps).
  destruct (callbacks_when_batch_resolves _ _ 2 k _ ltac:(lia) Hsteps) as (_ & _ & Hcount & _).
  - reflexivity.
  - exact Hcount.
Defined.

Lemma files_taken_in_input_order_witness :
  fst <$> resultLog
            (Batch.run (outcomeWith replyWithJsonFence)
               [sampleFile "a" "png"; sampleFile "b" "png"] [0; 0; 0; 0]%nat
               (Batch.start [sampleFile "a" "png"; sampleFile "b" "png"] 1))
  = [sampleFile "a" "png"; sampleFile "b" "png"].
Proof.
  destruct (run_Steps (outcomeWith replyWithJsonFence)
              [sampleFile "a" "png"; sampleFile "b" "png"] [0; 0; 0; 0]%nat
              (Batch.start [sampleFile "a" "png"; sampleFile "b" "png"] 1)) as (k & Hsteps).
  destruct (files_taken_in_input_order _ _ 1 k _ Hsteps) as (_ & _ & Horder).
  apply Horder; reflexivity.
Defined.

Lemma in_flight_within_configured_count_witness :
  Z.of_nat (length (Batch.inFlight
                      (Batch.run (outcomeWith replyWithJsonFence)
                         [sampleFile "a" "png"; sampleFile "b" "png"; sampleFile "c" "png"]
                         [0; 1; 0]%nat
                         (Batch.start
                            [sampleFile "a" "png"; sampleFile "b" "png"; sampleFile "c" "png"]
                            2)))) <= 2.
Proof.
  destruct (run_Steps (outcomeWith replyWithJsonFence)
              [sampleFile "a" "png"; sampleFile "b" "png"; sampleFile "c" "png"]
              [0; 1; 0]%nat
              (Batch.start [sampleFile "a" "png"; sampleFile "b" "png"; sampleFile "c" "png"] 2))
    as (k & Hsteps).
  destruct (in_flight_within_configured_count _ _ 2 k _ Hsteps) as (_ & Hbound & _).
  apply Hbound. lia.
Defined.

End BatchReportExamples.
(** ** The summary of the processing dialog *)

Section Summary.

Local Open Scope list_scope.

Lemma filter_length_perm {A : Type} (p : A -> bool) (l1 l2 : list A) :
  l1 ≡ₚ l2 -> length (List.filter p l1) = length (List.filter p l2).
Proof.
  induction 1 as [| x l1 l2 _ IH | x y l | l1 l2 l3 _ IH1 _ IH2]; simpl.
  - done.
  - destruct (p x); simpl; by rewrite IH.
  - destruct (p x), (p y); done.
  - by rewrite IH1.
Qed.

Lemma filter_length_fmap {A B : Type} (p : B -> bool) (f : A -> B) (l : list A) :
  length (List.filter p (f <$> l)) = length (List.filter (fun x => p (f x)) l).
Proof.
  induction l as [| x l IH]; [done |]. rewrite fmap_cons. cbn [List.filter].
  destruct (p (f x)); cbn [length]; by rewrite IH.
Qed.

Lemma filter_length_split {A : Type} (p : A -> bool) (l : list A) :
  (length (List.filter p l) + length (List.filter (fun x => negb (p x)) l) = length l)%nat.
Proof.
  induction l as [| x l IH]; [done |]. simpl. destruct (p x); simpl; lia.
Qed.

(** A map with one entry per file, the file's outcome, lists these
    outcomes in some order. *)
Lemma outcomes_of_map (processFile : TFile -> ProcessingResult) (files : list TFile)
    (m : gmap string ProcessingResult) :
  NoDup (path <$> files) ->
  dom m = pathsOf files ->
  (forall f, f ∈ files -> m !! path f = Some (processFile f)) ->
  snd <$> map_to_list m ≡ₚ processFile <$> files.
Proof.
  intros Hnd Hdom Hvalues.
  set (l := (fun f => (path f, processFile f)) <$> files).
  assert (fst <$> l = path <$> files) as Hkeys.
  { subst l. rewrite <- list_fmap_compose. done. }
  assert (m = list_to_map l) as ->.
  { apply map_eq. intros p.
    destruct (list_to_map l !! p) as [r |] eqn:Hp.
    - apply elem_of_list_to_map in Hp; [| by rewrite Hkeys].
      apply list_elem_of_fmap in Hp as (f & [= -> ->] & Hf). by apply Hvalues.
    - apply not_elem_of_list_to_map in Hp. rewrite Hkeys in Hp.
      apply not_elem_of_dom. rewrite Hdom. unfold pathsOf.
      by rewrite elem_of_list_to_set. }
  rewrite map_to_list_to_map by (by rewrite Hkeys).
  subst l. rewrite <- list_fmap_compose. done.
Qed.

(** X12.  The summary line of the dialog.  After a batch with a
    configured count of at least 1, the number it gives as successful and
    the number it gives as failed add up to the number of distinct paths
    among the input files.  When the paths differ, the first is the
    number of input files whose processing succeeded, and the second the
    number of those whose processing failed. *)
Theorem summary_counts_the_outcomes
    (processFile : TFile -> ProcessingResult) (files : list TFile)
    (concurrentWorkers : Z) (schedule : list nat) (m : gmap string ProcessingResult) :
  1 <= concurrentWorkers ->
  Batch.processBatch processFile files concurrentWorkers schedule = Some m ->
  ProcessingModal.successful m + ProcessingModal.failed m
  = Z.of_nat (size (pathsOf files))
  /\ 0 <= ProcessingModal.failed m
  /\ (NoDup (path <$> files) ->
      ProcessingModal.successful m
      = Z.of_nat (length (List.filter (fun f => success (processFile f)) files))
      /\ ProcessingModal.failed m
         = Z.of_nat (length (List.filter (fun f => negb (success (processFile f))) files))).
Proof.
  intros Hw Hbatch.
  assert (dom m = pathsOf files) as Hdom.
  { revert Hbatch. unfold Batch.processBatch.
    destruct (Batch.resolved _) eqn:Hres; [| done]. intros [= <-].
    destruct (run_Steps processFile files schedule (Batch.start files concurrentWorkers))
      as (k & Hsteps).
    by destruct (resolved_complete processFile files _ _ _ Hw Hsteps Hres) as (_ & _ & _ & ?). }
  assert (ProcessingModal.successful m <= Z.of_nat (size m)) as Hle.
  { unfold ProcessingModal.successful.
    pose proof (filter_length_split success (snd <$> map_to_list m)) as Hsplit.
    rewrite length_fmap, length_map_to_list in Hsplit. lia. }
  unfold ProcessingModal.failed. split_and!.
  - rewrite <- Hdom, size_dom. lia.
  - lia.
  - intros Hnd.
    pose proof (outcomes_of_map processFile files m Hnd Hdom
                  (processBatch_outcomes processFile files _ _ m Hw Hnd Hbatch)) as Hperm.
    assert (ProcessingModal.successful m
            = Z.of_nat (length (List.filter (fun f => success (processFile f)) files)))
      as Hsucc.
    { unfold ProcessingModal.successful.
      by rewrite (filter_length_perm _ _ _ Hperm), filter_length_fmap. }
    split; [done |]. rewrite Hsucc.
    assert (size m = length files) as ->.
    { rewrite <- size_dom, Hdom. unfold pathsOf.
      rewrite size_list_to_set by done. by rewrite length_fmap. }
    pose proof (filter_length_split (fun f => success (processFile f)) files). lia.
Qed.

Lemma summary_counts_the_outcomes_witness :
  ProcessingModal.successful
    (results (Batch.run (failingOn "b" (outcomeWith replyWithJsonFence))
                [sampleFile "a" "png"; sampleFile "b" "png"] [1; 0; 1; 0]%nat
                (Batch.start [sampleFile "a" "png"; sampleFile "b" "png"] 2)))
  = Z.of_nat (length (List.filter
                        (fun f => success (failingOn "b" (outcomeWith replyWithJsonFence) f))
                        [sampleFile "a" "png"; sampleFile "b" "png"])).
Proof.
  destruct (summary_counts_the_outcomes (failingOn "b" (outcomeWith replyWithJsonFence))
              [sampleFile "a" "png"; sampleFile "b" "png"] 2 [1; 0; 1; 0]%nat
              (results (Batch.run (failingOn "b" (outcomeWith replyWithJsonFence))
                          [sampleFile "a" "png"; sampleFile "b" "png"] [1; 0; 1; 0]%nat
                          (Batch.start [sampleFile "a" "png"; sampleFile "b" "png"] 2))))
    as (_ & _ & Hcounts).
  - lia.
  - apply two_files_resolve. by right.
  - destruct Hcounts as [Hsucc _]; [| exact Hsucc].
    apply NoDup_cons. split.
    + intros Hin. apply list_elem_of_singleton in Hin. discriminate Hin.
    + apply NoDup_singleton.
Defined.

End Summary.
(** ** The renderer: text without tokens, single tokens, shadowed names *)

Section TokenFreeText.

Local Open Scope list_scope.

Lemma find_none_startsWith (p s : string) (k : nat) :
  JsString.find p s = None -> JsString.startsWith p (JsString.drop k s) = false.
Proof.
  revert k. induction s as [| c s IH]; intros k; cbn [JsString.find].
  - destruct (JsString.startsWith p EmptyString) eqn:Hp; [done |]. by destruct k.
  - destruct (JsString.startsWith p (String c s)) eqn:Hp; [done |].
    destruct (JsString.find p s) eqn:Hf; [done |]. intros _.
    destruct k as [| k]; [done |]. by apply IH.
Qed.

Lemma includes_false_find (p s : string) :
  JsString.includes p s = false -> JsString.find p s = None.
Proof. unfold JsString.includes. by destruct (JsString.find p s). Qed.

Lemma tokenFree_without_opener (s : string) :
  JsString.includes "{{" s = false -> tokenFree s.
Proof.
  intros Hs%includes_false_find key k. unfold Regex.tokenLength.
  by rewrite (find_none_startsWith _ _ k Hs).
Qed.

Lemma tokenFree_token (key repl s before : string) :
  tokenFree s -> Regex.scan (Regex.token key) repl O before s = s.
Proof.
  intros Hs. apply scan_no_match. intros k. unfold Regex.token. by rewrite Hs.
Qed.

Lemma tokenFree_prefixedToken (prefix key repl s before : string) :
  tokenFree s -> Regex.scan (Regex.prefixedToken prefix key) repl O before s = s.
Proof.
  intros Hs. apply scan_no_match. intros k. unfold Regex.prefixedToken.
  destruct (JsString.startsWith prefix (JsString.drop k s)); [| done].
  by rewrite !drop_drop, Hs.
Qed.

Lemma tokenFree_fieldToken (key repl s before : string) :
  tokenFree s -> Regex.scan (Regex.fieldToken key) repl O before s = s.
Proof.
  intros Hs. apply scan_no_match. intros k. unfold Regex.fieldToken.
  destruct (Regex.wordRun (JsString.drop k s)) as [| w] eqn:Hw; [done |].
  destruct (JsString.drop (S w) (JsString.drop k s)) as [| c s1] eqn:Hd; [done |].
  destruct (Ascii.eqb c ":") eqn:Hc.
  - apply Ascii.eqb_eq in Hc. subst c.
    assert (s1 = JsString.drop 1 (JsString.drop (S w) (JsString.drop k s))) as ->
        by (by rewrite Hd).
    by rewrite !drop_drop, Hs.
  - destruct c as [[] [] [] [] [] [] [] []]; try done.
Qed.

(** Every pass of the two renderers leaves a text without token alone. *)
Lemma tokenFree_passes (data : TemplateData) (s : string) :
  tokenFree s ->
  fold_left TemplateRenderer.replaceArray (customVariables data)
    (TemplateRenderer.replaceTags data
       (fold_left TemplateRenderer.replaceCustom (customVariables data) s))
  = s.
Proof.
  intros Hs.
  assert (fold_left TemplateRenderer.replaceCustom (customVariables data) s = s) as ->.
  { induction (customVariables data) as [| [k v] rest IH]; [done |]. cbn [fold_left].
    assert (TemplateRenderer.replaceCustom s (k, v) = s) as ->; [| done].
    unfold TemplateRenderer.replaceCustom, Regex.replaceAll. cbn [fst snd].
    rewrite (tokenFree_token _ _ s) by done. by apply tokenFree_token. }
  assert (TemplateRenderer.replaceTags data s = s) as ->.
  { unfold TemplateRenderer.replaceTags, Regex.replaceAll.
    destruct (TemplateRenderer.effectiveTags data) as [[| | | | [| tag tags] |] |];
      (by apply tokenFree_token) || (by apply tokenFree_prefixedToken). }
  induction (customVariables data) as [| [k v] rest IH]; [done |]. cbn [fold_left].
  assert (TemplateRenderer.replaceArray s (k, v) = s) as ->; [| done].
  unfold TemplateRenderer.replaceArray, Regex.replaceAll. cbn [fst snd].
  destruct v as [| | | | items |]; try done.
  destruct (String.eqb k "tags"); [done |].
  destruct items; by apply tokenFree_fieldToken.
Qed.

Lemma tokenFree_scalars (entries : list (string * string)) (s : string) :
  tokenFree s -> fold_left TemplateRenderer.replaceScalar entries s = s.
Proof.
  intros Hs. induction entries as [| [k v] rest IH]; [done |]. cbn [fold_left].
  assert (TemplateRenderer.replaceScalar s (k, v) = s) as ->; [| done].
  unfold TemplateRenderer.replaceScalar, Regex.replaceAll. cbn [fst snd].
  by apply tokenFree_token.
Qed.

Lemma tokenFree_variables (entries : list (string * JsValue)) (s : string) :
  tokenFree s -> fold_left TemplateRenderer.replaceVariable entries s = s.
Proof.
  intros Hs. induction entries as [| [k v] rest IH]; [done |]. cbn [fold_left].
  assert (TemplateRenderer.replaceVariable s (k, v) = s) as ->; [| done].
  unfold TemplateRenderer.replaceVariable, Regex.replaceAll. cbn [fst snd].
  by apply tokenFree_token.
Qed.

(** X13.  A template in which no pair of opening braces occurs comes out
    of both renderers as it went in, whatever the data, the tags, the
    variables and the clock are: nothing is substituted, added or
    escaped outside a token.  (The variables are named by word
    characters, as the patterns built from them require.) *)
Theorem text_without_tokens_is_kept (template : string) :
  JsString.includes "{{" template = false ->
  (forall data,
      Forall (fun entry => wordKey (fst entry)) (customVariables data) ->
      TemplateRenderer.renderTemplate template data = template)
  /\ (forall now originalFilename customVars,
         Forall (fun entry => wordKey (fst entry)) customVars ->
         TemplateRenderer.generateFilename now template originalFilename customVars
         = template).
Proof.
  intros Hfree%tokenFree_without_opener. split.
  - intros data _. unfold TemplateRenderer.renderTemplate.
    rewrite tokenFree_scalars by done. by apply tokenFree_passes.
  - intros now originalFilename customVars _. unfold TemplateRenderer.generateFilename.
    by apply tokenFree_variables.
Qed.

Lemma text_without_tokens_is_kept_witness :
  TemplateRenderer.renderTemplate "tags: none { } $1"
    (sampleData "body" (Some ["t"]) [("topics", JArray [JString "a"])])
  = "tags: none { } $1"
  /\ TemplateRenderer.generateFilename (clockAt "2024-05-01T10:00:00.000Z" 36000)
       "note.md" "scan.png" [("baseName", JString "other")]
     = "note.md".
Proof.
  destruct (text_without_tokens_is_kept "tags: none { } $1" eq_refl) as [Hrender _].
  destruct (text_without_tokens_is_kept "note.md" eq_refl) as [_ Hname].
  split.
  - apply Hrender. repeat constructor.
  - apply Hname. repeat constructor.
Defined.

End TokenFreeText.

Section SingleToken.

Local Open Scope list_scope.

Lemma mem_append (c : ascii) (a b : string) :
  JsString.mem c (a +:+ b) = JsString.mem c a || JsString.mem c b.
Proof.
  induction a as [| d a IH]; [by rewrite append_nil |].
  rewrite append_cons. cbn [JsString.mem]. by destruct (Ascii.eqb c d).
Qed.

Lemma blank_no_brace (sp : string) : blank sp -> JsString.mem "{" sp = false.
Proof.
  unfold blank. induction sp as [| c sp IH]; [done |]. cbn [JsString.all JsString.mem].
  intros [Hc Hsp]%andb_true_iff. rewrite IH by done.
  destruct (Ascii.eqb "{" c) eqn:Heq; [| done].
  apply Ascii.eqb_eq in Heq. subst c. discriminate Hc.
Qed.

Lemma solid_no_brace (s : string) : solid s -> JsString.mem "{" s = false.
Proof.
  unfold solid. induction s as [| c s IH]; [done |]. cbn [JsString.all JsString.mem].
  intros [Hc Hs]%andb_true_iff. rewrite IH by done.
  destruct (Ascii.eqb "{" c) eqn:Heq; [| done].
  apply Ascii.eqb_eq in Heq. subst c. discriminate Hc.
Qed.

Lemma wordKey_solid (key : string) : wordKey key -> solid key.
Proof.
  unfold wordKey, solid. induction key as [| c key IH]; [done |]. cbn [JsString.all].
  intros [Hc Hkey]%andb_true_iff. rewrite IH by done. rewrite andb_true_r.
  clear -Hc. destruct c as [[] [] [] [] [] [] [] []]; try done.
Qed.

Lemma wordKey_no_dot (key : string) : wordKey key -> JsString.mem "." key = false.
Proof.
  unfold wordKey. induction key as [| c key IH]; [done |]. cbn [JsString.all JsString.mem].
  intros [Hc Hkey]%andb_true_iff. rewrite IH by done.
  destruct (Ascii.eqb "." c) eqn:Heq; [| done].
  apply Ascii.eqb_eq in Heq. subst c. discriminate Hc.
Qed.

Lemma solid_append (a b : string) : solid a -> solid b -> solid (a +:+ b).
Proof.
  unfold solid. induction a as [| c a IH]; intros Ha Hb; [by rewrite append_nil |].
  rewrite append_cons. cbn [JsString.all] in *.
  apply andb_true_iff in Ha as [Hc Ha]. by rewrite Hc, IH.
Qed.

Lemma wordKey_tokenName (key : string) : wordKey key -> key <> EmptyString -> tokenName key.
Proof.
  intros Hkey Hne. split_and!; [done | by apply wordKey_solid |].
  destruct key as [| c key]; [done |]. cbn [JsString.startsWith].
  pose proof (wordKey_no_dot _ Hkey) as Hdot. cbn [JsString.mem] in Hdot.
  by destruct (Ascii.eqb "." c).
Qed.

Lemma spaces_blank (sp rest : string) :
  blank sp -> Regex.spaces rest = O -> Regex.spaces (sp +:+ rest) = String.length sp.
Proof.
  unfold blank. induction sp as [| c sp IH]; intros Hsp Hrest; [by rewrite append_nil |].
  rewrite append_cons. cbn [JsString.all Regex.spaces String.length] in *.
  apply andb_true_iff in Hsp as [Hc Hsp]. by rewrite Hc, IH.
Qed.

Lemma spaces_solid (c : ascii) (r : string) :
  solidChar c = true -> Regex.spaces (String c r) = O.
Proof.
  unfold solidChar. cbn [Regex.spaces]. by destruct (JsString.isSpace c).
Qed.

Lemma no_closer_solid (c : ascii) (r : string) :
  solidChar c = true -> JsString.startsWith "}}" (String c r) = false.
Proof.
  unfold solidChar. cbn [JsString.startsWith]. rewrite (Ascii.eqb_sym "}" c).
  destruct (Ascii.eqb c "}"); [| done]. by rewrite andb_false_r.
Qed.

(** The text of a token, followed by [post], character by character. *)
Lemma tokenText_app (sp1 dot name sp2 post : string) :
  tokenText sp1 dot name sp2 +:+ post
  = String "{" (String "{" (sp1 +:+ dot +:+ name +:+ sp2 +:+ String "}" (String "}" post))).
Proof.
  unfold tokenText. rewrite !append_assoc. by rewrite !append_cons, !append_nil.
Qed.

Lemma tokenText_length (sp1 dot name sp2 : string) :
  String.length (tokenText sp1 dot name sp2)
  = (2 + String.length sp1 + String.length dot + String.length name
     + String.length sp2 + 2)%nat.
Proof.
  unfold tokenText. rewrite !length_append. simpl. lia.
Qed.

(** After the opening braces and the white space: the optional dot is
    taken when it is there, and the name is what follows. *)
Lemma after_dot (dot name rest : string) :
  optionalDot dot -> tokenName name ->
  match dot +:+ name +:+ rest with
  | String "." r => (1%nat, r)
  | _ => (O, dot +:+ name +:+ rest)
  end = (String.length dot, name +:+ rest)
  /\ Regex.spaces (dot +:+ name +:+ rest) = O.
Proof.
  intros [-> | ->] (Hne & Hsolid & Hdot).
  - rewrite append_nil. destruct name as [| c name]; [done |].
    rewrite append_cons. unfold solid in Hsolid. cbn [JsString.all] in Hsolid.
    apply andb_true_iff in Hsolid as [Hc _]. split; [| by apply spaces_solid].
    cbn [JsString.startsWith] in Hdot. clear -Hdot.
    destruct c as [[] [] [] [] [] [] [] []]; try done.
  - rewrite append_cons, append_nil. done.
Qed.

Lemma closing_part (sp2 post : string) :
  blank sp2 ->
  Regex.spaces (sp2 +:+ String "}" (String "}" post)) = String.length sp2
  /\ JsString.startsWith "}}"
       (JsString.drop (String.length sp2) (sp2 +:+ String "}" (String "}" post))) = true
  /\ exists d r, sp2 +:+ String "}" (String "}" post) = String d r /\ solidChar d = false.
Proof.
  intros Hsp. split_and!.
  - by apply spaces_blank.
  - by rewrite drop_append.
  - destruct sp2 as [| c sp2].
    + rewrite append_nil. by eexists _, _.
    + rewrite append_cons. eexists _, _. split; [done |].
      unfold blank in Hsp. cbn [JsString.all] in Hsp.
      apply andb_true_iff in Hsp as [Hc _]. unfold solidChar. by rewrite Hc.
Qed.

(** The pattern, once the opening braces are read. *)
Lemma tokenLength_open (key s1 : string) :
  Regex.tokenLength key (String "{" (String "{" s1))
  = let a := Regex.spaces s1 in
    let s2 := JsString.drop a s1 in
    let '(dot, s3) :=
      match s2 with
      | String "." r => (1%nat, r)
      | _ => (O, s2)
      end in
    if JsString.startsWith key s3 then
      let s4 := JsString.drop (String.length key) s3 in
      let b := Regex.spaces s4 in
      if JsString.startsWith "}}" (JsString.drop b s4)
      then Some (2 + a + dot + String.length key + b + 2)%nat
      else None
    else None.
Proof. reflexivity. Qed.

(** The pattern of a name matches the token of that name, all of it. *)
Lemma tokenLength_self (sp1 dot name sp2 post : string) :
  blank sp1 -> blank sp2 -> optionalDot dot -> tokenName name ->
  Regex.tokenLength name (tokenText sp1 dot name sp2 +:+ post)
  = Some (String.length (tokenText sp1 dot name sp2)).
Proof.
  intros Hsp1 Hsp2 Hdot Hname. rewrite tokenText_app, tokenText_length.
  rewrite tokenLength_open. cbv zeta.
  set (rest := sp2 +:+ String "}" (String "}" post)).
  destruct (after_dot dot name rest Hdot Hname) as [Hmatch Hspaces].
  rewrite (spaces_blank sp1 _ Hsp1 Hspaces), drop_append, Hmatch.
  rewrite startsWith_append, drop_append.
  destruct (closing_part sp2 post Hsp2) as (Hb & Hclose & _). fold rest in Hb, Hclose.
  by rewrite Hb, Hclose.
Qed.

(** A solid name that starts a text made of another name and something
    that is not solid is the beginning of that other name. *)
Lemma solid_prefix (other name rest : string) :
  solid other ->
  (exists d r, rest = String d r /\ solidChar d = false) ->
  JsString.startsWith other (name +:+ rest) = true ->
  exists extra, name = other +:+ extra.
Proof.
  intros Hother (d & r & -> & Hd). revert name.
  induction other as [| a other IH]; intros name Hstart; [by exists name |].
  unfold solid in Hother. cbn [JsString.all] in Hother.
  apply andb_true_iff in Hother as [Ha Hother].
  destruct name as [| b name].
  - rewrite append_nil in Hstart. cbn [JsString.startsWith] in Hstart.
    destruct (Ascii.eqb a d) eqn:Had; [| done]. apply Ascii.eqb_eq in Had. subst d.
    congruence.
  - rewrite append_cons in Hstart. cbn [JsString.startsWith] in Hstart.
    destruct (Ascii.eqb a b) eqn:Hab; [| done]. apply Ascii.eqb_eq in Hab. subst b.
    destruct (IH Hother name Hstart) as (extra & ->). by exists extra.
Qed.

(** The pattern of another name does not match the token. *)
Lemma tokenLength_other (other sp1 dot name sp2 post : string) :
  blank sp1 -> blank sp2 -> optionalDot dot -> tokenName name ->
  solid other -> other <> name ->
  Regex.tokenLength other (tokenText sp1 dot name sp2 +:+ post) = None.
Proof.
  intros Hsp1 Hsp2 Hdot Hname Hother Hne. rewrite tokenText_app.
  rewrite tokenLength_open. cbv zeta.
  set (rest := sp2 +:+ String "}" (String "}" post)).
  destruct (after_dot dot name rest Hdot Hname) as [Hmatch Hspaces].
  rewrite (spaces_blank sp1 _ Hsp1 Hspaces), drop_append, Hmatch.
  destruct (JsString.startsWith other (name +:+ rest)) eqn:Hstart; [| done].
  destruct (closing_part sp2 post Hsp2) as (_ & _ & Hhead). fold rest in Hhead.
  destruct (solid_prefix other name rest Hother Hhead Hstart) as (extra & Hextra).
  destruct extra as [| e extra]; [by rewrite append_empty_r in Hextra |].
  destruct Hname as (_ & Hsolid & _). rewrite Hextra in Hsolid.
  assert (solidChar e = true) as He.
  { clear -Hsolid. unfold solid in Hsolid. induction other as [| a other IH].
    - rewrite append_nil in Hsolid. cbn [JsString.all] in Hsolid.
      by apply andb_true_iff in Hsolid as [? _].
    - rewrite append_cons in Hsolid. cbn [JsString.all] in Hsolid.
      apply andb_true_iff in Hsolid as [_ ?]. by apply IH. }
  rewrite Hextra, append_assoc, drop_append, append_cons.
  rewrite (spaces_solid e _ He). cbn [JsString.drop].
  by rewrite (no_closer_solid e _ He).
Qed.

Lemma mem_false_find_none (s : string) :
  JsString.mem "{" s = false -> JsString.find "{{" s = None.
Proof.
  induction s as [| c s IH]; [done |]. cbn [JsString.mem JsString.find JsString.startsWith].
  destruct (Ascii.eqb "{" c); [done |]. intros Hs. by rewrite IH.
Qed.

Lemma tokenFree_no_brace (s : string) : JsString.mem "{" s = false -> tokenFree s.
Proof.
  intros Hs. apply tokenFree_without_opener. unfold JsString.includes.
  by rewrite mem_false_find_none.
Qed.

Lemma tokenLength_needs_opener (key s : string) :
  JsString.startsWith "{{" s = false -> Regex.tokenLength key s = None.
Proof. intros Hs. unfold Regex.tokenLength. by rewrite Hs. Qed.

Lemma opener_needs_brace (inner : string) :
  JsString.mem "{" inner = false -> JsString.startsWith "{{" (String "{" inner) = false.
Proof.
  destruct inner as [| c inner]; [done |]. cbn [JsString.mem JsString.startsWith].
  rewrite Ascii.eqb_refl. by destruct (Ascii.eqb "{" c).
Qed.

Lemma scan_match_prefix (m : Regex.Matcher) (repl before tok post : string)
    (groups : list string) :
  tok <> EmptyString ->
  m (tok +:+ post) = Some (String.length tok, groups) ->
  Regex.scan m repl O before (tok +:+ post)
  = Regex.expand repl (JsString.take (String.length tok) (tok +:+ post)) before
      (JsString.drop (String.length tok) (tok +:+ post)) groups
    +:+ Regex.scan m repl O (before +:+ tok) post.
Proof.
  destruct tok as [| c tok]; [done |]. intros _ Hm. rewrite append_cons in *.
  cbn [String.length] in *. rewrite (scan_match _ _ _ _ _ _ _ Hm). f_equal.
  rewrite scan_skip_prefix. by rewrite append_assoc.
Qed.

End SingleToken.

Section TokenClaims.

Local Open Scope list_scope.

Lemma scalarNames_tokenNames : Forall tokenName scalarNames.
Proof. repeat (constructor; [by split_and! |]). constructor. Qed.

Lemma scalarNames_no_dot : Forall (fun k => JsString.mem "." k = false) scalarNames.
Proof. repeat (constructor; [reflexivity |]). constructor. Qed.

Lemma scalarNames_NoDup : NoDup scalarNames.
Proof. apply (bool_decide_unpack _). vm_compute. reflexivity. Qed.

Lemma prefixed_name (key : string) :
  wordKey key ->
  tokenName ("customVariables." +:+ key)
  /\ JsString.mem "." ("customVariables." +:+ key) = true.
Proof.
  intros Hkey. unfold tokenName. split_and!.
  - change ("customVariables." +:+ key) with (String "c" ("ustomVariables." +:+ key)).
    discriminate.
  - apply solid_append; [reflexivity | by apply wordKey_solid].
  - reflexivity.
  - rewrite mem_append. reflexivity.
Qed.

Lemma append_inj_l (a b c : string) : a +:+ b = a +:+ c -> b = c.
Proof.
  induction a as [| x a IH]; [by rewrite !append_nil |].
  rewrite !append_cons. intros [= H]. by apply IH.
Qed.

Lemma tokenFree_customs (entries : list (string * JsValue)) (s : string) :
  tokenFree s -> fold_left TemplateRenderer.replaceCustom entries s = s.
Proof.
  intros Hs. induction entries as [| [k v] rest IH]; [done |]. cbn [fold_left].
  assert (TemplateRenderer.replaceCustom s (k, v) = s) as ->; [| done].
  unfold TemplateRenderer.replaceCustom, Regex.replaceAll. cbn [fst snd].
  rewrite (tokenFree_token _ _ s) by done. by apply tokenFree_token.
Qed.

End TokenClaims.

Section FilenameClaims.

Local Open Scope list_scope.

Lemma set_keys_all (P : string -> Prop) (key : string) (v : JsValue)
    (fields : list (string * JsValue)) :
  P key ->
  Forall (fun entry => P (fst entry)) fields ->
  Forall (fun entry => P (fst entry)) (Js.set key v fields).
Proof.
  intros Hkey Hfields. induction Hfields as [| [k w] rest Hk Hrest IH]; simpl.
  - by repeat constructor.
  - destruct (String.eqb k key); constructor; done.
Qed.

Lemma spread_keys_all (P : string -> Prop) (a b : list (string * JsValue)) :
  Forall (fun entry => P (fst entry)) a ->
  Forall (fun entry => P (fst entry)) b ->
  Forall (fun entry => P (fst entry)) (Js.spread a b).
Proof.
  unfold Js.spread. intros Ha Hb. revert a Ha.
  induction Hb as [| [k v] b Hk _ IH]; intros a Ha; [done |]. cbn [fold_left fst snd].
  apply IH. by apply set_keys_all.
Qed.

(** In a spread, the last entry of a name among the spread variables
    decides; a name they lack keeps its earlier value. *)
Lemma spread_get (key : string) (a b : list (string * JsValue)) :
  Js.get key (Js.spread a b)
  = match Js.get key (rev b) with
    | Some v => Some v
    | None => Js.get key a
    end.
Proof.
  unfold Js.spread. induction b as [| [k v] b IH] using rev_ind; [done |].
  rewrite fold_left_app, rev_app_distr. cbn [fold_left rev app fst snd Js.get].
  destruct (String.eqb_spec k key) as [-> | Hne].
  - apply get_set_same.
  - rewrite get_set_other by done. apply IH.
Qed.

Lemma filenameEntries_wordKeys (originalFilename : string) (now : DateReading)
    (vars : list (string * JsValue)) :
  Forall (fun entry => wordKey (fst entry)) vars ->
  Forall (fun entry => wordKey (fst entry))
    (TemplateRenderer.filenameEntries originalFilename now vars).
Proof.
  intros Hvars. unfold TemplateRenderer.filenameEntries.
  apply spread_keys_all; [| done]. repeat (constructor; [reflexivity |]). constructor.
Qed.

(** X14.  The name of the note under the default file-name template.
    [createNote] hands the base name of the source file to
    [generateFilename], which takes an extension off once more: a base
    name with a dot loses what follows its last dot.  So [scan.v2.png]
    gives the note [scan.md], and two source files whose base names
    differ only after the last dot give the same note name. *)
Theorem note_name_drops_last_dotted_part
    (settings : HandwriteSettings) (host : Collaborators) (file : TFile)
    (result : StructuredResponse) (stem suffix : string) :
  filenameTemplate settings = "{{baseName}}.md" ->
  basename file = stem +:+ "." +:+ suffix ->
  suffix <> EmptyString ->
  JsString.mem "." suffix = false ->
  JsString.mem "$" stem = false ->
  JsString.mem "}" stem = false ->
  Js.get "baseName" (extractedVariables result) = None ->
  Forall (fun entry => wordKey (fst entry)) (extractedVariables result) ->
  FileProcessor.noteFilename settings host file result = stem +:+ ".md".
Proof.
  intros Htemplate Hbase Hsuffix Hdot Hdollar Hbrace Hget Hvars.
  unfold FileProcessor.noteFilename. rewrite Htemplate, Hbase.
  assert (TemplateRenderer.extensionStart (stem +:+ "." +:+ suffix)
          = Some (String.length stem)) as Hext.
  { unfold TemplateRenderer.extensionStart.
    change ("." +:+ suffix) with (String "." suffix).
    rewrite findLast_char_append by done.
    assert (JsString.drop (S (String.length stem)) (stem +:+ String "." suffix) = suffix)
      as ->; [| by destruct suffix].
    clear. induction stem as [| c stem IH]; [by rewrite append_nil |].
    rewrite append_cons. cbn [String.length JsString.drop]. exact IH. }
  pose proof (default_filename (filenameClock host) (stem +:+ "." +:+ suffix)
                (extractedVariables result)) as Hname.
  cbv zeta in Hname. rewrite Hext, take_append in Hname. by apply Hname.
Qed.

Lemma note_name_drops_last_dotted_part_witness :
  FileProcessor.noteFilename DEFAULT_SETTINGS (hostAnswering (Normal []) replyWithJsonFence)
    (sampleFile "scan.v2" "png")
    {| content := JString "hi"; extractedVariables := [] |}
  = "scan" +:+ ".md".
Proof.
  apply (note_name_drops_last_dotted_part _ _ _ _ "scan" "v2"); try reflexivity.
  - discriminate.
  - constructor.
Defined.

End FilenameClaims.
(** ** Processing one file: the request, the successes, the empty replies *)

Section ProcessFileMore.

Local Open Scope list_scope.

Lemma bind_normal {A B : Type} (c : Completion A) (k : A -> Completion B) (b : B) :
  bindC c k = Normal b -> exists a, c = Normal a /\ k a = Normal b.
Proof. destruct c as [a | e]; simpl; intros H; [by exists a | done]. Qed.

Variable settings : HandwriteSettings.
Variable host : Collaborators.

Lemma createNote_normal (file : TFile) (text : string) (result : StructuredResponse)
    (outputPath : string) :
  FileProcessor.createNote settings host file text result = Normal outputPath ->
  outputPath = notePath settings host file result.
Proof.
  unfold FileProcessor.createNote. intros Hbody.
  apply bind_normal in Hbody as (? & _ & Hbody).
  apply bind_normal in Hbody as (link & _ & Hbody).
  apply bind_normal in Hbody as (? & _ & Hbody).
  apply bind_normal in Hbody as (? & _ & Hbody).
  by injection Hbody as <-.
Qed.

(** The extraction [processFile] asks for, by kind of file. *)
Lemma extraction_request (backend : GenerateRequest -> Completion (option string))
    (file : TFile) (data : list ascii) :
  (if String.eqb (JsString.toLowerCase (extension file)) "pdf" then
     GeminiClient.extractStructuredTextFromPDF backend (geminiModel settings) data
       (prompt settings) (extractableVariables settings)
   else
     GeminiClient.extractStructuredTextFromImage backend (geminiModel settings) data
       (FileProcessor.getMimeType (JsString.toLowerCase (extension file)))
       (prompt settings) (extractableVariables settings))
  = tryCatch
      (text <-! backend (requestFor settings file data) ;;
       parsed <-! GeminiClient.parseJSONResponse text ;;
       content <-! GeminiClient.contentOf parsed ;;
       vars <-! GeminiClient.project (extractableVariables settings) parsed [] ;;
       Normal {| content := content; extractedVariables := vars |})
      (fun error =>
         Throw (Js.newError
                  ((if String.eqb (JsString.toLowerCase (extension file)) "pdf"
                    then "Failed to process PDF: " else "Failed to process image: ")
                   +:+ Js.throwToString error))).
Proof.
  unfold requestFor, GeminiClient.extractStructuredTextFromPDF,
    GeminiClient.extractStructuredTextFromImage, GeminiClient.extractStructured.
  by destruct (String.eqb (JsString.toLowerCase (extension file)) "pdf").
Qed.

End ProcessFileMore.

Section ProcessFileMoreClaims.

Local Open Scope list_scope.

(** X15.  A success of [processFile] means that every stage succeeded.
    The type is supported, the file was read, the backend answered the
    request with a reply that decodes to an object whose [content] is a
    string and not blank, the note was written, and the source file was
    moved when moving is configured; the path reported is the path of
    the note: the normalized output folder, a slash, and the generated
    file name, normalized. *)
Theorem success_means_every_stage_succeeded
    (settings : HandwriteSettings) (host : Collaborators) (file : TFile)
    (progressCallback : option (string -> Completion unit)) :
  success (FileProcessor.processFile settings host file progressCallback) = true ->
  exists data reply fields text result,
    FileProcessor.isSupportedFile (extension file) = true
    /\ readBinary host file = Normal data
    /\ generateContent host (requestFor settings file data) = Normal (Some reply)
    /\ GeminiClient.parseJSONResponse (Some reply) = Normal (JObject fields)
    /\ Js.get "content" fields = Some (JString text)
    /\ JsString.trim text <> EmptyString
    /\ content result = JString text
    /\ FileProcessor.createNote settings host file text result
       = Normal (notePath settings host file result)
    /\ (moveFilesAfterProcessing settings = true ->
        FileProcessor.moveSourceFile settings host file = Normal tt)
    /\ FileProcessor.processFile settings host file progressCallback
       = {| success := true;
            filePath := Some (notePath settings host file result);
            error := None |}.
Proof.
  unfold FileProcessor.processFile.
  destruct (FileProcessor.processFileBody settings host file progressCallback)
    as [r | e] eqn:Hbody; [| done].
  intros Hsuccess. revert Hbody. unfold FileProcessor.processFileBody.
  destruct (FileProcessor.isSupportedFile (JsString.toLowerCase (extension file)))
    eqn:Hsupported; cbn [negb]; [| intros [= <-]; done].
  intros Hbody.
  apply bind_normal in Hbody as (? & _ & Hbody).
  apply bind_normal in Hbody as (data & Hread & Hbody).
  apply bind_normal in Hbody as (? & _ & Hbody).
  apply bind_normal in Hbody as (result & Hextract & Hbody).
  destruct (negb (Js.truthy (content result))); [injection Hbody as <-; done |].
  destruct (content result) as [| b | n | text | items | fields0] eqn:Hcontent; try done.
  destruct (String.eqb_spec (JsString.trim text) EmptyString) as [| Htext];
    [injection Hbody as <-; done |].
  apply bind_normal in Hbody as (? & _ & Hbody).
  apply bind_normal in Hbody as (outputPath & Hnote & Hbody).
  apply bind_normal in Hbody as ([] & Hmove & Hbody).
  injection Hbody as <-.
  pose proof (createNote_normal _ _ _ _ _ _ Hnote) as ->.
  rewrite extraction_request in Hextract. unfold tryCatch in Hextract.
  match type of Hextract with
  | match ?c with _ => _ end = _ => destruct c as [r |] eqn:Hchain; [| done]
  end.
  injection Hextract as ->.
  apply bind_normal in Hchain as (answer & Hanswer & Hchain).
  apply bind_normal in Hchain as (parsed & Hparse & Hchain).
  apply bind_normal in Hchain as (c & Hc & Hchain).
  apply bind_normal in Hchain as (vars & _ & Hchain).
  injection Hchain as <-. cbn [content] in Hcontent. subst c.
  assert (exists fields, parsed = JObject fields
                         /\ Js.get "content" fields = Some (JString text))
    as (fields & -> & Hfield).
  { destruct parsed as [| | | | | fields]; cbn [GeminiClient.contentOf] in Hc;
      try (injection Hc as <-; done); [done |].
    exists fields. split; [done |].
    destruct (Js.get "content" fields) as [v |]; [| injection Hc as <-; done].
    destruct (Js.truthy v); injection Hc as Hv; [by subst v | by subst text]. }
  destruct answer as [reply |]; [| done].
  exists data, reply, fields, text, {| content := JString text; extractedVariables := vars |}.
  split_and!; try done.
  - unfold FileProcessor.isSupportedFile in *. by rewrite toLowerCase_idempotent in Hsupported.
  - intros Hconfigured. rewrite Hconfigured in Hmove.
    by apply bind_normal in Hmove as (? & _ & Hmove).
Qed.

Lemma success_means_every_stage_succeeded_witness :
  exists data reply fields text,
    generateContent (hostAnswering (Normal []) replyWithJsonFence)
      (requestFor DEFAULT_SETTINGS (sampleFile "scan" "png") data) = Normal (Some reply)
    /\ GeminiClient.parseJSONResponse (Some reply) = Normal (JObject fields)
    /\ Js.get "content" fields = Some (JString text)
    /\ JsString.trim text <> EmptyString.
Proof.
  destruct (success_means_every_stage_succeeded DEFAULT_SETTINGS
              (hostAnswering (Normal []) replyWithJsonFence) (sampleFile "scan" "png") None)
    as (data & reply & fields & text & result & _ & _ & Hreply & Hparse & Hfield & Htext & _).
  - vm_compute. reflexivity.
  - exists data, reply, fields, text.
    split_and!; [exact Hreply | exact Hparse | exact Hfield | exact Htext].
Defined.

(** X16.  What [processFile] asks of the backend.  The outcome for a
    file depends on the backend only through its answer to one request:
    the configured model, the prompt built from the configured prompt and
    variables, the MIME type of the kind of file ([application/pdf] for a
    PDF, else the image type of the extension) and the bytes read.  When
    the type is not supported or the file cannot be read, it does not
    depend on the backend at all. *)
Theorem backend_is_asked_one_request
    (settings : HandwriteSettings) (host : Collaborators) (file : TFile)
    (progressCallback : option (string -> Completion unit))
    (backend1 backend2 : GenerateRequest -> Completion (option string)) :
  (forall data,
      FileProcessor.isSupportedFile (extension file) = true ->
      readBinary host file = Normal data ->
      backend1 (requestFor settings file data) = backend2 (requestFor settings file data)) ->
  FileProcessor.processFile settings (withBackend backend1 host) file progressCallback
  = FileProcessor.processFile settings (withBackend backend2 host) file progressCallback.
Proof.
  intros Hsame. unfold FileProcessor.processFile. f_equal.
  unfold FileProcessor.processFileBody.
  destruct (FileProcessor.isSupportedFile (JsString.toLowerCase (extension file)))
    eqn:Hsupported; cbn [negb]; [| done].
  unfold FileProcessor.isSupportedFile in *. rewrite toLowerCase_idempotent in Hsupported.
  destruct (FileProcessor.notify progressCallback _) as [? | ?]; [| done]. cbn [bindC].
  change (readBinary (withBackend backend1 host) file) with (readBinary host file).
  change (readBinary (withBackend backend2 host) file) with (readBinary host file).
  destruct (readBinary host file) as [data | ?] eqn:Hread; [| done]. cbn [bindC].
  destruct (FileProcessor.notify progressCallback _) as [? | ?]; [| done]. cbn [bindC].
  change (generateContent (withBackend backend1 host)) with backend1.
  change (generateContent (withBackend backend2 host)) with backend2.
  rewrite !extraction_request, (Hsame data Hsupported eq_refl).
  reflexivity.
Qed.

Lemma backend_is_asked_one_request_witness :
  FileProcessor.processFile DEFAULT_SETTINGS
    (withBackend (fun _ => Normal (Some replyWithJsonFence))
       (hostAnswering (Normal []) replyWithJsonFence))
    (sampleFile "scan" "pdf") None
  = FileProcessor.processFile DEFAULT_SETTINGS
      (withBackend
         (fun request =>
            if String.eqb (reqMimeType request) "application/pdf"
            then Normal (Some replyWithJsonFence)
            else Throw (ThrownError "Error" "not asked"))
         (hostAnswering (Normal []) replyWithJsonFence))
      (sampleFile "scan" "pdf") None.
Proof.
  apply backend_is_asked_one_request. intros data _ _. reflexivity.
Defined.

(** X17.  A reply without text.  When the reply decodes to an object
    whose [content] is missing, falsy, or a string that is blank once
    trimmed, the file fails with [No text extracted from file], whatever
    else the reply holds; no note is written for it, the result carrying
    no path. *)
Theorem reply_without_text_fails
    (settings : HandwriteSettings) (host : Collaborators) (file : TFile)
    (progressCallback : option (string -> Completion unit))
    (data : list ascii) (reply : string) (fields : list (string * JsValue)) :
  quietCallback progressCallback ->
  FileProcessor.isSupportedFile (extension file) = true ->
  readBinary host file = Normal data ->
  generateContent host (requestFor settings file data) = Normal (Some reply) ->
  GeminiClient.parseJSONResponse (Some reply) = Normal (JObject fields) ->
  match Js.get "content" fields with
  | None => True
  | Some v => Js.truthy v = false \/ exists s, v = JString s /\ JsString.trim s = EmptyString
  end ->
  FileProcessor.processFile settings host file progressCallback
  = FileProcessor.failure "No text extracted from file".
Proof.
  intros Hquiet Hsupported Hread Hreply Hparse Hcontent.
  unfold FileProcessor.processFile, FileProcessor.processFileBody.
  unfold FileProcessor.isSupportedFile in *. rewrite toLowerCase_idempotent, Hsupported.
  cbn [negb]. rewrite !Hquiet, Hread. cbn [bindC].
  rewrite extraction_request, Hreply. cbn [bindC]. rewrite Hparse.
  cbn [bindC GeminiClient.contentOf].
  destruct (project_object (extractableVariables settings) fields [])
    as (extracted & -> & _).
  destruct (Js.get "content" fields) as [v |]; cbn [bindC tryCatch content].
  - destruct Hcontent as [Hfalsy | (s & -> & Hblank)].
    + rewrite Hfalsy. reflexivity.
    + destruct (negb (Js.truthy (if Js.truthy (JString s) then JString s
                                   else JString EmptyString))); [reflexivity |].
      destruct (Js.truthy (JString s)); [| reflexivity].
      rewrite Hblank. reflexivity.
  - reflexivity.
Qed.

Lemma reply_without_text_fails_witness :
  FileProcessor.processFile DEFAULT_SETTINGS
    (hostAnswering (Normal []) "{}") (sampleFile "scan" "png") None
  = FileProcessor.failure "No text extracted from file".
Proof.
  apply (reply_without_text_fails DEFAULT_SETTINGS (hostAnswering (Normal []) "{}")
           (sampleFile "scan" "png") None [] "{}" []);
    first [reflexivity | exact I | intros text; reflexivity].
Defined.

End ProcessFileMoreClaims.
(** ** Processing one file: a move that fails *)

Section MoveFailure.

Local Open Scope list_scope.

Lemma trim_truthy (text : string) :
  JsString.trim text <> EmptyString -> Js.truthy (JString text) = true.
Proof. by destruct text. Qed.

Lemma moveSourceFile_rename_fails (settings : HandwriteSettings) (host : Collaborators)
    (file : TFile) (e : JsThrown) :
  FileProcessor.ensureFolder host (normalizePath host (processedFilesFolder settings))
  = Normal tt ->
  (forall target, renameFile host file target = Throw e) ->
  FileProcessor.moveSourceFile settings host file
  = (message <-! FileProcessor.messageOf e ;;
     Throw (Js.newError ("Failed to move file: " +:+ message))).
Proof.
  intros Hfolder Hrename. unfold FileProcessor.moveSourceFile. rewrite Hfolder.
  cbn [bindC]. by destruct (destinationExists host _); rewrite Hrename.
Qed.

(** X18.  A move that fails, after the note was written.  With moving
    configured, when the file was read, the reply held a text, the note
    was written, the folder of the processed files is there, and
    renaming the source file throws, the file is reported as failed and
    the result carries no path, although the note exists.  The error is
    [Failed to move file: ] followed by the message of the [Error]
    thrown, or by what the thrown value shows for its [message]
    ([undefined] when it has none).  When [null] or [undefined] is
    thrown, reading its message throws in turn, inside the handler: the
    label is lost and the error is the message of that [TypeError]. *)
Theorem failed_move_fails_the_file
    (settings : HandwriteSettings) (host : Collaborators) (file : TFile)
    (progressCallback : option (string -> Completion unit))
    (data : list ascii) (reply : string) (fields : list (string * JsValue))
    (text : string) (e : JsThrown) :
  quietCallback progressCallback ->
  moveFilesAfterProcessing settings = true ->
  FileProcessor.isSupportedFile (extension file) = true ->
  readBinary host file = Normal data ->
  generateContent host (requestFor settings file data) = Normal (Some reply) ->
  GeminiClient.parseJSONResponse (Some reply) = Normal (JObject fields) ->
  Js.get "content" fields = Some (JString text) ->
  JsString.trim text <> EmptyString ->
  (forall result,
      content result = JString text ->
      exists outputPath,
        FileProcessor.createNote settings host file text result = Normal outputPath) ->
  FileProcessor.ensureFolder host (normalizePath host (processedFilesFolder settings))
  = Normal tt ->
  (forall target, renameFile host file target = Throw e) ->
  FileProcessor.processFile settings host file progressCallback
  = FileProcessor.failure
      (match e with
       | ThrownError _ message => "Failed to move file: " +:+ message
       | ThrownOther _ (Some message) => "Failed to move file: " +:+ message
       | ThrownOther rendering None =>
           "Cannot read properties of " +:+ rendering +:+ " (reading 'message')"
       end).
Proof.
  intros Hquiet Hmoving Hsupported Hread Hreply Hparse Hcontent Htext Hnote Hfolder Hrename.
  unfold FileProcessor.processFile, FileProcessor.processFileBody.
  unfold FileProcessor.isSupportedFile in *. rewrite toLowerCase_idempotent, Hsupported.
  cbn [negb]. rewrite !Hquiet, Hread. cbn [bindC].
  rewrite extraction_request, Hreply. cbn [bindC]. rewrite Hparse.
  cbn [bindC GeminiClient.contentOf].
  destruct (project_object (extractableVariables settings) fields [])
    as (extracted & -> & _).
  rewrite Hcontent, (trim_truthy text Htext). cbn [bindC tryCatch content negb].
  rewrite (trim_truthy text Htext). cbn [negb].
  destruct (String.eqb_spec (JsString.trim text) EmptyString) as [| _]; [done |].
  destruct (Hnote {| content := JString text; extractedVariables := extracted |} eq_refl)
    as (outputPath & ->).
  cbn [bindC]. rewrite Hmoving. cbn [bindC].
  rewrite (moveSourceFile_rename_fails settings host file e Hfolder Hrename).
  by destruct e as [n message | rendering [message |]].
Qed.

Lemma failed_move_fails_the_file_witness :
  FileProcessor.processFile movingSettings
    (withRename (Throw (ThrownError "Error" "EACCES"))
       (hostAnswering (Normal []) replyWithJsonFence))
    (sampleFile "scan" "png") None
  = FileProcessor.failure "Failed to move file: EACCES"
  /\ FileProcessor.processFile movingSettings
       (withRename (Throw (ThrownOther "null" None))
          (hostAnswering (Normal []) replyWithJsonFence))
       (sampleFile "scan" "png") None
     = FileProcessor.failure "Cannot read properties of null (reading 'message')".
Proof.
  split.
  - apply (failed_move_fails_the_file movingSettings
             (withRename (Throw (ThrownError "Error" "EACCES"))
                (hostAnswering (Normal []) replyWithJsonFence))
             (sampleFile "scan" "png") None [] replyWithJsonFence
             [("content", JString "hi")] "hi" (ThrownError "Error" "EACCES")).
    + intros text. reflexivity.
    + reflexivity.
    + vm_compute. reflexivity.
    + reflexivity.
    + reflexivity.
    + vm_compute. reflexivity.
    + reflexivity.
    + vm_compute. discriminate.
    + intros result _. eexists. reflexivity.
    + reflexivity.
    + intros target. reflexivity.
  - apply (failed_move_fails_the_file movingSettings
             (withRename (Throw (ThrownOther "null" None))
                (hostAnswering (Normal []) replyWithJsonFence))
             (sampleFile "scan" "png") None [] replyWithJsonFence
             [("content", JString "hi")] "hi" (ThrownOther "null" None)).
    + intros text. reflexivity.
    + reflexivity.
    + vm_compute. reflexivity.
    + reflexivity.
    + reflexivity.
    + vm_compute. reflexivity.
    + reflexivity.
    + vm_compute. discriminate.
    + intros result _. eexists. reflexivity.
    + reflexivity.
    + intros target. reflexivity.
Defined.

End MoveFailure.
(** ** Processing one file: what is reported *)

Section ProcessFileClaims.

(** C2, the claim as stated fails: when reading the file fails with an
    [Error] that has no message, the failed result carries the empty
    string for its error. *)
Lemma read_failure_without_message :
  FileProcessor.processFile DEFAULT_SETTINGS
    (hostAnswering (Throw (ThrownError "Error" EmptyString)) replyWithJsonFence)
    (sampleFile "scan" "png") None
  = {| success := false; filePath := None; error := Some EmptyString |}.
Proof. vm_compute. reflexivity. Qed.

(** C2, amended.  [processFile] returns a result whatever happens while
    the file is processed: a success with the path of the note, or a
    failure with an error string.  Whatever the body of its [try] throws
    is turned into a failure, with no path, whose error string is the
    message of the caught [Error], or [Unknown error] for another thrown
    value; so it is, stage by stage, for a file that cannot be read, a
    backend that throws (the extraction words the error itself, with its
    label), a reply without content, a note that cannot be written and a
    source file that cannot be moved.  The string is not empty unless
    the host (or the progress callback) threw an [Error] without
    message: the failures worded by the processor itself (unsupported
    type, extraction, empty content, move) always carry text.  In a
    batch over files of distinct paths each file's entry is that file's
    own outcome, so that changing the outcome of one file leaves the
    entries of the others as they were, under any two orders of
    resumption. *)
Theorem processFile_never_throws_failures_isolated :
  (forall settings host file progressCallback,
      let r := FileProcessor.processFile settings host file progressCallback in
      (success r = true /\ (exists outputPath, filePath r = Some outputPath)
       /\ error r = None)
      \/ (success r = false /\ filePath r = None
          /\ exists message,
               error r = Some message
               /\ (describedFailures host progressCallback -> message <> EmptyString)))
  /\ (forall settings host file progressCallback,
         FileProcessor.isSupportedFile (extension file) = false ->
         FileProcessor.processFile settings host file progressCallback
         = FileProcessor.failure
             ("Unsupported file type: " +:+ JsString.toLowerCase (extension file)))
  /\ (forall settings host file progressCallback e,
         FileProcessor.processFileBody settings host file progressCallback = Throw e ->
         FileProcessor.processFile settings host file progressCallback
         = FileProcessor.failure (caught e))
  /\ (forall settings host file progressCallback,
         FileProcessor.isSupportedFile (extension file) = true ->
         quietCallback progressCallback ->
         (forall e,
             readBinary host file = Throw e ->
             FileProcessor.processFile settings host file progressCallback
             = FileProcessor.failure (caught e))
         /\ (forall data e,
                readBinary host file = Normal data ->
                generateContent host (requestFor settings file data) = Throw e ->
                FileProcessor.processFile settings host file progressCallback
                = FileProcessor.failure
                    ((if String.eqb (JsString.toLowerCase (extension file)) "pdf"
                      then "Failed to process PDF: " else "Failed to process image: ")
                     +:+ Js.throwToString e))
         /\ (forall data reply fields,
                readBinary host file = Normal data ->
                generateContent host (requestFor settings file data) = Normal (Some reply) ->
                GeminiClient.parseJSONResponse (Some reply) = Normal (JObject fields) ->
                (Js.get "content" fields = None ->
                 FileProcessor.processFile settings host file progressCallback
                 = FileProcessor.failure "No text extracted from file")
                /\ (forall text extracted,
                       Js.get "content" fields = Some (JString text) ->
                       JsString.trim text <> EmptyString ->
                       GeminiClient.project (extractableVariables settings) (JObject fields) []
                       = Normal extracted ->
                       let result :=
                         {| content := JString text; extractedVariables := extracted |} in
                       (forall e,
                           FileProcessor.createNote settings host file text result = Throw e ->
                           FileProcessor.processFile settings host file progressCallback
                           = FileProcessor.failure (caught e))
                       /\ (forall outputPath e,
                              FileProcessor.createNote settings host file text result
                              = Normal outputPath ->
                              moveFilesAfterProcessing settings = true ->
                              FileProcessor.moveSourceFile settings host file = Throw e ->
                              FileProcessor.processFile settings host file progressCallback
                              = FileProcessor.failure (caught e)))))
  /\ (forall processFile files concurrentWorkers schedule m,
         1 <= concurrentWorkers ->
         NoDup (path <$> files) ->
         Batch.processBatch processFile files concurrentWorkers schedule = Some m ->
         forall g, g ∈ files -> m !! path g = Some (processFile g))
  /\ (forall processFile1 processFile2 files concurrentWorkers schedule1 schedule2 m1 m2 bad,
         NoDup (path <$> files) ->
         (forall g, g ∈ files -> g <> bad -> processFile1 g = processFile2 g) ->
         Batch.processBatch processFile1 files concurrentWorkers schedule1 = Some m1 ->
         Batch.processBatch processFile2 files concurrentWorkers schedule2 = Some m2 ->
         forall g, g ∈ files -> g <> bad -> m1 !! path g = m2 !! path g).
Proof.
  split_and!.
  - intros settings host file progressCallback r. subst r.
    unfold FileProcessor.processFile.
    destruct (FileProcessor.processFileBody settings host file progressCallback)
      as [r | e] eqn:Hbody.
    + apply processFileBody_normal in Hbody as [(outputPath & ->) | [-> | ->]].
      * left. simpl. split_and!; [done | by exists outputPath | done].
      * right. simpl. split_and!; [done | done |]. eexists. split; [done |]. done.
      * right. simpl. split_and!; [done | done |]. eexists. split; [done |]. done.
    + right. simpl. split_and!; [done | done |]. eexists. split; [done |].
      intros Hd. destruct e as [n message | rendering reading]; [| done].
      intros ->. apply (processFileBody_throw _ _ _ _ _ Hbody); [by exists n | done].
  - intros settings host file progressCallback Hext.
    unfold FileProcessor.processFile, FileProcessor.processFileBody.
    assert (FileProcessor.isSupportedFile (JsString.toLowerCase (extension file)) = false)
      as ->; [| done].
    unfold FileProcessor.isSupportedFile in *. by rewrite toLowerCase_idempotent.
  - intros settings host file progressCallback e Hbody.
    unfold FileProcessor.processFile. rewrite Hbody. by destruct e.
  - intros settings host file progressCallback Hsupported Hquiet.
    assert (FileProcessor.isSupportedFile (JsString.toLowerCase (extension file)) = true)
      as Hlower.
    { unfold FileProcessor.isSupportedFile in *. by rewrite toLowerCase_idempotent. }
    split_and!.
    + intros e Hread.
      unfold FileProcessor.processFile, FileProcessor.processFileBody.
      rewrite Hlower. cbn [negb]. rewrite !Hquiet, Hread. cbn [bindC]. by destruct e.
    + intros data e Hread Hreply.
      unfold FileProcessor.processFile, FileProcessor.processFileBody.
      rewrite Hlower. cbn [negb]. rewrite !Hquiet, Hread. cbn [bindC].
      rewrite extraction_request, Hreply. cbn [bindC tryCatch]. reflexivity.
    + intros data reply fields Hread Hreply Hparse.
      assert (forall extracted c,
                 GeminiClient.project (extractableVariables settings) (JObject fields) []
                 = Normal extracted ->
                 GeminiClient.contentOf (JObject fields) = Normal c ->
                 FileProcessor.processFileBody settings host file progressCallback
                 = (let result := {| content := c; extractedVariables := extracted |} in
                    if negb (Js.truthy c) then
                      Normal (FileProcessor.failure "No text extracted from file")
                    else
                      match c with
                      | JString text =>
                          if String.eqb (JsString.trim text) EmptyString then
                            Normal (FileProcessor.failure "No text extracted from file")
                          else
                            outputPath <-! FileProcessor.createNote settings host file text
                                             result ;;
                            _ <-! (if moveFilesAfterProcessing settings
                                   then FileProcessor.moveSourceFile settings host file
                                   else Normal tt) ;;
                            Normal {| success := true; filePath := Some outputPath;
                                      error := None |}
                      | _ => Throw (GeminiClient.typeError
                                      "result.content.trim is not a function")
                      end)) as Hflow.
      { intros extracted c Hproject Hc. unfold FileProcessor.processFileBody.
        rewrite Hlower. cbn [negb]. rewrite !Hquiet, Hread. cbn [bindC].
        rewrite extraction_request, Hreply. cbn [bindC]. rewrite Hparse. cbn [bindC].
        rewrite Hc. cbn [bindC]. rewrite Hproject. cbn [bindC tryCatch content].
        destruct (negb (Js.truthy c)); [done |]. by destruct c. }
      split.
      * intros Hnone.
        destruct (project_object (extractableVariables settings) fields [])
          as (extracted & Hproject & _).
        unfold FileProcessor.processFile.
        rewrite (Hflow extracted (JString EmptyString) Hproject).
        -- reflexivity.
        -- cbn [GeminiClient.contentOf]. by rewrite Hnone.
      * intros text extracted Hcontent Htext Hproject result.
        assert (FileProcessor.processFileBody settings host file progressCallback
                = (outputPath <-! FileProcessor.createNote settings host file text result ;;
                   _ <-! (if moveFilesAfterProcessing settings
                          then FileProcessor.moveSourceFile settings host file
                          else Normal tt) ;;
                   Normal {| success := true; filePath := Some outputPath;
                             error := None |})) as Hbody.
        { rewrite (Hflow extracted (JString text) Hproject).
          - cbv zeta. rewrite (trim_truthy text Htext). cbn [negb].
            by destruct (String.eqb_spec (JsString.trim text) EmptyString).
          - cbn [GeminiClient.contentOf]. by rewrite Hcontent, (trim_truthy text Htext). }
        split.
        -- intros e Hnote. unfold FileProcessor.processFile.
           rewrite Hbody, Hnote. cbn [bindC]. by destruct e.
        -- intros outputPath e Hnote Hmoving Hmove. unfold FileProcessor.processFile.
           rewrite Hbody, Hnote, Hmoving, Hmove. cbn [bindC]. by destruct e.
  - apply processBatch_outcomes.
  - intros pf1 pf2 files w s1 s2 m1 m2 bad Hnd Hagree H1 H2 g Hg Hne.
    destruct (Z_le_gt_dec 1 w) as [Hw | Hw].
    + rewrite (processBatch_outcomes pf1 files w s1 m1 Hw Hnd H1 g Hg).
      rewrite (processBatch_outcomes pf2 files w s2 m2 Hw Hnd H2 g Hg).
      f_equal. by apply Hagree.
    + rewrite (processBatch_no_workers pf1 files w s1 m1) by (lia || done).
      rewrite (processBatch_no_workers pf2 files w s2 m2) by (lia || done).
      done.
Qed.

Lemma processFile_never_throws_failures_isolated_witness :
  (exists message,
      error (FileProcessor.processFile DEFAULT_SETTINGS
               (hostAnswering (Throw (ThrownError "Error" "disk error")) replyWithJsonFence)
               (sampleFile "scan" "png") None) = Some message
      /\ message <> EmptyString)
  /\ results (Batch.run (outcomeWith replyWithJsonFence)
                [sampleFile "a" "png"; sampleFile "b" "png"] [0; 1; 0; 1]%nat
                (Batch.start [sampleFile "a" "png"; sampleFile "b" "png"] 2))
     !! path (sampleFile "a" "png")
     = results (Batch.run (failingOn "b" (outcomeWith replyWithJsonFence))
                  [sampleFile "a" "png"; sampleFile "b" "png"] [1; 0; 1; 0]%nat
                  (Batch.start [sampleFile "a" "png"; sampleFile "b" "png"] 2))
       !! path (sampleFile "a" "png")
  /\ FileProcessor.processFile DEFAULT_SETTINGS
       (hostAnswering (Normal []) replyWithJsonFence) (sampleFile "notes" "TXT") None
     = FileProcessor.failure "Unsupported file type: txt"
  /\ results (Batch.run (failingOn "b" (outcomeWith replyWithJsonFence))
                [sampleFile "a" "png"; sampleFile "b" "png"] [1; 0; 1; 0]%nat
                (Batch.start [sampleFile "a" "png"; sampleFile "b" "png"] 2))
     !! path (sampleFile "b" "png")
     = Some (FileProcessor.failure "Failed to process image: Error: timeout").
Proof.
  destruct processFile_never_throws_failures_isolated
    as (Htotal & Hunsupported & _ & _ & Hown & Hisolated).
  assert (NoDup (path <$> [sampleFile "a" "png"; sampleFile "b" "png"])) as Hpaths.
  { apply NoDup_cons. split.
    - intros Hin. apply list_elem_of_singleton in Hin. discriminate Hin.
    - apply NoDup_singleton. }
  split_and!.
  - destruct (Htotal DEFAULT_SETTINGS
                (hostAnswering (Throw (ThrownError "Error" "disk error")) replyWithJsonFence)
                (sampleFile "scan" "png") None)
      as [(Hs & _) | (_ & _ & message & Hmessage & Hne)].
    + vm_compute in Hs. discriminate Hs.
    + exists message. split; [exact Hmessage |]. apply Hne.
      unfold describedFailures. simpl. split_and!; intros; discriminate.
  - apply (Hisolated (outcomeWith replyWithJsonFence)
             (failingOn "b" (outcomeWith replyWithJsonFence))
             [sampleFile "a" "png"; sampleFile "b" "png"] 2
             [0; 1; 0; 1]%nat [1; 0; 1; 0]%nat _ _ (sampleFile "b" "png")).
    + exact Hpaths.
    + intros g Hg Hne. apply elem_of_cons in Hg as [-> | Hg]; [reflexivity |].
      apply list_elem_of_singleton in Hg. contradiction.
    + apply two_files_resolve. by left.
    + apply two_files_resolve. by right.
    + apply elem_of_cons. by left.
    + discriminate.
  - apply (Hunsupported DEFAULT_SETTINGS _ (sampleFile "notes" "TXT") None). reflexivity.
  - apply (Hown (failingOn "b" (outcomeWith replyWithJsonFence))
             [sampleFile "a" "png"; sampleFile "b" "png"] 2 [1; 0; 1; 0]%nat
             (results (Batch.run (failingOn "b" (outcomeWith replyWithJsonFence))
                         [sampleFile "a" "png"; sampleFile "b" "png"] [1; 0; 1; 0]%nat
                         (Batch.start [sampleFile "a" "png"; sampleFile "b" "png"] 2)))
             ltac:(lia) Hpaths (two_files_resolve _ _ (or_intror eq_refl))
             (sampleFile "b" "png")).
    apply elem_of_cons. right. apply elem_of_cons. by left.
Defined.

End ProcessFileClaims.
(** ** Dollar signs in the content *)

Section DollarPatterns.

Local Open Scope list_scope.

Lemma char_absent_no_pair (c : ascii) (s : string) (k : nat) :
  JsString.mem c s = false ->
  JsString.startsWith (String c (String c EmptyString)) (JsString.drop k s) = false.
Proof.
  intros Hs. apply find_none_startsWith. clear k.
  induction s as [| d s IH]; [done |]. cbn [JsString.mem] in Hs.
  cbn [JsString.find JsString.startsWith].
  destruct (Ascii.eqb c d); [done |]. by rewrite IH.
Qed.

(** A content without braces is not changed by the escaping. *)
Lemma escapeContent_plain (content : string) :
  JsString.mem "{" content = false -> JsString.mem "}" content = false ->
  TemplateRenderer.escapeContent content = content.
Proof.
  intros Hopen Hclose. unfold TemplateRenderer.escapeContent, Regex.replaceAll.
  assert (Regex.scan (Regex.literal "{{") "\{\{" O EmptyString content = content) as ->.
  { apply scan_no_match. intros k. unfold Regex.literal.
    by rewrite (char_absent_no_pair "{" content k Hopen). }
  apply scan_no_match. intros k. unfold Regex.literal.
  by rewrite (char_absent_no_pair "}" content k Hclose).
Qed.

Lemma expand_app (a r matched before after : string) (groups : list string) :
  JsString.mem "$" a = false ->
  Regex.expand (a +:+ r) matched before after groups
  = a +:+ Regex.expand r matched before after groups.
Proof.
  induction a as [| c a IH]; [by rewrite !append_nil |].
  rewrite !append_cons. cbn [JsString.mem Regex.expand].
  rewrite (Ascii.eqb_sym "$" c). destruct (Ascii.eqb c "$"); [done |].
  intros Ha. by rewrite IH.
Qed.

Lemma expand_dollar_patterns (b matched before after : string) :
  JsString.mem "$" b = false ->
  Regex.expand ("$$" +:+ b) matched before after [] = "$" +:+ b
  /\ Regex.expand ("$'" +:+ b) matched before after [] = after +:+ b
  /\ Regex.expand ("$`" +:+ b) matched before after [] = before +:+ b.
Proof.
  intros Hb. pose proof (expand_plain b matched before after [] Hb) as Hplain.
  split_and!.
  - change (Regex.expand ("$$" +:+ b) matched before after [])
      with (String "$" (Regex.expand b matched before after [])).
    by rewrite Hplain.
  - change (Regex.expand ("$'" +:+ b) matched before after [])
      with (after +:+ Regex.expand b matched before after []).
    by rewrite Hplain.
  - change (Regex.expand ("$`" +:+ b) matched before after [])
      with (before +:+ Regex.expand b matched before after []).
    by rewrite Hplain.
Qed.

Section ContentToken.

Variables pre post sp1 dot sp2 : string.
Hypothesis Hpre : JsString.mem "{" pre = false.
Hypothesis Hpost : JsString.mem "{" post = false.
Hypothesis Hsp1 : blank sp1.
Hypothesis Hsp2 : blank sp2.
Hypothesis Hdot : optionalDot dot.

(** The pass of a name writes the replacement text with its dollar
    patterns expanded: the match is the token, what precedes it is [pre]
    and what follows it is [post]. *)
Lemma replace_expand (name value : string) :
  tokenName name ->
  Regex.replaceAll (Regex.token name) value
    (pre +:+ tokenText sp1 dot name sp2 +:+ post)
  = pre +:+ Regex.expand value (tokenText sp1 dot name sp2) pre post [] +:+ post.
Proof.
  intros Hname. unfold Regex.replaceAll.
  rewrite token_skips_plain_text by done. f_equal.
  rewrite scan_match_prefix with (groups := []).
  - rewrite take_append, drop_append, append_nil. f_equal. by apply token_plain_text.
  - unfold tokenText. by rewrite append_cons.
  - unfold Regex.token. by rewrite tokenLength_self.
Qed.

(** The rendering of a template whose only token is the one of the
    content. *)
Lemma content_written (data : TemplateData) :
  let written :=
    Regex.expand (TemplateRenderer.escapeContent (tdContent data))
      (tokenText sp1 dot "content" sp2) pre post [] in
  JsString.mem "{" written = false ->
  TemplateRenderer.renderTemplate (pre +:+ tokenText sp1 dot "content" sp2 +:+ post) data
  = pre +:+ written +:+ post.
Proof.
  intros written Hwritten. unfold TemplateRenderer.renderTemplate.
  unfold TemplateRenderer.scalarEntries. rewrite fold_left_step.
  unfold TemplateRenderer.replaceScalar at 2. cbn [fst snd].
  rewrite replace_expand by (by split_and!). fold written.
  assert (tokenFree (pre +:+ written +:+ post)) as Hfree.
  { apply tokenFree_no_brace. rewrite !mem_append. by rewrite Hpre, Hwritten, Hpost. }
  rewrite tokenFree_scalars by done. by apply tokenFree_passes.
Qed.

End ContentToken.

(** X19.  Dollar signs in the content are read as replacement patterns.
    The content is handed to [String.prototype.replace] as the replacement
    text, so in a template whose only token is the one of the content, a
    doubled dollar sign of the content comes out as a single one (display
    mathematics written between doubled dollar signs loses a dollar sign at
    each end), a dollar sign followed by an apostrophe comes out as the
    text of the template after the token, and a dollar sign followed by a
    backquote as the text before it.  The content is otherwise free of
    dollar signs and braces. *)
Theorem dollar_patterns_of_content_are_expanded
    (data : TemplateData) (pre post sp1 dot sp2 a b : string) :
  JsString.mem "{" pre = false -> JsString.mem "{" post = false ->
  blank sp1 -> blank sp2 -> optionalDot dot ->
  JsString.mem "$" a = false -> JsString.mem "{" a = false -> JsString.mem "}" a = false ->
  JsString.mem "$" b = false -> JsString.mem "{" b = false -> JsString.mem "}" b = false ->
  Forall (fun entry => wordKey (fst entry)) (customVariables data) ->
  (tdContent data = a +:+ "$$" +:+ b ->
   TemplateRenderer.renderTemplate (pre +:+ tokenText sp1 dot "content" sp2 +:+ post) data
   = pre +:+ (a +:+ "$" +:+ b) +:+ post)
  /\ (tdContent data = a +:+ "$'" +:+ b ->
      TemplateRenderer.renderTemplate (pre +:+ tokenText sp1 dot "content" sp2 +:+ post) data
      = pre +:+ (a +:+ post +:+ b) +:+ post)
  /\ (tdContent data = a +:+ "$`" +:+ b ->
      TemplateRenderer.renderTemplate (pre +:+ tokenText sp1 dot "content" sp2 +:+ post) data
      = pre +:+ (a +:+ pre +:+ b) +:+ post).
Proof.
  intros Hpre Hpost Hsp1 Hsp2 Hdot Ha1 Ha2 Ha3 Hb1 Hb2 Hb3 _.
  destruct (expand_dollar_patterns b (tokenText sp1 dot "content" sp2) pre post Hb1)
    as (Hdouble & Hafter & Hbefore).
  split_and!; intros Hcontent.
  - rewrite (content_written pre post sp1 dot sp2 Hpre Hpost Hsp1 Hsp2 Hdot data);
      rewrite Hcontent, escapeContent_plain, expand_app, Hdouble;
      rewrite ?mem_append; cbn [JsString.mem]; rewrite ?Ha2, ?Ha3, ?Hb2, ?Hb3; done.
  - rewrite (content_written pre post sp1 dot sp2 Hpre Hpost Hsp1 Hsp2 Hdot data);
      rewrite Hcontent, escapeContent_plain, expand_app, Hafter;
      rewrite ?mem_append; cbn [JsString.mem]; rewrite ?Ha2, ?Ha3, ?Hb2, ?Hb3, ?Hpost; done.
  - rewrite (content_written pre post sp1 dot sp2 Hpre Hpost Hsp1 Hsp2 Hdot data);
      rewrite Hcontent, escapeContent_plain, expand_app, Hbefore;
      rewrite ?mem_append; cbn [JsString.mem]; rewrite ?Ha2, ?Ha3, ?Hb2, ?Hb3, ?Hpre; done.
Qed.

Lemma dollar_patterns_of_content_are_expanded_witness :
  TemplateRenderer.renderTemplate ("# Note " +:+ tokenText "" "" "content" "" +:+ " (end)")
    (sampleData ("Euler: " +:+ "$$" +:+ "e^x") (Some []) [])
  = "# Note " +:+ ("Euler: " +:+ "$" +:+ "e^x") +:+ " (end)".
Proof.
  assert (optionalDot EmptyString) as Hdot by (by left).
  assert (Forall (fun entry : string * JsValue => wordKey (fst entry)) []) as Hkeys
      by constructor.
  destruct (dollar_patterns_of_content_are_expanded
              (sampleData ("Euler: " +:+ "$$" +:+ "e^x") (Some []) [])
              "# Note " " (end)" "" "" "" "Euler: " "e^x"
              eq_refl eq_refl eq_refl eq_refl Hdot eq_refl eq_refl eq_refl
              eq_refl eq_refl eq_refl Hkeys) as (Hdouble & _).
  apply Hdouble. reflexivity.
Defined.

End DollarPatterns.
(** ** Templates with several tokens *)

Section Pieces.

Local Open Scope list_scope.

(** Where the pattern matches nowhere in a prefix, the prefix is copied. *)
Lemma scan_copy_prefix (m : Regex.Matcher) (repl tok rest before : string) :
  (forall j, (j < String.length tok)%nat -> m (JsString.drop j (tok +:+ rest)) = None) ->
  Regex.scan m repl O before (tok +:+ rest)
  = tok +:+ Regex.scan m repl O (before +:+ tok) rest.
Proof.
  revert before. induction tok as [| c tok IH]; intros before Hnone.
  - by rewrite !append_nil, append_empty_r.
  - rewrite !append_cons. cbn [Regex.scan].
    pose proof (Hnone O ltac:(simpl; lia)) as H0. cbn [JsString.drop] in H0.
    rewrite append_cons in H0. rewrite H0. f_equal.
    rewrite IH.
    + by rewrite append_assoc.
    + intros j Hj. specialize (Hnone (S j) ltac:(simpl; lia)).
      by rewrite append_cons in Hnone.
Qed.

Lemma no_opener_inside (body rest : string) (i : nat) :
  JsString.mem "{" body = false -> (i < String.length body)%nat ->
  JsString.startsWith "{{" (JsString.drop i (body +:+ rest)) = false.
Proof.
  revert i. induction body as [| c body IH]; intros i Hbody Hi; [simpl in Hi; lia |].
  rewrite append_cons. cbn [JsString.mem] in Hbody.
  destruct (Ascii.eqb "{" c) eqn:Hc; [done |].
  destruct i as [| i].
  - cbn [JsString.drop JsString.startsWith]. by rewrite Hc.
  - cbn [JsString.drop]. apply IH; [done | simpl in Hi; lia].
Qed.

(** Inside the text of a token no pattern matches. *)
Lemma token_inside (sp1 dot name sp2 rest key : string) (j : nat) :
  blank sp1 -> blank sp2 -> optionalDot dot -> tokenName name ->
  (1 <= j)%nat -> (j < String.length (tokenText sp1 dot name sp2))%nat ->
  Regex.tokenLength key (JsString.drop j (tokenText sp1 dot name sp2 +:+ rest)) = None.
Proof.
  intros Hsp1 Hsp2 Hdot (Hne & Hsolid & _) H1 Hj.
  apply tokenLength_needs_opener. rewrite tokenText_length in Hj. rewrite tokenText_app.
  set (body := sp1 +:+ dot +:+ name +:+ sp2 +:+ "}}").
  assert (sp1 +:+ dot +:+ name +:+ sp2 +:+ String "}" (String "}" rest) = body +:+ rest)
    as ->.
  { subst body. by rewrite !append_assoc. }
  assert (JsString.mem "{" body = false) as Hbody.
  { subst body. rewrite !mem_append.
    rewrite (blank_no_brace sp1), (blank_no_brace sp2), (solid_no_brace name) by done.
    by destruct Hdot as [-> | ->]. }
  assert (String.length body
          = (String.length sp1 + String.length dot + String.length name
             + String.length sp2 + 2)%nat) as Hlen.
  { subst body. rewrite !length_append. simpl. lia. }
  destruct j as [| [| j]]; [lia | |].
  - cbn [JsString.drop]. destruct body as [| c body'] eqn:Hb; [simpl in Hlen; lia |].
    rewrite append_cons. cbn [JsString.mem] in Hbody. cbn [JsString.startsWith].
    rewrite Ascii.eqb_refl. by destruct (Ascii.eqb "{" c).
  - cbn [JsString.drop]. apply no_opener_inside; [done | lia].
Qed.

Lemma occurs_cons (name : string) (p : Piece) (pieces : list Piece) :
  occurs name (p :: pieces)
  <-> (exists sp1 dot sp2, p = Token sp1 dot name sp2) \/ occurs name pieces.
Proof.
  unfold occurs. split.
  - intros (sp1 & dot & sp2 & [<- | Hin]%elem_of_cons); [left | right]; by eauto.
  - intros [(sp1 & dot & sp2 & ->) | (sp1 & dot & sp2 & Hin)];
      exists sp1, dot, sp2; apply elem_of_cons; by eauto.
Qed.

(** One pass over a template in pieces. *)
Lemma pass_pieces (key value : string) (pieces : list Piece) (before : string) :
  Forall wellFormed pieces -> solid key ->
  (occurs key pieces -> JsString.mem "$" value = false) ->
  Regex.scan (Regex.token key) value O before (flatten pieces)
  = flatten (fill key value <$> pieces).
Proof.
  intros Hwf Hkey. revert before.
  induction Hwf as [| p pieces Hp _ IH]; intros before Hvalue; [done |].
  rewrite fmap_cons. cbn [flatten].
  assert (occurs key pieces -> JsString.mem "$" value = false) as Hrest.
  { intros Hin. apply Hvalue, occurs_cons. by right. }
  destruct p as [s | sp1 dot name sp2]; cbn [fill pieceText wellFormed] in *.
  - rewrite token_skips_plain_text by done. by rewrite IH.
  - destruct Hp as (Hsp1 & Hsp2 & Hdot & Hname).
    destruct (String.eqb_spec name key) as [-> | Hne].
    + rewrite scan_match_prefix with (groups := []).
      * rewrite expand_plain.
        -- cbn [pieceText]. by rewrite IH.
        -- apply Hvalue, occurs_cons. left. by eauto.
      * unfold tokenText. by rewrite append_cons.
      * unfold Regex.token. by rewrite tokenLength_self.
    + rewrite scan_copy_prefix.
      * cbn [pieceText]. by rewrite IH.
      * intros j Hj. unfold Regex.token. destruct j as [| j].
        -- cbn [JsString.drop]. by rewrite tokenLength_other.
        -- rewrite token_inside; try done. lia.
Qed.

Lemma fill_wellFormed (key value : string) (pieces : list Piece) :
  Forall wellFormed pieces ->
  (occurs key pieces -> JsString.mem "{" value = false) ->
  Forall wellFormed (fill key value <$> pieces).
Proof.
  intros Hwf. induction Hwf as [| p pieces Hp _ IH]; intros Hvalue; [constructor |].
  rewrite fmap_cons. constructor.
  - destruct p as [s | sp1 dot name sp2]; [done |]. cbn [fill].
    destruct (String.eqb_spec name key) as [-> | _]; [| done].
    apply Hvalue, occurs_cons. left. by eauto.
  - apply IH. intros Hin. apply Hvalue, occurs_cons. by right.
Qed.

Lemma fill_occurs (key value name : string) (pieces : list Piece) :
  occurs name (fill key value <$> pieces) -> occurs name pieces /\ name <> key.
Proof.
  intros (sp1 & dot & sp2 & Hin).
  apply list_elem_of_fmap in Hin as ([s | a b n c] & Heq & Hin); cbn [fill] in Heq.
  - done.
  - destruct (String.eqb_spec n key) as [-> | Hne]; [done |].
    injection Heq as -> -> -> ->. split; [by exists a, b, c | done].
Qed.

Lemma resolve_fill (key : string) (v : JsValue) (rest : list (string * JsValue)) (p : Piece) :
  resolve rest (fill key (Js.toString v) p) = resolve ((key, v) :: rest) p.
Proof.
  destruct p as [s | sp1 dot name sp2]; [done |]. cbn [fill resolve Js.get].
  rewrite (String.eqb_sym key name). by destruct (String.eqb name key).
Qed.

(** The passes of a list of entries, one after the other, do what
    [resolve] does at once. *)
Lemma passes_resolve (entries : list (string * JsValue)) (pieces : list Piece) :
  Forall wellFormed pieces ->
  Forall (fun entry => solid (fst entry)) entries ->
  (forall name v, occurs name pieces -> Js.get name entries = Some v ->
                  clean (Js.toString v)) ->
  fold_left TemplateRenderer.replaceVariable entries (flatten pieces)
  = flatten (resolve entries <$> pieces).
Proof.
  intros Hwf Hkeys. revert pieces Hwf.
  induction Hkeys as [| [k v] rest Hk _ IH]; intros pieces Hwf Hclean.
  - cbn [fold_left]. f_equal. rewrite <- (list_fmap_id pieces) at 1.
    apply list_fmap_ext. intros i p _. by destruct p.
  - cbn [fold_left]. unfold TemplateRenderer.replaceVariable at 2, Regex.replaceAll.
    cbn [fst snd] in *.
    assert (occurs k pieces -> clean (Js.toString v)) as Hv.
    { intros Hin. apply (Hclean k v Hin). cbn [Js.get]. by rewrite String.eqb_refl. }
    rewrite pass_pieces; [| done | done | by intros [? _]%Hv].
    rewrite IH.
    + f_equal. rewrite <- list_fmap_compose. apply list_fmap_ext.
      intros i p _. apply resolve_fill.
    + apply fill_wellFormed; [done | by intros [_ ?]%Hv].
    + intros name w [Hin Hne]%fill_occurs Hget. apply (Hclean name w Hin).
      cbn [Js.get]. destruct (String.eqb_spec k name) as [-> | _]; done.
Qed.

(** The two first loops of [renderTemplate] are passes of [noteEntries]. *)
Lemma note_passes (data : TemplateData) (s : string) :
  fold_left TemplateRenderer.replaceCustom (customVariables data)
    (fold_left TemplateRenderer.replaceScalar (TemplateRenderer.scalarEntries data) s)
  = fold_left TemplateRenderer.replaceVariable (noteEntries data) s.
Proof.
  unfold noteEntries. rewrite fold_left_app.
  assert (forall entries s',
             fold_left TemplateRenderer.replaceVariable
               ((fun entry : string * string => (fst entry, JString (snd entry))) <$> entries) s'
             = fold_left TemplateRenderer.replaceScalar entries s') as ->.
  { induction entries as [| e entries IH]; intros s'; [done |].
    rewrite fmap_cons. cbn [fold_left]. by rewrite IH. }
  generalize (fold_left TemplateRenderer.replaceScalar (TemplateRenderer.scalarEntries data) s).
  induction (customVariables data) as [| e entries IH]; intros s'; [done |].
  cbn [flat_map app fold_left]. by rewrite IH.
Qed.

Lemma resolved_no_brace (entries : list (string * JsValue)) (pieces : list Piece) :
  Forall wellFormed pieces ->
  (forall name, occurs name pieces ->
                exists v, Js.get name entries = Some v /\ clean (Js.toString v)) ->
  JsString.mem "{" (flatten (resolve entries <$> pieces)) = false.
Proof.
  intros Hwf. induction Hwf as [| p pieces Hp _ IH]; intros Hall; [done |].
  rewrite fmap_cons. cbn [flatten]. rewrite mem_append, IH.
  - rewrite orb_false_r. destruct p as [s | sp1 dot name sp2]; [done |].
    destruct (Hall name) as (v & Hget & _ & Hbrace).
    { apply occurs_cons. left. by eauto. }
    cbn [resolve]. by rewrite Hget.
  - intros name Hin. apply Hall, occurs_cons. by right.
Qed.

Lemma tokenFree_later (data : TemplateData) (s : string) :
  tokenFree s ->
  fold_left TemplateRenderer.replaceArray (customVariables data)
    (TemplateRenderer.replaceTags data s) = s.
Proof.
  intros Hs. rewrite <- (tokenFree_customs (customVariables data) s Hs) at 1.
  by apply tokenFree_passes.
Qed.

Lemma noteEntries_solid (data : TemplateData) :
  Forall (fun entry => wordKey (fst entry)) (customVariables data) ->
  Forall (fun entry => solid (fst entry)) (noteEntries data).
Proof.
  intros Hkeys. unfold noteEntries. apply Forall_app. split.
  - apply Forall_fmap. unfold TemplateRenderer.scalarEntries.
    repeat (constructor; [reflexivity |]). constructor.
  - induction Hkeys as [| [k v] rest Hk _ IH]; [constructor |].
    cbn [flat_map app fst snd]. constructor; [| constructor; [| done]].
    + by destruct (prefixed_name k Hk) as [(_ & ? & _) _].
    + by apply wordKey_solid.
Qed.

End Pieces.

Section PiecesLookup.

Local Open Scope list_scope.

Lemma get_app (key : string) (a b : list (string * JsValue)) :
  Js.get key (a ++ b)
  = match Js.get key a with
    | Some v => Some v
    | None => Js.get key b
    end.
Proof.
  induction a as [| [k v] a IH]; [done |]. cbn [app Js.get].
  by destruct (String.eqb k key).
Qed.

Lemma get_rev_NoDup (key : string) (fields : list (string * JsValue)) :
  NoDup (fst <$> fields) -> Js.get key (rev fields) = Js.get key fields.
Proof.
  induction fields as [| [k v] fields IH]; [done |].
  rewrite fmap_cons, NoDup_cons. intros [Hk Hnd]. cbn [rev Js.get fst] in *.
  rewrite get_app, IH by done. cbn [Js.get].
  destruct (String.eqb_spec k key) as [-> | Hne].
  - apply get_none_keys in Hk. by rewrite Hk.
  - by destruct (Js.get key fields).
Qed.

(** A spread over nothing of an object with distinct keys is the object
    as far as its properties go. *)
Lemma spread_nil_get (key : string) (fields : list (string * JsValue)) :
  NoDup (fst <$> fields) -> Js.get key (Js.spread [] fields) = Js.get key fields.
Proof.
  intros Hnd. rewrite spread_get, get_rev_NoDup by done.
  by destruct (Js.get key fields).
Qed.

(** The long names and the own names of the custom variables. *)
Lemma customs_get (key : string) (custom : list (string * JsValue)) :
  wordKey key ->
  Forall (fun entry => wordKey (fst entry)) custom ->
  Js.get key
    (flat_map (fun entry => [("customVariables." +:+ fst entry, snd entry); entry]) custom)
  = Js.get key custom
  /\ Js.get ("customVariables." +:+ key)
       (flat_map (fun entry => [("customVariables." +:+ fst entry, snd entry); entry]) custom)
     = Js.get key custom.
Proof.
  intros Hkey Hkeys. induction Hkeys as [| [k v] rest Hk _ [IH1 IH2]]; [done |].
  cbn [flat_map app fst snd Js.get].
  destruct (prefixed_name k Hk) as [_ Hdotted]. destruct (prefixed_name key Hkey) as [_ Hdotted'].
  split.
  - destruct (String.eqb_spec ("customVariables." +:+ k) key) as [Heq | _].
    { rewrite Heq in Hdotted. by rewrite (wordKey_no_dot key Hkey) in Hdotted. }
    by destruct (String.eqb k key).
  - destruct (String.eqb_spec ("customVariables." +:+ k) ("customVariables." +:+ key))
      as [Heq | Hne].
    + apply append_inj_l in Heq. subst k. by rewrite String.eqb_refl.
    + destruct (String.eqb_spec k key) as [-> | Hkk]; [done |].
      destruct (String.eqb_spec k ("customVariables." +:+ key)) as [Heq | _]; [| done].
      rewrite <- Heq in Hdotted'. by rewrite (wordKey_no_dot k Hk) in Hdotted'.
Qed.

(** The value of a name of the note template: a built-in one first. *)
Lemma noteEntries_get (data : TemplateData) (key : string) :
  Forall (fun entry => wordKey (fst entry)) (customVariables data) ->
  (forall value,
      (key, value) ∈ TemplateRenderer.scalarEntries data ->
      Js.get key (noteEntries data) = Some (JString value))
  /\ (key ∉ scalarNames -> wordKey key ->
      Js.get key (noteEntries data) = Js.get key (customVariables data)
      /\ Js.get ("customVariables." +:+ key) (noteEntries data)
         = Js.get key (customVariables data)).
Proof.
  intros Hkeys. unfold noteEntries. split.
  - intros value Hin. rewrite get_app.
    assert (Js.get key ((fun entry : string * string => (fst entry, JString (snd entry)))
                          <$> TemplateRenderer.scalarEntries data)
            = Some (JString value)) as ->; [| done].
    pose proof scalarNames_NoDup as Hnd.
    change scalarNames with (fst <$> TemplateRenderer.scalarEntries data) in Hnd.
    induction (TemplateRenderer.scalarEntries data) as [| [k w] rest IH]; [by inversion Hin |].
    rewrite fmap_cons in Hnd. apply NoDup_cons in Hnd as [Hfresh Hnd].
    rewrite fmap_cons. cbn [Js.get fst snd].
    apply elem_of_cons in Hin as [[= -> ->] | Hin]; [by rewrite String.eqb_refl |].
    destruct (String.eqb_spec k key) as [-> | _]; [| by apply IH].
    exfalso. apply Hfresh. by apply (list_elem_of_fmap_2 fst) in Hin.
  - intros Hcustom Hkey.
    assert (forall name, name ∉ scalarNames ->
              Js.get name ((fun entry : string * string => (fst entry, JString (snd entry)))
                             <$> TemplateRenderer.scalarEntries data) = None) as Hnone.
    { intros name Hname. apply get_none_keys. rewrite <- list_fmap_compose. exact Hname. }
    rewrite !get_app, !Hnone; [by apply customs_get | | done].
    intros Hin. pose proof scalarNames_no_dot as Hnodot. rewrite Forall_forall in Hnodot.
    specialize (Hnodot _ Hin). cbv beta in Hnodot.
    destruct (prefixed_name key Hkey) as [_ Hdotted]. congruence.
Qed.

(** The rendering of a note template in pieces, every token of which
    has a value. *)
Lemma render_pieces (data : TemplateData) (pieces : list Piece) :
  Forall wellFormed pieces ->
  Forall (fun entry => wordKey (fst entry)) (customVariables data) ->
  (forall name, occurs name pieces ->
                exists v, Js.get name (noteEntries data) = Some v /\ clean (Js.toString v)) ->
  TemplateRenderer.renderTemplate (flatten pieces) data
  = flatten (resolve (noteEntries data) <$> pieces).
Proof.
  intros Hwf Hkeys Hall. unfold TemplateRenderer.renderTemplate.
  rewrite note_passes, passes_resolve; [| done | by apply noteEntries_solid |].
  - apply tokenFree_later, tokenFree_no_brace. by apply resolved_no_brace.
  - intros name v Hin Hget. destruct (Hall name Hin) as (w & Hw & Hclean). congruence.
Qed.

End PiecesLookup.

Section PiecesClaims.

Local Open Scope list_scope.

(** X20.  The file name, for a template with any number of tokens.
    Cut the template into text without opening brace and tokens (each
    with optional white space inside its braces and an optional dot
    before its name).  Then [generateFilename] returns the template with
    every token whose name has a value replaced by that value as a
    string, and every other token left as it is written.  The value of a
    name is the last one the extracted variables give it, and the
    built-in one ([baseName], [extension], [originalFilename],
    [dateProcessed], [secondsBase36]) only when they give none.  The
    values put in are taken without dollar sign and opening brace, and
    the variables are named by word characters. *)
Theorem filename_tokens_replaced_by_values
    (now : DateReading) (originalFilename : string) (vars : list (string * JsValue))
    (pieces : list Piece) :
  Forall (fun entry => wordKey (fst entry)) vars ->
  Forall wellFormed pieces ->
  (forall name v,
      occurs name pieces ->
      Js.get name (TemplateRenderer.filenameEntries originalFilename now vars) = Some v ->
      clean (Js.toString v)) ->
  TemplateRenderer.generateFilename now (flatten pieces) originalFilename vars
  = flatten (resolve (TemplateRenderer.filenameEntries originalFilename now vars) <$> pieces)
  /\ (forall key,
         Js.get key (TemplateRenderer.filenameEntries originalFilename now vars)
         = match Js.get key (rev vars) with
           | Some v => Some v
           | None => Js.get key (TemplateRenderer.filenameEntries originalFilename now [])
           end).
Proof.
  intros Hvars Hwf Hclean. split.
  - unfold TemplateRenderer.generateFilename. apply passes_resolve; [done | | done].
    eapply Forall_impl; [by apply filenameEntries_wordKeys |].
    intros entry. apply wordKey_solid.
  - intros key. unfold TemplateRenderer.filenameEntries. apply spread_get.
Qed.

Lemma filename_tokens_replaced_by_values_witness :
  TemplateRenderer.generateFilename (clockAt "2024-05-01T10:00:00.000Z" 36000)
    (flatten [Token "" "" "baseName" ""; Text "_"; Token " " "." "title" " ";
              Text "_"; Token "" "" "unknown" ""; Text ".md"])
    "scan.png" [("title", JString "Minutes"); ("baseName", JString "renamed")]
  = flatten [Text "renamed"; Text "_"; Text "Minutes"; Text "_";
             Token "" "" "unknown" ""; Text ".md"].
Proof.
  destruct (filename_tokens_replaced_by_values (clockAt "2024-05-01T10:00:00.000Z" 36000)
              "scan.png" [("title", JString "Minutes"); ("baseName", JString "renamed")]
              [Token "" "" "baseName" ""; Text "_"; Token " " "." "title" " ";
               Text "_"; Token "" "" "unknown" ""; Text ".md"]) as [Hname _].
  - repeat constructor.
  - repeat (constructor; [first [reflexivity | split_and!; first [done | by left | by right]] |]).
    constructor.
  - intros name v (sp1 & dot & sp2 & Hin) Hget.
    repeat (apply elem_of_cons in Hin as [[= -> -> -> ->] | Hin]; try discriminate);
      try (by inversion Hin); injection Hget as <-; by split.
  - exact Hname.
Defined.

(** X21.  The note, for a template with any number of tokens.  Cut the
    template as in X20, and let every token have a value: its name is a
    built-in string or number ([content], [filename], [absoluteFilePath],
    [relativeFilePath], [markdownLink], [dateProcessed], [pageCount],
    [modelUsed]), or a custom variable, named directly or after
    [customVariables.].  Then [renderTemplate] returns the template with
    every token replaced by its value as a string, a built-in name
    winning over a custom variable of the same name, and an array being
    put in as its items joined by commas.  The values put in are taken
    without dollar sign and opening brace, and the variables are named
    by word characters. *)
Theorem note_tokens_replaced_by_values (data : TemplateData) (pieces : list Piece) :
  Forall (fun entry => wordKey (fst entry)) (customVariables data) ->
  Forall wellFormed pieces ->
  (forall name, occurs name pieces ->
                exists v, Js.get name (noteEntries data) = Some v /\ clean (Js.toString v)) ->
  TemplateRenderer.renderTemplate (flatten pieces) data
  = flatten (resolve (noteEntries data) <$> pieces)
  /\ (forall key value,
         (key, value) ∈ TemplateRenderer.scalarEntries data ->
         Js.get key (noteEntries data) = Some (JString value))
  /\ (forall key,
         key ∉ scalarNames -> wordKey key ->
         Js.get key (noteEntries data) = Js.get key (customVariables data)
         /\ Js.get ("customVariables." +:+ key) (noteEntries data)
            = Js.get key (customVariables data)).
Proof.
  intros Hkeys Hwf Hall. split_and!.
  - by apply render_pieces.
  - intros key value. by apply noteEntries_get.
  - intros key. by apply noteEntries_get.
Qed.

Lemma note_tokens_replaced_by_values_witness :
  TemplateRenderer.renderTemplate
    (flatten [Text "by "; Token "" "" "author" ""; Text " with ";
              Token " " "." "modelUsed" " "; Text " on ";
              Token "" "" ("customVariables." +:+ "topics") ""])
    (sampleData "body" (Some []) [("topics", JArray [JString "a"; JString "b"]);
                                  ("author", JString "Ada");
                                  ("modelUsed", JString "other")])
  = flatten [Text "by "; Text "Ada"; Text " with ";
             Text "gemini-2.5-flash-preview-05-20"; Text " on "; Text "a,b"].
Proof.
  destruct (note_tokens_replaced_by_values
              (sampleData "body" (Some []) [("topics", JArray [JString "a"; JString "b"]);
                                            ("author", JString "Ada");
                                            ("modelUsed", JString "other")])
              [Text "by "; Token "" "" "author" ""; Text " with ";
               Token " " "." "modelUsed" " "; Text " on ";
               Token "" "" ("customVariables." +:+ "topics") ""]) as [Hnote _].
  - repeat constructor.
  - repeat (constructor; [first [reflexivity | split_and!; first [done | by left | by right]] |]).
    constructor.
  - intros name (sp1 & dot & sp2 & Hin).
    repeat (apply elem_of_cons in Hin as [[= -> -> -> ->] | Hin]; try discriminate);
      try (by inversion Hin); by eexists.
  - exact Hnote.
Defined.

End PiecesClaims.
(** ** The note of the default template *)

Section DefaultNote.

Local Open Scope list_scope.

Lemma defaultPieces_flatten : flatten defaultPieces = TemplateRenderer.DEFAULT_TEMPLATE.
Proof. vm_compute. reflexivity. Qed.

Lemma defaultPieces_wellFormed : Forall wellFormed defaultPieces.
Proof.
  repeat (constructor; [first [reflexivity | split_and!; first [done | by left]] |]).
  constructor.
Qed.

Lemma toString_tags (tags : list string) :
  Js.toString (JArray (JString <$> tags)) = JsString.join "," tags.
Proof.
  cbn [Js.toString]. f_equal. induction tags as [| tag tags IH]; [done |].
  rewrite fmap_cons. cbn [List.map]. by rewrite IH.
Qed.

Lemma clean_join (tags : list string) : Forall clean tags -> clean (JsString.join "," tags).
Proof.
  induction 1 as [| tag tags [Hd Hb] Htags [IHd IHb]]; [done |].
  destruct tags as [| next tags]; [done |].
  change (JsString.join "," (tag :: next :: tags))
    with (tag +:+ "," +:+ JsString.join "," (next :: tags)).
  unfold clean. rewrite !mem_append, Hd, Hb, IHd, IHb. done.
Qed.

(** X22.  The note that the default template gives.  With the default
    note template, [createNote] writes the front matter with the link to
    the source under [attachments], the time of processing as
    [dateCreated] and as [dateModified], and after [tags: ] the merged
    tags joined by commas on that same line (nothing when there are
    none), then the heading and the content.  The content, the link, the
    time stamp and the tags are taken without dollar sign and braces;
    the extracted variables have distinct names made of word
    characters. *)
Theorem default_note_content
    (settings : HandwriteSettings) (host : Collaborators)
    (content futureSourcePath link : string) (file : TFile) (result : StructuredResponse) :
  templateContent settings = TemplateRenderer.DEFAULT_TEMPLATE ->
  clean content -> JsString.mem "}" content = false ->
  clean link ->
  clean (toISOString (templateClock host)) ->
  Forall clean (noteTags settings result) ->
  Forall (fun entry => wordKey (fst entry)) (extractedVariables result) ->
  NoDup (fst <$> extractedVariables result) ->
  FileProcessor.noteContent settings host content futureSourcePath link file result
  = JsString.join Js.newline
      [ "---"; "attachments: "; "  - " +:+ link;
        "dateCreated: " +:+ toISOString (templateClock host);
        "tags: " +:+ JsString.join "," (noteTags settings result);
        "dateModified: " +:+ toISOString (templateClock host); "---"; "";
        "# Handwritten Note"; ""; content ].
Proof.
  intros Htemplate [Hc1 Hc2] Hc3 Hlink Hiso Htags Hkeys Hnd.
  unfold FileProcessor.noteContent. fold (noteTags settings result).
  rewrite Htemplate, <- defaultPieces_flatten.
  set (merged := Js.set "tags" (JArray (List.map JString (noteTags settings result)))
                   (extractedVariables result)).
  set (data := TemplateRenderer.createTemplateData _ _ _ _ _ _ _ _ _ _).
  assert (Forall (fun entry => wordKey (fst entry)) (customVariables data)) as Hcustom.
  { subst data. cbn [customVariables TemplateRenderer.createTemplateData].
    apply spread_keys_all; [constructor |]. by apply set_keys_all. }
  assert (Js.get "tags" (customVariables data)
          = Some (JArray (JString <$> noteTags settings result))) as Hget.
  { subst data. cbn [customVariables TemplateRenderer.createTemplateData].
    rewrite spread_nil_get by (by apply set_NoDup). subst merged. apply get_set_same. }
  destruct (noteEntries_get data "tags" Hcustom) as [_ Hlookup].
  destruct Hlookup as [Htag _]; [apply (bool_decide_unpack _); vm_compute; reflexivity
                                | reflexivity |].
  rewrite Hget in Htag.
  assert (Js.get "markdownLink" (noteEntries data) = Some (JString link)) as Hg1
      by reflexivity.
  assert (Js.get "dateProcessed" (noteEntries data)
          = Some (JString (toISOString (templateClock host)))) as Hg2 by reflexivity.
  assert (Js.get "content" (noteEntries data) = Some (JString content)) as Hg3.
  { transitivity (Some (JString (TemplateRenderer.escapeContent content)));
      [reflexivity | by rewrite escapeContent_plain]. }
  rewrite render_pieces; [| apply defaultPieces_wellFormed | done |].
  - unfold defaultPieces. rewrite !fmap_cons, fmap_nil.
    cbn [resolve]. rewrite Hg1, Hg2, Hg3, Htag, toString_tags.
    cbn [flatten pieceText Js.toString JsString.join].
    rewrite append_empty_r, !append_assoc. reflexivity.
  - intros name (sp1 & dot & sp2 & Hin). unfold defaultPieces in Hin.
    repeat (apply elem_of_cons in Hin as [[= -> -> -> ->] | Hin]; try discriminate);
      try (by inversion Hin).
    + by exists (JString link).
    + by exists (JString (toISOString (templateClock host))).
    + eexists. split; [exact Htag |]. rewrite toString_tags. by apply clean_join.
    + by exists (JString (toISOString (templateClock host))).
    + by exists (JString content).
Qed.

Lemma default_note_content_witness :
  FileProcessor.noteContent (withDefaultTags ["inbox"])
    (hostAnswering (Normal []) replyWithJsonFence)
    "body" "in/scan.png" "[[in/scan.png]]" (sampleFile "scan" "png")
    {| content := JString "body";
       extractedVariables := [("tags", JArray [JString "x"; JString "y"])] |}
  = JsString.join Js.newline
      [ "---"; "attachments: "; "  - " +:+ "[[in/scan.png]]";
        "dateCreated: " +:+ "2024-05-01T10:00:00.000Z";
        "tags: " +:+ JsString.join "," ["inbox"; "x"; "y"];
        "dateModified: " +:+ "2024-05-01T10:00:00.000Z"; "---"; "";
        "# Handwritten Note"; ""; "body" ].
Proof.
  apply (default_note_content (withDefaultTags ["inbox"])
           (hostAnswering (Normal []) replyWithJsonFence)
           "body" "in/scan.png" "[[in/scan.png]]" (sampleFile "scan" "png")
           {| content := JString "body";
              extractedVariables := [("tags", JArray [JString "x"; JString "y"])] |});
    try done.
  - repeat constructor.
  - repeat constructor.
  - apply NoDup_singleton.
Defined.

End DefaultNote.
(** ** The content in a template with several tokens *)

Section Splitting.

Local Open Scope list_scope.
















End Splitting.

Section EscapedTexts.

Local Open Scope list_scope.

Lemma length_zero (s : string) : String.length s = O -> s = EmptyString.
Proof. by destruct s. Qed.









End EscapedTexts.

Section SafePieces.

Local Open Scope list_scope.









End SafePieces.

Section EscapedContent.

Local Open Scope list_scope.











End EscapedContent.

Section EscapedContentClaims.

Local Open Scope list_scope.

(** The conditions of the theorem below are needed.  A brace of the
    template next to the token completes a token with braces of the
    content, which is then substituted; so do the braces of two copies
    of the content that touch; a dollar sign of the content is expanded;
    and the pass that writes [tags: []] rewrites the end of a content
    that a token of [tags] follows. *)
Lemma content_conditions_needed :
  TemplateRenderer.renderTemplate "{{content}}}}" (sampleData "{{{filename" (Some []) [])
  = "\{\scan"
  /\ TemplateRenderer.renderTemplate "{{content}}{{content}}"
       (sampleData "}x{{{filename}" (Some []) [])
     = "}x\{\scanx\{\{{filename}"
  /\ TemplateRenderer.renderTemplate "{{content}}" (sampleData "a$$b" (Some []) [])
     = "a$b"
  /\ TemplateRenderer.renderTemplate "{{content}}{{v}}"
       (sampleData "{{{w" (Some []) [("v", JString "}}"); ("w", JString "W")])
     = "\{\W"
  /\ TemplateRenderer.renderTemplate "{{content}} {{tags}}"
       (sampleData "my tags:   " (Some []) [])
     = "my tags: []".
Proof. split_and!; vm_compute; reflexivity. Qed.



End EscapedContentClaims.
(** ** The structure shown in the prompt *)

Section PromptStructure.

Local Open Scope list_scope.

Lemma lexString_safe (s rest : string) :
  JsString.all safeChar s = true ->
  JSON.lexString (s +:+ String Js.quote rest) = Some (s, rest).
Proof.
  induction s as [| c s IH]; intros Hs.
  - rewrite append_nil. cbn [JSON.lexString]. by rewrite Ascii.eqb_refl.
  - rewrite append_cons. cbn [JsString.all] in Hs.
    apply andb_true_iff in Hs as [Hc Hs]. unfold safeChar in Hc.
    apply andb_true_iff in Hc as [[Hq Hb]%andb_true_iff Hcode].
    cbn [JSON.lexString].
    destruct (Ascii.eqb c Js.quote); [done |].
    destruct (Ascii.eqb c Js.backslash); [done |].
    destruct (JsString.code c <? 32)%nat; [done |].
    by rewrite IH.
Qed.

Lemma wordKey_safe (key : string) : wordKey key -> JsString.all safeChar key = true.
Proof.
  unfold wordKey. induction key as [| c key IH]; [done |]. cbn [JsString.all].
  intros [Hc Hkey]%andb_true_iff. rewrite IH by done. rewrite andb_true_r.
  clear -Hc. destruct c as [[] [] [] [] [] [] [] []]; try done.
Qed.

Lemma example_readsAs (t : VariableType) :
  readsAs (GeminiClient.example t) (exampleValue t).
Proof.
  intros fuel after (rest & [-> | ->]); destruct t; reflexivity.
Qed.

Lemma quoted_app (s after : string) :
  GeminiClient.quoted s +:+ after = String Js.quote (s +:+ String Js.quote after).
Proof.
  unfold GeminiClient.quoted. by rewrite append_assoc, !append_cons, append_nil.
Qed.

Lemma parseValue_quote (fuel : nat) (r : string) :
  JSON.parseValue (S fuel) (String " " (String Js.quote r))
  = match JSON.lexString r with
    | Some (str, r') => Some (JString str, r')
    | None => None
    end.
Proof. reflexivity. Qed.

Lemma content_readsAs :
  readsAs (GeminiClient.quoted "the transcribed text") (JString "the transcribed text").
Proof.
  intros fuel after _. rewrite quoted_app, append_cons, append_nil.
  by rewrite parseValue_quote, lexString_safe.
Qed.

(** The member lines of the variables are those of their names and
    example texts. *)
Lemma exampleLines_members (vars : list ExtractableVariable) :
  GeminiClient.exampleLines vars
  = memberLines ((fun v => (name v, GeminiClient.example (type v))) <$> vars).
Proof.
  induction vars as [| v vars IH]; [done |]. rewrite fmap_cons.
  cbn [GeminiClient.exampleLines memberLines]. rewrite IH. by destruct vars.
Qed.

Lemma skipWs_spaces (r : string) : JSON.skipWs ("  " +:+ r) = JSON.skipWs r.
Proof. reflexivity. Qed.

Lemma skipWs_newline (r : string) : JSON.skipWs (Js.newline +:+ r) = JSON.skipWs r.
Proof. reflexivity. Qed.

Lemma skipWs_quote (r : string) : JSON.skipWs (String Js.quote r) = String Js.quote r.
Proof. reflexivity. Qed.

Lemma parseMembers_step (fuel : nat) (s : string) (acc : list (string * JsValue)) :
  JSON.parseMembers (S fuel) s acc
  = match JSON.skipWs s with
    | String c r =>
        if Ascii.eqb c Js.quote then
          match JSON.lexString r with
          | Some (key, r1) =>
              match JSON.skipWs r1 with
              | String ":" r2 =>
                  match JSON.parseValue fuel r2 with
                  | Some (v, r3) =>
                      match JSON.skipWs r3 with
                      | String "," r4 => JSON.parseMembers fuel r4 (Js.set key v acc)
                      | String "}" r4 => Some (JObject (Js.set key v acc), r4)
                      | _ => None
                      end
                  | None => None
                  end
              | _ => None
              end
          | None => None
          end
        else None
    | EmptyString => None
    end.
Proof. reflexivity. Qed.

Lemma memberLines_cons (key text : string) (rest : list (string * string)) (tail : string) :
  Js.newline +:+ memberLines ((key, text) :: rest) +:+ tail
  = Js.newline +:+ "  "
    +:+ String Js.quote
          (key +:+ String Js.quote
             (String ":" (" " +:+ text
                          +:+ match rest with
                              | [] => tail
                              | _ => String "," (Js.newline +:+ memberLines rest +:+ tail)
                              end))).
Proof.
  cbn [memberLines]. rewrite !append_assoc, quoted_app. do 4 f_equal.
  destruct rest; by rewrite ?append_nil, ?append_cons, ?append_nil.
Qed.

Lemma skipWs_member (r : string) :
  JSON.skipWs (Js.newline +:+ "  " +:+ String Js.quote r) = String Js.quote r.
Proof. reflexivity. Qed.

Lemma skipWs_colon (r : string) : JSON.skipWs (String ":" r) = String ":" r.
Proof. reflexivity. Qed.

Lemma skipWs_comma (r : string) : JSON.skipWs (String "," r) = String "," r.
Proof. reflexivity. Qed.

Lemma skipWs_closing (tail : string) :
  JSON.skipWs (Js.newline +:+ "}" +:+ tail) = String "}" tail.
Proof. reflexivity. Qed.

(** Reading the members the prompt lays out. *)
Lemma parseMembers_lines (members : list (string * string * JsValue)) :
  members <> [] ->
  Forall (fun m => JsString.all safeChar (fst (fst m)) = true
                   /\ readsAs (snd (fst m)) (snd m)) members ->
  forall fuel acc tail,
    (length members < fuel)%nat ->
    JSON.parseMembers fuel
      (Js.newline +:+ memberLines (fst <$> members) +:+ Js.newline +:+ "}" +:+ tail) acc
    = Some (JObject (fold_left (fun acc m => Js.set (fst (fst m)) (snd m) acc) members acc),
            tail).
Proof.
  intros Hne Hall. induction Hall as [| [[key text] v] rest [Hkey Hreads] _ IH]; [done |].
  intros fuel acc tail Hfuel. cbn [fst snd] in *.
  destruct fuel as [| [| fuel]]; [simpl in Hfuel; lia | simpl in Hfuel; lia |].
  destruct rest as [| m rest].
  - rewrite fmap_cons, fmap_nil. cbn [fst].
    rewrite memberLines_cons, parseMembers_step, skipWs_member.
    rewrite Ascii.eqb_refl, lexString_safe, skipWs_colon by done.
    rewrite Hreads; [| exists ("}" +:+ tail); by right].
    rewrite skipWs_closing. reflexivity.
  - rewrite !fmap_cons. cbn [fst].
    rewrite memberLines_cons, parseMembers_step, skipWs_member.
    rewrite Ascii.eqb_refl, lexString_safe, skipWs_colon by done.
    rewrite Hreads; [| eexists; by left]. rewrite skipWs_comma.
    cbn [fold_left fst snd]. rewrite <- (fmap_cons fst m rest).
    apply IH; [done | simpl in *; lia].
Qed.

Lemma memberLines_length (members : list (string * string)) :
  (length members <= String.length (memberLines members))%nat.
Proof.
  induction members as [| [key text] rest IH]; [done |]. cbn [memberLines].
  rewrite !length_append. simpl. lia.
Qed.

Lemma backtick_free_find (p s : string) :
  JsString.mem "`" s = false -> JsString.find (String "`" p) s = None.
Proof.
  induction s as [| c s IH]; [done |].
  cbn [JsString.mem JsString.find JsString.startsWith].
  destruct (Ascii.eqb "`" c); [done |]. intros Hs. by rewrite IH.
Qed.

Lemma fencedBody_plain (text : string) :
  JsString.mem "`" text = false -> GeminiClient.fencedBody text = text.
Proof.
  intros Htext. unfold GeminiClient.fencedBody. rewrite !includes_find.
  unfold GeminiClient.jsonFence, GeminiClient.fence.
  by rewrite !backtick_free_find.
Qed.

Lemma wordKey_no_backtick (key : string) : wordKey key -> JsString.mem "`" key = false.
Proof.
  unfold wordKey. induction key as [| c key IH]; [done |].
  cbn [JsString.all JsString.mem].
  intros [Hc Hkey]%andb_true_iff. rewrite IH by done.
  destruct (Ascii.eqb "`" c) eqn:Heq; [| done].
  apply Ascii.eqb_eq in Heq. subst c. discriminate Hc.
Qed.

Lemma memberLines_no_backtick (members : list (string * string)) :
  Forall (fun m => JsString.mem "`" (fst m) = false /\ JsString.mem "`" (snd m) = false)
    members ->
  JsString.mem "`" (memberLines members) = false.
Proof.
  induction 1 as [| [key text] rest [Hkey Htext] _ IH]; [done |].
  cbn [memberLines fst snd] in *. unfold GeminiClient.quoted.
  assert (forall s, JsString.mem "`" (String Js.quote s) = JsString.mem "`" s) as Hquote
    by reflexivity.
  rewrite !mem_append, Hquote, IH, Hkey, Htext. by destruct rest.
Qed.

(** The structure is an object of member lines: first the content, then
    the variables. *)
Lemma exampleStructure_members (vars : list ExtractableVariable) :
  exampleStructure vars
  = "{" +:+ Js.newline
    +:+ memberLines (("content", GeminiClient.quoted "the transcribed text")
                     :: ((fun v => (name v, GeminiClient.example (type v))) <$> vars))
    +:+ Js.newline +:+ "}".
Proof.
  unfold exampleStructure. rewrite exampleLines_members. cbn [memberLines].
  destruct vars as [| v vars]; [done |]. rewrite fmap_cons.
  by rewrite !append_assoc.
Qed.

Lemma parseValue_brace (fuel : nat) (r : string) :
  JSON.parseValue (S fuel) (String "{" r)
  = match JSON.skipWs r with
    | String "}" r' => Some (JObject [], r')
    | _ => JSON.parseMembers fuel r []
    end.
Proof. reflexivity. Qed.

(** Decoding an object laid out in member lines. *)
Lemma parse_memberLines (members : list (string * string * JsValue)) :
  members <> [] ->
  Forall (fun m => JsString.all safeChar (fst (fst m)) = true
                   /\ readsAs (snd (fst m)) (snd m)) members ->
  JSON.parse ("{" +:+ Js.newline +:+ memberLines (fst <$> members) +:+ Js.newline +:+ "}")
  = Normal (JObject (fold_left (fun acc m => Js.set (fst (fst m)) (snd m) acc) members [])).
Proof.
  intros Hne Hall. unfold JSON.parse.
  set (text := "{" +:+ Js.newline +:+ memberLines (fst <$> members) +:+ Js.newline +:+ "}").
  assert (length members < 2 * String.length text + 1)%nat as Hfuel.
  { subst text. rewrite !length_append.
    pose proof (memberLines_length (fst <$> members)) as Hlen.
    rewrite length_fmap in Hlen. simpl. lia. }
  replace (2 * String.length text + 2)%nat with (S (2 * String.length text + 1)) by lia.
  subst text.
  change ("{" +:+ Js.newline +:+ memberLines (fst <$> members) +:+ Js.newline +:+ "}")
    with (String "{" (Js.newline +:+ memberLines (fst <$> members) +:+ Js.newline
                      +:+ "}" +:+ EmptyString)) in *.
  rewrite parseValue_brace.
  rewrite (parseMembers_lines members Hne Hall _ [] EmptyString Hfuel).
  destruct members as [| [[key text] v] rest]; [done |].
  rewrite fmap_cons. cbn [fst]. by rewrite memberLines_cons, skipWs_member.
Qed.

Lemma fold_left_members (vars : list ExtractableVariable) (acc : list (string * JsValue)) :
  fold_left (fun acc (m : string * string * JsValue) => Js.set (fst (fst m)) (snd m) acc)
    ((fun v => (name v, GeminiClient.example (type v), exampleValue (type v))) <$> vars) acc
  = fold_left (fun acc variable => Js.set (name variable) (exampleValue (type variable)) acc)
      vars acc.
Proof.
  revert acc. induction vars as [| v vars IH]; intros acc; [done |].
  rewrite fmap_cons. cbn [fold_left fst snd]. apply IH.
Qed.

Lemma parseJSONResponse_text (text : string) :
  text <> EmptyString ->
  GeminiClient.parseJSONResponse (Some text)
  = JSON.parse (GeminiClient.braceSpan (GeminiClient.fencedBody text)).
Proof. by destruct text. Qed.

End PromptStructure.

Section PromptClaims.

Local Open Scope list_scope.

(** X23.  The prompt starts with the configured prompt and ends with the
    structure it asks for, and that structure is itself a reply the
    decoder accepts.  With variables
    named by word characters, a reply that repeats the structure
    unchanged decodes to an object: its [content] is the placeholder text
    and every variable has the value shown for its type, an empty array,
    the number 0 or the empty string. *)
Theorem prompt_structure_decodes (basePrompt : string) (vars : list ExtractableVariable) :
  Forall (fun v => wordKey (name v)) vars ->
  (exists request,
     GeminiClient.buildPrompt basePrompt vars
     = basePrompt +:+ request +:+ exampleStructure vars)
  /\ GeminiClient.parseJSONResponse (Some (exampleStructure vars))
     = Normal (JObject (exampleObject vars)).
Proof.
  intros Hvars. split.
  - unfold GeminiClient.buildPrompt, exampleStructure. cbv zeta.
    exists (match vars with
            | [] => EmptyString
            | _ => Js.newline +:+ Js.newline
                   +:+ "Additionally, extract the following variables:" +:+ Js.newline
                   +:+ GeminiClient.variableLines vars
            end
            +:+ Js.newline +:+ Js.newline
            +:+ "Return the response in valid JSON format with the following structure:"
            +:+ Js.newline).
    destruct vars as [| v vars]; rewrite !append_assoc; reflexivity.
  - set (members :=
           ("content", GeminiClient.quoted "the transcribed text",
            JString "the transcribed text")
           :: ((fun v => (name v, GeminiClient.example (type v), exampleValue (type v)))
                 <$> vars)).
    assert (exampleStructure vars
            = "{" +:+ Js.newline +:+ memberLines (fst <$> members) +:+ Js.newline +:+ "}")
      as Hstructure.
    { rewrite exampleStructure_members. subst members. rewrite fmap_cons. cbn [fst].
      by rewrite <- list_fmap_compose. }
    assert (JsString.mem "`" (exampleStructure vars) = false) as Hplain.
    { rewrite Hstructure, !mem_append, memberLines_no_backtick; [done |].
      subst members. rewrite fmap_cons. constructor; [done |].
      apply Forall_fmap, Forall_fmap. eapply Forall_impl; [exact Hvars |].
      intros v Hv. cbn [fst snd compose]. split; [by apply wordKey_no_backtick |].
      by destruct (type v). }
    rewrite parseJSONResponse_text by (by rewrite exampleStructure_members).
    rewrite fencedBody_plain by done. rewrite Hstructure.
    assert (GeminiClient.braceSpan
              ("{" +:+ Js.newline +:+ memberLines (fst <$> members) +:+ Js.newline +:+ "}")
            = "{" +:+ Js.newline +:+ memberLines (fst <$> members) +:+ Js.newline +:+ "}")
      as ->.
    { pose proof (braceSpan_commentary EmptyString
                    (Js.newline +:+ memberLines (fst <$> members) +:+ Js.newline)
                    EmptyString eq_refl eq_refl) as Hspan.
      rewrite !append_assoc in Hspan. exact Hspan. }
    assert (members <> []) as Hne by done.
    rewrite (parse_memberLines members Hne).
    + subst members. cbn [fold_left fst snd]. by rewrite fold_left_members.
    + subst members. constructor.
      * split; [done | apply content_readsAs].
      * apply Forall_fmap. eapply Forall_impl; [exact Hvars |].
        intros v Hv. cbn [fst snd compose]. split; [by apply wordKey_safe |].
        apply example_readsAs.
Qed.

Lemma prompt_structure_decodes_witness :
  GeminiClient.parseJSONResponse
    (Some (exampleStructure (extractableVariables DEFAULT_SETTINGS)))
  = Normal (JObject (exampleObject (extractableVariables DEFAULT_SETTINGS))).
Proof.
  apply (prompt_structure_decodes "Transcribe." (extractableVariables DEFAULT_SETTINGS)).
  repeat constructor.
Defined.

End PromptClaims.
